(** * SqliteSaver: the SQLite checkpoint saver of langgraph

    A shallow embedding of [langgraph/checkpoint/sqlite.py]: the
    compatibility serializer [JsonPlusSerializerCompat], the query builder
    ([search_where], [_metadata_predicate], [_where_value]) and the saver
    ([SqliteSaver.get_tuple], [list], [search], [put]) running against a
    model of the one table the saver creates.

    Python values are an inductive type, exceptions an error monad, the
    saver's connection an explicit state.  What the module imports from
    outside the repository (the builtins [str] and [float.__repr__],
    [pickle.loads], the injected serializer, SQLite's [json_extract]) is a
    [Variable] of the section that uses it. *)

From Stdlib Require Import ZArith List Bool Lia Arith.
From Stdlib Require Import Strings.String Strings.Ascii Strings.Byte.
From Stdlib Require Import Numbers.DecimalString Numbers.DecimalZ.
From Stdlib Require Import Floats.SpecFloat.
From Stdlib Require Import Sorting.Sorted Sorting.Permutation.
From Stdlib Require Import Structures.OrderedTypeEx.
Import ListNotations.

Local Open Scope string_scope.
Local Open Scope Z_scope.

(** ** Exceptions and the error monad

    [Unmodelled] is not a Python exception: it marks a run that leaves the
    fragment of SQLite modelled below (a statement the parser does not
    read, a value the typed table cannot hold). *)

Inductive py_exception : Type :=
| KeyError (key : string)
| TypeError
| IndexError
| OverflowError
| DecodeError
| OperationalError
| ValueError
| IntegrityError
| InterfaceError
| ProgrammingError
| Unmodelled.

Inductive result (A : Type) : Type :=
| Ok (a : A)
| Raise (e : py_exception).

Arguments Ok {A} a.
Arguments Raise {A} e.

Definition rbind {A B : Type} (m : result A) (k : A -> result B) : result B :=
  match m with
  | Ok a => k a
  | Raise e => Raise e
  end.

Notation "x <- m ;; k" := (rbind m (fun x => k))
  (at level 61, m at next level, right associativity).
Notation "' pat <- m ;; k" := (rbind m (fun x => match x with pat => k end))
  (at level 61, pat pattern, m at next level, right associativity).

(** ** Python values

    [bytes] are lists of bytes.  A [str] is a Rocq string, each character
    one code point (so the code points below 256).  A [float] is an IEEE
    binary64 value in Stdlib's [spec_float].  A [dict] is the list of its
    items in insertion order, with [str] keys as in every dictionary this
    module handles.  [PyObject] stands for an instance of any class that is
    none of the above (nor a subclass of one): a [set], a [datetime], ...;
    it is known by its class name, an identity and its truth value. *)

Definition bytes : Type := list byte.

#[warning="-register-all"]
Inductive py_value : Type :=
| PyNone
| PyBool (b : bool)
| PyInt (n : Z)
| PyFloat (f : spec_float)
| PyStr (s : string)
| PyBytes (b : bytes)
| PyList (items : list py_value)
| PyTuple (items : list py_value)
| PyDict (items : list (string * py_value))
| PyObject (cls : string) (ident : N) (truth : bool).

(** [isinstance(v, T)].  [bool] is a subclass of [int], so a boolean is an
    instance of [int] as well. *)

Definition is_none (v : py_value) : bool :=
  match v with PyNone => true | _ => false end.

Definition isinstance_str (v : py_value) : bool :=
  match v with PyStr _ => true | _ => false end.

Definition isinstance_int (v : py_value) : bool :=
  match v with PyInt _ | PyBool _ => true | _ => false end.

Definition isinstance_float (v : py_value) : bool :=
  match v with PyFloat _ => true | _ => false end.

Definition isinstance_bool (v : py_value) : bool :=
  match v with PyBool _ => true | _ => false end.

Definition isinstance_dict (v : py_value) : bool :=
  match v with PyDict _ => true | _ => false end.

Definition isinstance_list (v : py_value) : bool :=
  match v with PyList _ => true | _ => false end.

(** Truth value of an object, as [if v:] tests it. *)

Definition py_truthy (v : py_value) : bool :=
  match v with
  | PyNone => false
  | PyBool b => b
  | PyInt n => negb (n =? 0)
  | PyFloat f => match f with S754_zero _ => false | _ => true end
  | PyStr s => negb (s =? "")%string
  | PyBytes b => match b with [] => false | _ => true end
  | PyList l | PyTuple l => match l with [] => false | _ => true end
  | PyDict d => match d with [] => false | _ => true end
  | PyObject _ _ t => t
  end.

(** [int.__repr__]: the decimal digits, with a leading minus sign.  The
    interpreter's optional bound on the number of digits of such a
    conversion ([sys.set_int_max_str_digits]) is taken to be off. *)

Definition int_repr (n : Z) : string :=
  NilZero.string_of_int (Z.to_int n).

(** Dictionaries: [d[k]] raises [KeyError] on a missing key, [d.get(k)]
    gives [None]. *)

Fixpoint assoc (k : string) (items : list (string * py_value)) : option py_value :=
  match items with
  | [] => None
  | (k', v) :: rest => if (k' =? k)%string then Some v else assoc k rest
  end.

Definition py_getitem (d : py_value) (k : string) : result py_value :=
  match d with
  | PyDict items =>
      match assoc k items with
      | Some v => Ok v
      | None => Raise (KeyError k)
      end
  | _ => Raise TypeError
  end.

Definition py_get (d : py_value) (k : string) : result py_value :=
  match d with
  | PyDict items =>
      match assoc k items with
      | Some v => Ok v
      | None => Ok PyNone
      end
  | _ => Raise TypeError
  end.

Definition dquote : ascii := ascii_of_nat 34.
Definition backslash : ascii := ascii_of_nat 92.

(** ** json.dumps

    The encoder of the standard library with its default options
    ([ensure_ascii], [allow_nan], no [default] hook) and the two separators
    the caller passes.  The values here are finite trees: a container
    that holds itself, which the encoder refuses with [ValueError], is
    none of them. *)

Section Json.

(** [float.__repr__] *)
Variable float_repr : spec_float -> string.

Variable item_separator : string.
Variable key_separator : string.

Definition hex_digit (n : N) : ascii :=
  ascii_of_N (if (n <? 10)%N then 48 + n else 87 + n).

Definition escape_char (c : ascii) : string :=
  let n := N_of_ascii c in
  if (n =? 34)%N then String backslash (String dquote "")
  else if (n =? 92)%N then String backslash (String backslash "")
  else if (n =? 10)%N then String backslash "n"
  else if (n =? 13)%N then String backslash "r"
  else if (n =? 9)%N then String backslash "t"
  else if (n =? 8)%N then String backslash "b"
  else if (n =? 12)%N then String backslash "f"
  else if ((32 <=? n) && (n <=? 126))%N then String c ""
  else String backslash
         (String "u" (String "0" (String "0"
            (String (hex_digit (n / 16)) (String (hex_digit (n mod 16)) ""))))).

Fixpoint escape_string (s : string) : string :=
  match s with
  | EmptyString => ""
  | String c rest => escape_char c ++ escape_string rest
  end.

Definition encode_basestring_ascii (s : string) : string :=
  String dquote (escape_string s ++ String dquote "").

Definition floatstr (f : spec_float) : string :=
  match f with
  | S754_nan => "NaN"
  | S754_infinity false => "Infinity"
  | S754_infinity true => "-Infinity"
  | _ => float_repr f
  end.

Fixpoint json_encode (v : py_value) : result string :=
  match v with
  | PyNone => Ok "null"
  | PyBool true => Ok "true"
  | PyBool false => Ok "false"
  | PyInt n => Ok (int_repr n)
  | PyFloat f => Ok (floatstr f)
  | PyStr s => Ok (encode_basestring_ascii s)
  | PyList items | PyTuple items =>
      parts <- (fix encode_items (l : list py_value) : result (list string) :=
                  match l with
                  | [] => Ok []
                  | x :: rest =>
                      s <- json_encode x ;;
                      ss <- encode_items rest ;;
                      Ok (s :: ss)
                  end) items ;;
      Ok ("[" ++ String.concat item_separator parts ++ "]")
  | PyDict items =>
      parts <- (fix encode_pairs (l : list (string * py_value)) : result (list string) :=
                  match l with
                  | [] => Ok []
                  | (k, x) :: rest =>
                      s <- json_encode x ;;
                      ss <- encode_pairs rest ;;
                      Ok ((encode_basestring_ascii k ++ key_separator ++ s) :: ss)
                  end) items ;;
      Ok ("{" ++ String.concat item_separator parts ++ "}")
  | PyBytes _ | PyObject _ _ _ => Raise TypeError
  end.

End Json.

(** ** The query builder *)

Section QueryBuilder.

(** The builtin [str], on objects whose [__str__] returns *)
Variable py_str : py_value -> string.
Variable float_repr : spec_float -> string.

(** [json.dumps(obj, separators=(",", ":"))] *)
Definition json_dumps_compact (v : py_value) : result string :=
  json_encode float_repr "," ":" v.

Definition _where_value (query_value : py_value) : result (string * py_value) :=
  if is_none query_value then
    Ok ("IS ?", PyNone)
  else if isinstance_str query_value
          || isinstance_int query_value
          || isinstance_float query_value then
    Ok ("= ?", query_value)
  else if isinstance_bool query_value then
    Ok ("= ?", PyInt (if py_truthy query_value then 1 else 0))
  else if isinstance_dict query_value || isinstance_list query_value then
    s <- json_dumps_compact query_value ;;
    Ok ("= ?", PyStr s)
  else
    Ok ("= ?", PyStr (py_str query_value)).

(** [s[:-n]] *)
Definition drop_last (n : nat) (s : string) : string :=
  substring 0 (String.length s - n) s.

Definition metadata_clause (query_key operator : string) : string :=
  "json_extract(CAST(metadata AS TEXT), '$." ++ query_key ++ "') " ++ operator ++ " AND ".

(** The loop over [metadata_filter.items()], on the pair
    [(predicate, param_values)]. *)
Fixpoint metadata_loop (items : list (string * py_value))
         (predicate : string) (param_values : list py_value)
  : result (string * list py_value) :=
  match items with
  | [] => Ok (predicate, param_values)
  | (query_key, query_value) :: rest =>
      '(operator, param_value) <- _where_value query_value ;;
      metadata_loop rest
        (predicate ++ metadata_clause query_key operator)
        (param_values ++ [param_value])%list
  end.

Definition _metadata_predicate (metadata_filter : list (string * py_value))
  : result (string * list py_value) :=
  '(predicate, param_values) <- metadata_loop metadata_filter "" [] ;;
  let predicate :=
    if negb (predicate =? "")%string then drop_last 4 predicate else predicate in
  Ok (predicate, param_values).

Definition search_where (metadata_filter : list (string * py_value))
           (before : option py_value) : result (string * list py_value) :=
  let where_ := "WHERE " in
  let param_values : list py_value := [] in
  '(metadata_predicate, metadata_values) <- _metadata_predicate metadata_filter ;;
  let '(where_, param_values) :=
    if negb (metadata_predicate =? "")%string
    then (where_ ++ metadata_predicate, (param_values ++ metadata_values)%list)
    else (where_, param_values) in
  '(where_, param_values) <-
    match before with
    | Some before =>
        let where_ :=
          if negb (metadata_predicate =? "")%string
          then where_ ++ "AND thread_ts < ? "
          else where_ ++ "thread_ts < ? " in
        configurable <- py_getitem before "configurable" ;;
        thread_ts <- py_getitem configurable "thread_ts" ;;
        Ok (where_, (param_values ++ [thread_ts])%list)
    | None => Ok (where_, param_values)
    end ;;
  if (where_ =? "WHERE ")%string then Ok ("", []) else Ok (where_, param_values).

End QueryBuilder.

(** ** JsonPlusSerializerCompat *)

Fixpoint bytes_startswith (data prefix : bytes) {struct prefix} : bool :=
  match prefix with
  | [] => true
  | p :: prefix' =>
      match data with
      | [] => false
      | d :: data' => Byte.eqb d p && bytes_startswith data' prefix'
      end
  end.

Definition bytes_endswith (data suffix : bytes) : bool :=
  bytes_startswith (rev data) (rev suffix).

Section Compat.

Variable pickle_loads : bytes -> result py_value.
(** [JsonPlusSerializer.loads], the method of the parent class *)
Variable super_loads : bytes -> result py_value.

Definition loads (data : bytes) : result py_value :=
  if bytes_startswith data [x80] && bytes_endswith data [x2e] then
    pickle_loads data
  else
    super_loads data.

End Compat.

(** ** The checkpoints table

    [CREATE TABLE checkpoints (thread_id TEXT NOT NULL, thread_ts TEXT NOT
    NULL, parent_ts TEXT, checkpoint BLOB, metadata BLOB, PRIMARY KEY
    (thread_id, thread_ts))].  The table is the list of its rows in rowid
    order.  The three TEXT columns hold text and [checkpoint] holds a
    blob, as every row the saver writes does. *)

Record row : Type := {
  col_thread_id : string;
  col_thread_ts : string;
  col_parent_ts : option string;
  col_checkpoint : bytes;
  col_metadata : option bytes
}.

Definition table : Type := list row.

Inductive sql_value : Type :=
| SqlNull
| SqlInteger (n : Z)
| SqlReal (f : spec_float)
| SqlText (s : string)
| SqlBlob (b : bytes).

(** How the [sqlite3] module binds a Python object to a placeholder, and
    how it hands a column back.  An object of a type it has no adapter
    for is refused with [ProgrammingError] ([InterfaceError] before
    Python 3.11). *)

Definition bind_param (v : py_value) : result sql_value :=
  match v with
  | PyNone => Ok SqlNull
  | PyBool b => Ok (SqlInteger (if b then 1 else 0))
  | PyInt n =>
      if (- 2 ^ 63 <=? n) && (n <? 2 ^ 63) then Ok (SqlInteger n)
      else Raise OverflowError
  | PyFloat S754_nan => Ok SqlNull
  | PyFloat f => Ok (SqlReal f)
  | PyStr s => Ok (SqlText s)
  | PyBytes b => Ok (SqlBlob b)
  | _ => Raise ProgrammingError
  end.

Fixpoint bind_params (vs : list py_value) : result (list sql_value) :=
  match vs with
  | [] => Ok []
  | v :: rest =>
      p <- bind_param v ;;
      ps <- bind_params rest ;;
      Ok (p :: ps)
  end.

Definition column_value (v : sql_value) : py_value :=
  match v with
  | SqlNull => PyNone
  | SqlInteger n => PyInt n
  | SqlReal f => PyFloat f
  | SqlText s => PyStr s
  | SqlBlob b => PyBytes b
  end.

(** The statements the saver issues. *)

Inductive column : Type :=
| ColThreadId | ColThreadTs | ColParentTs | ColCheckpoint | ColMetadata.

Inductive key_column : Type := KeyThreadId | KeyThreadTs.

Inductive condition : Type :=
| CondEq (k : key_column)
| CondLt (k : key_column)
| CondJsonEq (path : string)
| CondJsonIs (path : string).

Record select_stmt : Type := {
  sel_columns : list column;
  sel_where : list condition;
  sel_order_desc : bool;
  sel_limit : option Z
}.

Inductive statement : Type :=
| Select (s : select_stmt)
| InsertOrReplace.

(** *** Reading a statement *)

Fixpoint strip_prefix (p s : string) : option string :=
  match p with
  | EmptyString => Some s
  | String a p' =>
      match s with
      | EmptyString => None
      | String b s' => if Ascii.eqb a b then strip_prefix p' s' else None
      end
  end.

Fixpoint skip_spaces (s : string) : string :=
  match s with
  | EmptyString => EmptyString
  | String c s' => if Ascii.eqb c " " then skip_spaces s' else s
  end.

Definition expect (p s : string) : result string :=
  match strip_prefix p s with
  | Some rest => Ok rest
  | None => Raise Unmodelled
  end.

(** The text of a string literal, read from behind its opening quote: a
    doubled quote stands for one quote, a single one closes the literal. *)
Fixpoint read_literal (s : string) : result (string * string) :=
  match s with
  | EmptyString => Raise Unmodelled
  | String c s' =>
      if Ascii.eqb c "'" then
        match s' with
        | String c2 s2 =>
            if Ascii.eqb c2 "'" then
              '(lit, rest) <- read_literal s2 ;;
              Ok (String "'" lit, rest)
            else Ok (EmptyString, s')
        | EmptyString => Ok (EmptyString, s')
        end
      else
        '(lit, rest) <- read_literal s' ;;
        Ok (String c lit, rest)
  end.

Definition parse_condition (s : string) : result (condition * string) :=
  match strip_prefix "json_extract(CAST(metadata AS TEXT), '" s with
  | Some s1 =>
      '(path, s2) <- read_literal s1 ;;
      s3 <- expect ") " s2 ;;
      match strip_prefix "= ?" s3 with
      | Some s4 => Ok (CondJsonEq path, s4)
      | None =>
          s4 <- expect "IS ?" s3 ;;
          Ok (CondJsonIs path, s4)
      end
  | None =>
      match strip_prefix "thread_id = ?" s with
      | Some s1 => Ok (CondEq KeyThreadId, s1)
      | None =>
          match strip_prefix "thread_ts = ?" s with
          | Some s1 => Ok (CondEq KeyThreadTs, s1)
          | None =>
              s1 <- expect "thread_ts < ?" s ;;
              Ok (CondLt KeyThreadTs, s1)
          end
      end
  end.

Fixpoint parse_conditions (fuel : nat) (s : string) : result (list condition * string) :=
  match fuel with
  | O => Raise Unmodelled
  | S fuel' =>
      '(c, s1) <- parse_condition s ;;
      let s2 := skip_spaces s1 in
      match strip_prefix "AND " s2 with
      | Some s3 =>
          '(cs, s4) <- parse_conditions fuel' (skip_spaces s3) ;;
          Ok (c :: cs, s4)
      | None => Ok ([c], s2)
      end
  end.

Definition parse_columns (s : string) : result (list column * string) :=
  match strip_prefix "thread_id, thread_ts, parent_ts, checkpoint, metadata" s with
  | Some s1 =>
      Ok ([ColThreadId; ColThreadTs; ColParentTs; ColCheckpoint; ColMetadata], s1)
  | None =>
      s1 <- expect "checkpoint, parent_ts, metadata" s ;;
      Ok ([ColCheckpoint; ColParentTs; ColMetadata], s1)
  end.

(** The digits of a numeric literal; whether the number is an integer
    SQLite can hold is settled when the statement runs, by
    [check_limit]. *)
Definition parse_int (s : string) : result Z :=
  match NilZero.int_of_string s with
  | Some d => Ok (Z.of_int d)
  | None => Raise Unmodelled
  end.

(** The end of a SELECT: [ORDER BY thread_ts DESC] and [LIMIT n], each
    there or not. *)
Definition parse_order_limit (cols : list column) (conds : list condition) (s : string)
  : result select_stmt :=
  let '(desc, s) :=
    match strip_prefix "ORDER BY thread_ts DESC" s with
    | Some s' => (true, skip_spaces s')
    | None => (false, s)
    end in
  '(lim, s) <-
    match strip_prefix "LIMIT " s with
    | Some s' => n <- parse_int s' ;; Ok (Some n, EmptyString)
    | None => Ok (None, s)
    end ;;
  if (s =? "")%string then
    Ok {| sel_columns := cols; sel_where := conds;
          sel_order_desc := desc; sel_limit := lim |}
  else Raise Unmodelled.

Definition parse_select (sql : string) : result select_stmt :=
  s <- expect "SELECT " sql ;;
  '(cols, s) <- parse_columns s ;;
  s <- expect " FROM checkpoints" s ;;
  let s := skip_spaces s in
  '(conds, s) <-
    match strip_prefix "WHERE " s with
    | Some s' => parse_conditions (S (String.length s')) (skip_spaces s')
    | None => Ok ([], s)
    end ;;
  parse_order_limit cols conds (skip_spaces s).

Definition insert_sql : string :=
  "INSERT OR REPLACE INTO checkpoints (thread_id, thread_ts, parent_ts, checkpoint, metadata) VALUES (?, ?, ?, ?, ?)".

Definition parse_statement (sql : string) : result statement :=
  if (sql =? insert_sql)%string then Ok InsertOrReplace
  else s <- parse_select sql ;; Ok (Select s).

(** *** Running a statement *)

Definition column_of (r : row) (c : column) : sql_value :=
  match c with
  | ColThreadId => SqlText (col_thread_id r)
  | ColThreadTs => SqlText (col_thread_ts r)
  | ColParentTs =>
      match col_parent_ts r with Some s => SqlText s | None => SqlNull end
  | ColCheckpoint => SqlBlob (col_checkpoint r)
  | ColMetadata =>
      match col_metadata r with Some b => SqlBlob b | None => SqlNull end
  end.

Definition key_text (r : row) (k : key_column) : string :=
  match k with
  | KeyThreadId => col_thread_id r
  | KeyThreadTs => col_thread_ts r
  end.

(** A value compared with a TEXT column is given TEXT affinity first.
    A REAL becomes the text SQLite renders it as, which this model does
    not have: a comparison with a REAL is outside it, and is marked
    [Unmodelled]. *)
Definition text_affinity (v : sql_value) : result sql_value :=
  match v with
  | SqlInteger n => Ok (SqlText (int_repr n))
  | SqlReal _ => Raise Unmodelled
  | _ => Ok v
  end.

Definition real_equals_int (f : spec_float) (n : Z) : bool :=
  match f with
  | S754_zero _ => n =? 0
  | S754_finite s m e =>
      let v := if s then Z.neg m else Z.pos m in
      if 0 <=? e then n =? v * 2 ^ e else n * 2 ^ (- e) =? v
  | _ => false
  end.

Fixpoint bytes_eqb (a b : bytes) : bool :=
  match a, b with
  | [], [] => true
  | x :: a', y :: b' => Byte.eqb x y && bytes_eqb a' b'
  | _, _ => false
  end.

(** [a = b] between two values without affinity; NULL is equal to
    nothing. *)
Definition sql_equal (a b : sql_value) : bool :=
  match a, b with
  | SqlInteger x, SqlInteger y => x =? y
  | SqlInteger x, SqlReal f => real_equals_int f x
  | SqlReal f, SqlInteger x => real_equals_int f x
  | SqlReal f, SqlReal g => SFeqb f g
  | SqlText s, SqlText t => (s =? t)%string
  | SqlBlob x, SqlBlob y => bytes_eqb x y
  | _, _ => false
  end.

(** [a IS b] *)
Definition sql_is (a b : sql_value) : bool :=
  match a, b with
  | SqlNull, SqlNull => true
  | _, _ => sql_equal a b
  end.

Definition same_key (a b : row) : bool :=
  ((col_thread_id a =? col_thread_id b) && (col_thread_ts a =? col_thread_ts b))%string.

(** [ORDER BY thread_ts DESC]: a stable insertion sort. *)
Fixpoint insert_desc (r : row) (l : list row) : list row :=
  match l with
  | [] => [r]
  | x :: l' =>
      if String.ltb (col_thread_ts r) (col_thread_ts x)
      then x :: insert_desc r l'
      else r :: l
  end.

Fixpoint sort_desc (l : list row) : list row :=
  match l with
  | [] => []
  | r :: l' => insert_desc r (sort_desc l')
  end.

(** [LIMIT n] takes a 64-bit integer.  A literal outside that range is
    read as a REAL, which is no integer, and the statement fails with
    "datatype mismatch", an [IntegrityError] for the [sqlite3] module. *)
Definition limit_fits (lim : option Z) : bool :=
  match lim with
  | Some n => (- 2 ^ 63 <=? n) && (n <? 2 ^ 63)
  | None => true
  end.

Definition check_limit (lim : option Z) : result (option Z) :=
  if limit_fits lim then Ok lim else Raise IntegrityError.

(** [LIMIT n], for a limit that passed [check_limit]: a negative bound
    is no bound. *)
Definition apply_limit (lim : option Z) (l : list row) : list row :=
  match lim with
  | Some n => if n <? 0 then l else firstn (Z.to_nat n) l
  | None => l
  end.

(** What a TEXT column keeps of a value.  The columns of this model
    hold text: a REAL, which SQLite keeps as the text it renders it as,
    and a BLOB, which it keeps as a BLOB, are outside the model, and
    such a run is marked [Unmodelled]. *)
Definition store_text (v : sql_value) : result (option string) :=
  match v with
  | SqlNull => Ok None
  | SqlText s => Ok (Some s)
  | SqlInteger n => Ok (Some (int_repr n))
  | _ => Raise Unmodelled
  end.

Definition store_blob (v : sql_value) : result (option bytes) :=
  match v with
  | SqlNull => Ok None
  | SqlBlob b => Ok (Some b)
  | _ => Raise Unmodelled
  end.

Definition not_null {A : Type} (v : option A) : result A :=
  match v with
  | Some a => Ok a
  | None => Raise IntegrityError
  end.

(** [INSERT OR REPLACE]: the row that holds the key is deleted, the new
    row is added. *)
Definition insert_or_replace (new : row) (t : table) : table :=
  (filter (fun r => negb (same_key r new)) t ++ [new])%list.

Definition run_insert (ps : list sql_value) (t : table) : result table :=
  match ps with
  | [p_thread_id; p_thread_ts; p_parent_ts; p_checkpoint; p_metadata] =>
      tid <- store_text p_thread_id ;;
      tid <- not_null tid ;;
      ts <- store_text p_thread_ts ;;
      ts <- not_null ts ;;
      parent <- store_text p_parent_ts ;;
      ck <- store_blob p_checkpoint ;;
      ck <- match ck with Some b => Ok b | None => Raise Unmodelled end ;;
      md <- store_blob p_metadata ;;
      Ok (insert_or_replace
            {| col_thread_id := tid; col_thread_ts := ts; col_parent_ts := parent;
               col_checkpoint := ck; col_metadata := md |} t)
  | _ => Raise ProgrammingError
  end.

Section Engine.

(** SQLite's [json_extract(CAST(blob AS TEXT), path)] *)
Variable json_extract : bytes -> string -> result sql_value.

Definition extract_metadata (r : row) (path : string) : result sql_value :=
  match col_metadata r with
  | Some b => json_extract b path
  | None => Ok SqlNull
  end.

Definition eval_condition (c : condition) (p : sql_value) (r : row) : result bool :=
  match c with
  | CondEq k =>
      p' <- text_affinity p ;;
      Ok (match p' with
          | SqlText s => (key_text r k =? s)%string
          | _ => false
          end)
  | CondLt k =>
      p' <- text_affinity p ;;
      Ok (match p' with
          | SqlText s => String.ltb (key_text r k) s
          | SqlBlob _ => true
          | _ => false
          end)
  | CondJsonEq path =>
      v <- extract_metadata r path ;;
      Ok (sql_equal v p)
  | CondJsonIs path =>
      v <- extract_metadata r path ;;
      Ok (sql_is v p)
  end.

(** The conjunction of the WHERE clause, each condition with its own
    placeholder. *)
Fixpoint eval_where (cs : list condition) (ps : list sql_value) (r : row) : result bool :=
  match cs, ps with
  | [], [] => Ok true
  | c :: cs', p :: ps' =>
      b <- eval_condition c p r ;;
      if b then eval_where cs' ps' r else Ok false
  | _, _ => Raise ProgrammingError
  end.

Fixpoint select_rows (cs : list condition) (ps : list sql_value) (t : table) : result (list row) :=
  match t with
  | [] => Ok []
  | r :: t' =>
      b <- eval_where cs ps r ;;
      rest <- select_rows cs ps t' ;;
      Ok (if b then r :: rest else rest)
  end.

Definition run_select (st : select_stmt) (ps : list sql_value) (t : table)
  : result (list (list sql_value)) :=
  if negb (Nat.eqb (List.length (sel_where st)) (List.length ps)) then
    Raise ProgrammingError
  else
    lim <- check_limit (sel_limit st) ;;
    rows <- select_rows (sel_where st) ps t ;;
    let rows := if sel_order_desc st then sort_desc rows else rows in
    let rows := apply_limit lim rows in
    Ok (map (fun r => map (column_of r) (sel_columns st)) rows).

(** [cur.execute(sql, params)]: the table afterwards and the rows the
    cursor holds. *)
Definition sqlite_execute (sql : string) (params : list py_value) (t : table)
  : result (table * list (list py_value)) :=
  stmt <- parse_statement sql ;;
  ps <- bind_params params ;;
  match stmt with
  | Select st =>
      rows <- run_select st ps t ;;
      Ok (t, map (map column_value) rows)
  | InsertOrReplace =>
      t' <- run_insert ps t ;;
      Ok (t', [])
  end.

End Engine.

(** ** SqliteSaver *)

Record CheckpointTuple : Type := {
  config : py_value;
  checkpoint : py_value;
  metadata : py_value;
  parent_config : py_value
}.

(** The saver: its connection (the table behind it) and its flag. *)
Record SqliteSaver : Type := {
  conn : table;
  is_setup : bool
}.

(** What a generator does when it is run to its end: the values it
    yields, and the exception that stops it, if one does. *)
Record generated (A : Type) : Type := {
  yielded : list A;
  raised : option py_exception
}.

Arguments yielded {A} g.
Arguments raised {A} g.

Definition configurable_of (thread_id thread_ts : py_value) : py_value :=
  PyDict [("configurable", PyDict [("thread_id", thread_id); ("thread_ts", thread_ts)])].

(** [value[i]] on a row of the cursor *)
Definition row_item (value : list py_value) (i : nat) : result py_value :=
  match nth_error value i with
  | Some v => Ok v
  | None => Raise IndexError
  end.

Definition fetchone (cur : list (list py_value)) : option (list py_value) :=
  match cur with
  | [] => None
  | value :: _ => Some value
  end.

Section Saver.

Variable py_str : py_value -> string.
Variable float_repr : spec_float -> string.
Variable json_extract : bytes -> string -> result sql_value.

(** [self.serde], a [SerializerProtocol] *)
Variable serde_dumps : py_value -> result bytes.
Variable serde_loads : bytes -> result py_value.

Definition serde_loads_value (v : py_value) : result py_value :=
  match v with
  | PyBytes b => serde_loads b
  | _ => Raise TypeError
  end.

(** [CREATE TABLE IF NOT EXISTS] leaves the rows of a table that exists
    as they are; a table just created has none. *)
Definition setup (self : SqliteSaver) : SqliteSaver :=
  if is_setup self then self
  else {| conn := conn self; is_setup := true |}.

(** [with self.cursor(...) as cur: body] *)
Definition cursor {A : Type} (body : table -> result (A * table)) (self : SqliteSaver)
  : result A * SqliteSaver :=
  let self := setup self in
  match body (conn self) with
  | Ok (a, t) => (Ok a, {| conn := t; is_setup := is_setup self |})
  | Raise e => (Raise e, self)
  end.

Definition select_exact_sql : string :=
  "SELECT checkpoint, parent_ts, metadata FROM checkpoints WHERE thread_id = ? AND thread_ts = ?".

Definition select_latest_sql : string :=
  "SELECT thread_id, thread_ts, parent_ts, checkpoint, metadata FROM checkpoints WHERE thread_id = ? ORDER BY thread_ts DESC LIMIT 1".

Definition get_tuple_body (config : py_value) (t : table)
  : result (option CheckpointTuple * table) :=
  configurable <- py_getitem config "configurable" ;;
  thread_ts <- py_get configurable "thread_ts" ;;
  if py_truthy thread_ts then
    thread_id <- py_getitem configurable "thread_id" ;;
    thread_ts <- py_getitem configurable "thread_ts" ;;
    '(t, cur) <- sqlite_execute json_extract select_exact_sql
                   [PyStr (py_str thread_id); PyStr (py_str thread_ts)] t ;;
    match fetchone cur with
    | Some value =>
        v0 <- row_item value 0 ;;
        ck <- serde_loads_value v0 ;;
        v2 <- row_item value 2 ;;
        md <- (if negb (is_none v2) then serde_loads_value v2 else Ok (PyDict [])) ;;
        v1 <- row_item value 1 ;;
        parent <- (if py_truthy v1 then
                     thread_id <- py_getitem configurable "thread_id" ;;
                     Ok (configurable_of thread_id v1)
                   else Ok PyNone) ;;
        Ok (Some {| config := config; checkpoint := ck;
                    metadata := md; parent_config := parent |}, t)
    | None => Ok (None, t)
    end
  else
    thread_id <- py_getitem configurable "thread_id" ;;
    '(t, cur) <- sqlite_execute json_extract select_latest_sql
                   [PyStr (py_str thread_id)] t ;;
    match fetchone cur with
    | Some value =>
        v0 <- row_item value 0 ;;
        v1 <- row_item value 1 ;;
        v3 <- row_item value 3 ;;
        ck <- serde_loads_value v3 ;;
        v4 <- row_item value 4 ;;
        md <- (if negb (is_none v4) then serde_loads_value v4 else Ok (PyDict [])) ;;
        v2 <- row_item value 2 ;;
        let parent := if py_truthy v2 then configurable_of v0 v2 else PyNone in
        Ok (Some {| config := configurable_of v0 v1; checkpoint := ck;
                    metadata := md; parent_config := parent |}, t)
    | None => Ok (None, t)
    end.

Definition get_tuple (config : py_value) (self : SqliteSaver)
  : result (option CheckpointTuple) * SqliteSaver :=
  cursor (get_tuple_body config) self.

(** The body of the [for ... in cur] loops of [list] and [search]: one
    tuple for each row of the cursor. *)
Definition yield_tuple (value : list py_value) : result CheckpointTuple :=
  match value with
  | [thread_id; thread_ts; parent_ts; value; metadata] =>
      ck <- serde_loads_value value ;;
      md <- (if negb (is_none metadata) then serde_loads_value metadata
             else Ok (PyDict [])) ;;
      Ok {| config := configurable_of thread_id thread_ts;
            checkpoint := ck;
            metadata := md;
            parent_config :=
              if py_truthy parent_ts then configurable_of thread_id parent_ts
              else PyNone |}
  | _ => Raise ValueError
  end.

Fixpoint yield_rows (cur : list (list py_value)) : generated CheckpointTuple :=
  match cur with
  | [] => {| yielded := []; raised := None |}
  | value :: rest =>
      match yield_tuple value with
      | Ok tup =>
          let g := yield_rows rest in
          {| yielded := tup :: yielded g; raised := raised g |}
      | Raise e => {| yielded := []; raised := Some e |}
      end
  end.

(** A generator whose rows come from one [execute] under a cursor; the
    parameters are computed once the cursor is open. *)
Definition generate (sql : string) (params : result (list py_value)) (self : SqliteSaver)
  : generated CheckpointTuple * SqliteSaver :=
  let self := setup self in
  match (params <- params ;; sqlite_execute json_extract sql params (conn self)) with
  | Ok (t, cur) => (yield_rows cur, {| conn := t; is_setup := is_setup self |})
  | Raise e => ({| yielded := []; raised := Some e |}, self)
  end.

Definition list_sql : string :=
  "SELECT thread_id, thread_ts, parent_ts, checkpoint, metadata FROM checkpoints WHERE thread_id = ? ORDER BY thread_ts DESC".

Definition list_before_sql : string :=
  "SELECT thread_id, thread_ts, parent_ts, checkpoint, metadata FROM checkpoints WHERE thread_id = ? AND thread_ts < ? ORDER BY thread_ts DESC".

(** [if limit:] on an [Optional[int]] *)
Definition limit_given (limit : option Z) : bool :=
  match limit with
  | Some n => py_truthy (PyInt n)
  | None => false
  end.

Definition limit_text (limit : option Z) : string :=
  match limit with
  | Some n => int_repr n
  | None => "None"
  end.

Definition list_ (config : py_value) (before : option py_value) (limit : option Z)
           (self : SqliteSaver) : generated CheckpointTuple * SqliteSaver :=
  let query :=
    match before with
    | None => list_sql
    | Some _ => list_before_sql
    end in
  let query := if limit_given limit then query ++ " LIMIT " ++ limit_text limit else query in
  generate query
    match before with
    | None =>
        configurable <- py_getitem config "configurable" ;;
        thread_id <- py_getitem configurable "thread_id" ;;
        Ok [PyStr (py_str thread_id)]
    | Some before =>
        configurable <- py_getitem config "configurable" ;;
        thread_id <- py_getitem configurable "thread_id" ;;
        before_configurable <- py_getitem before "configurable" ;;
        before_ts <- py_getitem before_configurable "thread_ts" ;;
        Ok [PyStr (py_str thread_id); before_ts]
    end
    self.

Definition search (metadata_filter : list (string * py_value))
           (before : option py_value) (limit : option Z) (self : SqliteSaver)
  : generated CheckpointTuple * SqliteSaver :=
  let SELECT :=
    "SELECT thread_id, thread_ts, parent_ts, checkpoint, metadata FROM checkpoints " in
  let ORDER_BY := "ORDER BY thread_ts DESC " in
  let LIMIT := if limit_given limit then "LIMIT " ++ limit_text limit else "" in
  match search_where py_str float_repr metadata_filter before with
  | Ok (WHERE, params) =>
      generate (SELECT ++ WHERE ++ ORDER_BY ++ LIMIT) (Ok params) self
  | Raise e => ({| yielded := []; raised := Some e |}, self)
  end.

Definition put (config checkpoint metadata : py_value) (self : SqliteSaver)
  : result py_value * SqliteSaver :=
  let '(done, self) :=
    cursor
      (fun t =>
         configurable <- py_getitem config "configurable" ;;
         thread_id <- py_getitem configurable "thread_id" ;;
         id <- py_getitem checkpoint "id" ;;
         parent_ts <- py_get configurable "thread_ts" ;;
         ck <- serde_dumps checkpoint ;;
         md <- serde_dumps metadata ;;
         '(t, _) <- sqlite_execute json_extract insert_sql
                      [PyStr (py_str thread_id); id; parent_ts; PyBytes ck; PyBytes md] t ;;
         Ok (tt, t))
      self in
  (_ <- done ;;
   configurable <- py_getitem config "configurable" ;;
   thread_id <- py_getitem configurable "thread_id" ;;
   id <- py_getitem checkpoint "id" ;;
   Ok (configurable_of thread_id id),
   self).

End Saver.

(** ** Instances of the section variables, for closed examples

    [str] as it is on the scalars ([str] of another object is not needed
    by the examples, and is its class name here), a [float.__repr__] that
    knows one float, a serializer that keeps the [id] or [source] entry of
    a dictionary, and a [json_extract] for it. *)

Definition scalar_str (v : py_value) : string :=
  match v with
  | PyNone => "None"
  | PyBool true => "True"
  | PyBool false => "False"
  | PyInt n => int_repr n
  | PyStr s => s
  | PyObject cls _ _ => cls
  | _ => "object"
  end.

Definition half_repr (f : spec_float) : string := "0.5".

Definition entry_dumps (v : py_value) : result bytes :=
  match v with
  | PyDict ((_, PyStr s) :: _) => Ok (list_byte_of_string s)
  | PyDict [] => Ok []
  | _ => Raise TypeError
  end.

Definition entry_loads (b : bytes) : result py_value :=
  Ok (PyStr (string_of_list_byte b)).

Definition entry_extract (b : bytes) (path : string) : result sql_value :=
  if (path =? "$.source")%string then Ok (SqlText (string_of_list_byte b))
  else Ok SqlNull.

Definition locator_at (thread_id thread_ts : string) : py_value :=
  configurable_of (PyStr thread_id) (PyStr thread_ts).

(** ** Vocabulary of the statements below *)

(** The types the builder has a branch for. *)
Definition has_branch (v : py_value) : bool :=
  is_none v || isinstance_str v || isinstance_int v || isinstance_float v
  || isinstance_bool v || isinstance_dict v || isinstance_list v.

(** The operator is [IS ?] on [None] and [= ?] on anything else. *)
Definition operator_of (v : py_value) : string :=
  if is_none v then "IS ?" else "= ?".

(** The predicate of one key, as it stands in the conjunction. *)
Definition clause_text (item : string * py_value) : string :=
  "json_extract(CAST(metadata AS TEXT), '$." ++ fst item ++ "') "
    ++ operator_of (snd item) ++ " ".

Fixpoint clauses_with_and (items : list (string * py_value)) : string :=
  match items with
  | [] => ""
  | item :: rest => clause_text item ++ "AND " ++ clauses_with_and rest
  end.

Section Vocabulary.

Variable py_str : py_value -> string.
Variable float_repr : spec_float -> string.

(** The parameter of each item of a filter, in the order of the items. *)
Fixpoint where_params (items : list (string * py_value)) : result (list py_value) :=
  match items with
  | [] => Ok []
  | (_, v) :: rest =>
      '(_, p) <- _where_value py_str float_repr v ;;
      ps <- where_params rest ;;
      Ok (p :: ps)
  end.

End Vocabulary.

(** Where a scan of JSON text stands: between tokens, inside a string
    literal, or behind a backslash inside one. *)
Inductive json_position : Type := Outside | InString | AfterBackslash.

Definition json_space (c : ascii) : bool :=
  let n := N_of_ascii c in
  ((n =? 32) || (n =? 9) || (n =? 10) || (n =? 13))%N.

(** The scan fails on white space outside a string literal. *)
Fixpoint json_scan (st : json_position) (s : string) : option json_position :=
  match s with
  | EmptyString => Some st
  | String c rest =>
      match st with
      | Outside =>
          if json_space c then None
          else if Ascii.eqb c dquote then json_scan InString rest
          else json_scan Outside rest
      | InString =>
          if Ascii.eqb c backslash then json_scan AfterBackslash rest
          else if Ascii.eqb c dquote then json_scan Outside rest
          else json_scan InString rest
      | AfterBackslash => json_scan InString rest
      end
  end.

(** Text with no white space but inside its string literals, every
    literal closed. *)
Definition json_compact (s : string) : Prop :=
  json_scan Outside s = Some Outside.

(** What [float.__repr__] writes: no white space and no quote. *)
Fixpoint plain_text (s : string) : bool :=
  match s with
  | EmptyString => true
  | String c rest =>
      negb (json_space c) && negb (Ascii.eqb c dquote) && plain_text rest
  end.

(** What a locator holds: [config["configurable"]["thread_id"]] and
    [config["configurable"].get("thread_ts")]. *)
Definition locator_thread_id (config : py_value) : result py_value :=
  configurable <- py_getitem config "configurable" ;;
  py_getitem configurable "thread_id".

Definition locator_thread_ts (config : py_value) : result py_value :=
  configurable <- py_getitem config "configurable" ;;
  py_get configurable "thread_ts".

(** The primary key of a row, and a table that has no key twice. *)
Definition key_of (r : row) : string * string :=
  (col_thread_id r, col_thread_ts r).

Definition pk_unique (t : table) : Prop := NoDup (map key_of t).

Definition in_thread (thread_id : string) (r : row) : bool :=
  (col_thread_id r =? thread_id)%string.

Definition thread_rows (thread_id : string) (t : table) : list row :=
  filter (in_thread thread_id) t.

Definition has_key (thread_id thread_ts : string) (r : row) : bool :=
  ((col_thread_id r =? thread_id) && (col_thread_ts r =? thread_ts))%string.

Definition before_ts (bound : string) (r : row) : bool :=
  String.ltb (col_thread_ts r) bound.

(** Descending order of [thread_ts] between rows, weak and strict. *)
Definition ts_ge (a b : row) : Prop :=
  String.ltb (col_thread_ts a) (col_thread_ts b) = false.

Definition ts_gt (a b : row) : Prop :=
  String.ltb (col_thread_ts b) (col_thread_ts a) = true.

Definition all_columns : list column :=
  [ColThreadId; ColThreadTs; ColParentTs; ColCheckpoint; ColMetadata].

(** A row as the cursor hands it over, all five columns. *)
Definition cursor_row (r : row) : list py_value :=
  map column_value (map (column_of r) all_columns).

(** The thread and checkpoint a tuple is the tuple of, read from its
    [config]. *)
Definition tuple_key (tup : CheckpointTuple) : option (string * string) :=
  match config tup with
  | PyDict [(_, PyDict [(_, PyStr thread_id); (_, PyStr thread_ts)])] =>
      Some (thread_id, thread_ts)
  | _ => None
  end.

(** [a] stands before [b] in descending order of checkpoint: the id of
    [b] is strictly less. *)
Definition newer_than (a b : CheckpointTuple) : Prop :=
  exists ta ia tb ib,
    tuple_key a = Some (ta, ia) /\ tuple_key b = Some (tb, ib)
    /\ String.ltb ib ia = true.


(** The limit that reaches the statement: [None], zero and the negative
    ones are no limit. *)
Definition effective_limit (limit : option Z) : option Z :=
  match limit with
  | Some n => if 0 <? n then Some n else None
  | None => None
  end.

Section StoreVocabulary.

Variable serde_loads : bytes -> result py_value.

(** The tuple [list] and [search] build from a row, and [get_tuple]
    from the latest row. *)
Definition tuple_of_row (r : row) : result CheckpointTuple :=
  ck <- serde_loads (col_checkpoint r) ;;
  md <- match col_metadata r with
        | Some b => serde_loads b
        | None => Ok (PyDict [])
        end ;;
  Ok {| config := configurable_of (PyStr (col_thread_id r)) (PyStr (col_thread_ts r));
        checkpoint := ck;
        metadata := md;
        parent_config :=
          match col_parent_ts r with
          | Some p =>
              if (p =? "")%string then PyNone
              else configurable_of (PyStr (col_thread_id r)) (PyStr p)
          | None => PyNone
          end |}.

(** The tuple [get_tuple] builds from the row a locator names: the
    locator itself is its [config]. *)
Definition tuple_at (config thread_id : py_value) (r : row) : result CheckpointTuple :=
  ck <- serde_loads (col_checkpoint r) ;;
  md <- match col_metadata r with
        | Some b => serde_loads b
        | None => Ok (PyDict [])
        end ;;
  Ok {| config := config;
        checkpoint := ck;
        metadata := md;
        parent_config :=
          match col_parent_ts r with
          | Some p =>
              if (p =? "")%string then PyNone
              else configurable_of thread_id (PyStr p)
          | None => PyNone
          end |}.

(** A generator that yields the tuple of each row in turn. *)
Fixpoint yield_all (rows : list row) : generated CheckpointTuple :=
  match rows with
  | [] => {| yielded := []; raised := None |}
  | r :: rest =>
      match tuple_of_row r with
      | Ok tup =>
          let g := yield_all rest in
          {| yielded := tup :: yielded g; raised := raised g |}
      | Raise e => {| yielded := []; raised := Some e |}
      end
  end.

End StoreVocabulary.

(** [before["configurable"]["thread_ts"]] *)
Definition bound_thread_ts (before : py_value) : result py_value :=
  configurable <- py_getitem before "configurable" ;;
  py_getitem configurable "thread_ts".

(** The rows [list] selects for a thread: below the bound, if there is
    one, in descending order, as many as the limit lets through. *)
Definition in_range (thread_id : string) (bound : option string) (r : row) : bool :=
  in_thread thread_id r
  && match bound with Some x => before_ts x r | None => true end.

Definition list_rows (thread_id : string) (bound : option string) (limit : option Z)
           (t : table) : list row :=
  apply_limit (effective_limit limit) (sort_desc (filter (in_range thread_id bound) t)).


(** A locator that carries a thread and nothing else. *)
Definition thread_locator (thread_id : py_value) : py_value :=
  PyDict [("configurable", PyDict [("thread_id", thread_id)])].

Section PutVocabulary.

Variable py_str : py_value -> string.
Variable json_extract : bytes -> string -> result sql_value.
Variable serde_dumps : py_value -> result bytes.

(** The row of a [put] whose locator carries a thread and, for the
    parent, nothing, [None] or a string, whose checkpoint has a string
    [id], and whose payloads the serializer takes. *)
Definition written_row (call : py_value * py_value * py_value) : option row :=
  let '(config, checkpoint, metadata) := call in
  match locator_thread_id config, locator_thread_ts config,
        py_getitem checkpoint "id", serde_dumps checkpoint, serde_dumps metadata with
  | Ok tid, Ok p, Ok (PyStr cid), Ok ck, Ok md =>
      match p with
      | PyNone =>
          Some {| col_thread_id := py_str tid; col_thread_ts := cid;
                  col_parent_ts := None;
                  col_checkpoint := ck; col_metadata := Some md |}
      | PyStr a =>
          Some {| col_thread_id := py_str tid; col_thread_ts := cid;
                  col_parent_ts := Some a;
                  col_checkpoint := ck; col_metadata := Some md |}
      | _ => None
      end
  | _, _, _, _, _ => None
  end.

(** A sequence of [put] calls, each on the saver the one before
    leaves. *)
Fixpoint put_all (calls : list (py_value * py_value * py_value)) (self : SqliteSaver)
  : SqliteSaver :=
  match calls with
  | [] => self
  | (config, checkpoint, metadata) :: rest =>
      put_all rest (snd (put py_str json_extract serde_dumps config checkpoint metadata self))
  end.

End PutVocabulary.

(** A store for the closed examples: thread 1 with the checkpoints [a]
    and [b], the second the child of the first, and thread 2 with one
    checkpoint. *)
Definition sample_row_a : row :=
  {| col_thread_id := "1"; col_thread_ts := "a"; col_parent_ts := None;
     col_checkpoint := list_byte_of_string "a";
     col_metadata := Some (list_byte_of_string "input") |}.

Definition sample_row_ab : row :=
  {| col_thread_id := "2"; col_thread_ts := "ab"; col_parent_ts := None;
     col_checkpoint := list_byte_of_string "ab";
     col_metadata := Some (list_byte_of_string "input") |}.

Definition sample_row_b : row :=
  {| col_thread_id := "1"; col_thread_ts := "b"; col_parent_ts := Some "a";
     col_checkpoint := list_byte_of_string "b";
     col_metadata := Some (list_byte_of_string "loop") |}.

Definition sample_table : table := [sample_row_a; sample_row_ab; sample_row_b].

Definition sample_saver : SqliteSaver :=
  {| conn := sample_table; is_setup := true |}.

(** Ascending order of [thread_ts] between rows, strict. *)
Definition ts_lt (a b : row) : Prop :=
  String.ltb (col_thread_ts a) (col_thread_ts b) = true.

(** The table after the rows have been written one after the other. *)
Definition write_all (rows : list row) (t : table) : table :=
  fold_left (fun t r => insert_or_replace r t) rows t.

(** The parent a locator names: none when it carries no checkpoint id (or
    [None]), the id when it carries a string. *)
Definition parent_of (p : py_value) : option (option string) :=
  match p with
  | PyNone => Some None
  | PyStr a => Some (Some a)
  | _ => None
  end.

(** A key that can stand inside the quotes of the path literal. *)
Fixpoint quote_free (s : string) : bool :=
  match s with
  | EmptyString => true
  | String c rest => negb (Ascii.eqb c "'") && quote_free rest
  end.

(** The condition the statement holds for an item of the filter. *)
Definition condition_of (item : string * py_value) : condition :=
  if is_none (snd item) then CondJsonIs ("$." ++ fst item)
  else CondJsonEq ("$." ++ fst item).

(** A condition as it is written, and as it is read: the text ends in a
    space, and starts with none. *)
Definition reads_as (text : string) (c : condition) : Prop :=
  (forall rest, parse_condition (text ++ rest) = Ok (c, " " ++ rest))
  /\ (forall rest, skip_spaces (text ++ rest) = text ++ rest).

(** The texts of the conditions of [search], and the conditions. *)
Definition where_texts (items : list (string * py_value)) (bounded : bool) : list string :=
  (map clause_text items ++ if bounded then ["thread_ts < ? "] else [])%list.

Definition where_conditions (items : list (string * py_value)) (bounded : bool)
  : list condition :=
  (map condition_of items ++ if bounded then [CondLt KeyThreadTs] else [])%list.

(** The head of the statement of [search]. *)
Definition search_select : string :=
  "SELECT thread_id, thread_ts, parent_ts, checkpoint, metadata FROM checkpoints ".

Section SearchVocabulary.

Variable json_extract : bytes -> string -> result sql_value.

(** The predicate of one item on a row: the field of the metadata
    document under the key, compared with the parameter of the item by
    the operator of the item. *)
Definition item_matches (r : row) (item : string * py_value) (p : sql_value)
  : result bool :=
  v <- extract_metadata json_extract r ("$." ++ fst item) ;;
  Ok (if is_none (snd item) then sql_is v p else sql_equal v p).

(** A row matches a filter when the predicate of every item holds. *)
Fixpoint matches_all (r : row) (items : list (string * py_value))
         (ps : list sql_value) : bool :=
  match items, ps with
  | [], [] => true
  | item :: items', p :: ps' =>
      match item_matches r item p with
      | Ok true => matches_all r items' ps'
      | _ => false
      end
  | _, _ => false
  end.

(** The rows [search] selects. *)
Definition search_rows (items : list (string * py_value)) (ps : list sql_value)
           (bound : option string) (limit : option Z) (t : table) : list row :=
  apply_limit (effective_limit limit)
    (sort_desc
       (filter (fun r => matches_all r items ps
                         && match bound with
                            | Some x => before_ts x r
                            | None => true
                            end) t)).

End SearchVocabulary.

(** A store that has seen two writes to thread 1: a checkpoint with the
    empty string as id, then the checkpoint [a]. *)
Definition empty_id_put : result py_value * SqliteSaver :=
  put scalar_str entry_extract entry_dumps (thread_locator (PyStr "1"))
      (PyDict [("id", PyStr "")]) (PyDict []) {| conn := []; is_setup := false |}.

Definition empty_id_saver : SqliteSaver :=
  snd (put scalar_str entry_extract entry_dumps (thread_locator (PyStr "1"))
           (PyDict [("id", PyStr "a")]) (PyDict []) (snd empty_id_put)).

(** Induction on a Python value, through the lists of its items. *)
Section PyValueInduction.

Variable P : py_value -> Prop.
Hypothesis P_none : P PyNone.
Hypothesis P_bool : forall b, P (PyBool b).
Hypothesis P_int : forall n, P (PyInt n).
Hypothesis P_float : forall f, P (PyFloat f).
Hypothesis P_str : forall s, P (PyStr s).
Hypothesis P_bytes : forall b, P (PyBytes b).
Hypothesis P_list : forall items, Forall P items -> P (PyList items).
Hypothesis P_tuple : forall items, Forall P items -> P (PyTuple items).
Hypothesis P_dict :
  forall items, Forall (fun item => P (snd item)) items -> P (PyDict items).
Hypothesis P_object : forall cls ident truth, P (PyObject cls ident truth).

Fixpoint py_value_nested_ind (v : py_value) : P v :=
  match v with
  | PyNone => P_none
  | PyBool b => P_bool b
  | PyInt n => P_int n
  | PyFloat f => P_float f
  | PyStr s => P_str s
  | PyBytes b => P_bytes b
  | PyList items =>
      P_list items
        ((fix all (l : list py_value) : Forall P l :=
            match l with
            | [] => Forall_nil P
            | x :: l' => Forall_cons x (py_value_nested_ind x) (all l')
            end) items)
  | PyTuple items =>
      P_tuple items
        ((fix all (l : list py_value) : Forall P l :=
            match l with
            | [] => Forall_nil P
            | x :: l' => Forall_cons x (py_value_nested_ind x) (all l')
            end) items)
  | PyDict items =>
      P_dict items
        ((fix all (l : list (string * py_value))
           : Forall (fun item => P (snd item)) l :=
            match l with
            | [] => Forall_nil _
            | x :: l' => Forall_cons x (py_value_nested_ind (snd x)) (all l')
            end) items)
  | PyObject cls ident truth => P_object cls ident truth
  end.

End PyValueInduction.

(** Inversion of a run of the error monad that ends in [Ok]. *)
Ltac invert_ok :=
  repeat match goal with
    | H : Ok _ = Ok _ |- _ => injection H as H; subst
    | H : (_, _) = (_, _) |- _ => injection H as H; subst
    | H : Raise _ = Ok _ |- _ => discriminate H
    | H : rbind ?m _ = Ok _ |- _ =>
        let E := fresh "E" in destruct m eqn:E; simpl in H; [| discriminate H]
    end.

(** The row an INSERT builds from its five bound values, whatever the
    table holds. *)
Definition insert_row (ps : list sql_value) : result row :=
  match ps with
  | [p_thread_id; p_thread_ts; p_parent_ts; p_checkpoint; p_metadata] =>
      tid <- store_text p_thread_id ;;
      tid <- not_null tid ;;
      ts <- store_text p_thread_ts ;;
      ts <- not_null ts ;;
      parent <- store_text p_parent_ts ;;
      ck <- store_blob p_checkpoint ;;
      ck <- match ck with Some b => Ok b | None => Raise Unmodelled end ;;
      md <- store_blob p_metadata ;;
      Ok {| col_thread_id := tid; col_thread_ts := ts; col_parent_ts := parent;
            col_checkpoint := ck; col_metadata := md |}
  | _ => Raise ProgrammingError
  end.

Section PutRow.

Variable py_str : py_value -> string.
Variable serde_dumps : py_value -> result bytes.

(** The row a [put] writes, or the exception that stops it: neither
    depends on the store. *)
Definition put_row (config checkpoint metadata : py_value) : result row :=
  configurable <- py_getitem config "configurable" ;;
  thread_id <- py_getitem configurable "thread_id" ;;
  id <- py_getitem checkpoint "id" ;;
  parent_ts <- py_get configurable "thread_ts" ;;
  ck <- serde_dumps checkpoint ;;
  md <- serde_dumps metadata ;;
  ps <- bind_params [PyStr (py_str thread_id); id; parent_ts; PyBytes ck; PyBytes md] ;;
  insert_row ps.

End PutRow.

(** Tuples by what their [config] names: the thread, and a checkpoint
    id below a bound. *)
Definition tuple_in_thread (thread_id : string) (tup : CheckpointTuple) : bool :=
  match tuple_key tup with
  | Some (a, _) => (a =? thread_id)%string
  | None => false
  end.

Definition tuple_before (bound : string) (tup : CheckpointTuple) : bool :=
  match tuple_key tup with
  | Some (_, i) => String.ltb i bound
  | None => false
  end.

(** A [before] argument that is absent or carries a string. *)
Definition before_bound (before : option py_value) : option (option string) :=
  match before with
  | None => Some None
  | Some b =>
      match bound_thread_ts b with
      | Ok (PyStr x) => Some (Some x)
      | _ => None
      end
  end.


(** The question marks of a statement: the placeholders the driver
    binds, one parameter each. *)
Fixpoint count_placeholders (s : string) : nat :=
  match s with
  | EmptyString => 0
  | String c rest => (if Ascii.eqb c "?" then 1 else 0) + count_placeholders rest
  end.


(** ** tests/test_prebuilt.py: the fake chat model

    [FakeToolCallingModel] answers one assistant message whose content
    is the contents of the messages it was given, joined by a dash. *)

Module FakeToolCallingModel.

Inductive message_class : Type :=
| HumanMessage
| AIMessage
| SystemMessage
| ToolMessage.

Record BaseMessage : Type := {
  class_of : message_class;
  content : py_value;
  message_id : option string
}.

Record ChatGeneration : Type := { message : BaseMessage }.

Record ChatResult : Type := { generations : list ChatGeneration }.

(** [sep.join(items)]: a [TypeError] on an item that is not a [str]. *)
Fixpoint str_join (sep : string) (items : list py_value) : result string :=
  match items with
  | [] => Ok ""
  | PyStr s :: rest =>
      match rest with
      | [] => Ok s
      | _ :: _ => tail <- str_join sep rest ;; Ok (s ++ sep ++ tail)
      end
  | _ :: _ => Raise TypeError
  end.

Definition _generate (messages : list BaseMessage) : result ChatResult :=
  messages_string <- str_join "-" (map content messages) ;;
  let message := {| class_of := AIMessage; content := PyStr messages_string;
                    message_id := Some "0" |} in
  Ok {| generations := [{| message := message |}] |}.

Definition _llm_type : string := "fake-tool-call-model".

(** The model has no state of its own. *)
Inductive model : Type := Model.

Definition bind_tools {T : Type} (self : model) (tools : list T) : result model :=
  if (0 <? List.length tools)%nat then Raise ValueError else Ok self.

(** The reply with a given content. *)
Definition reply (s : string) : ChatResult :=
  {| generations := [{| message := {| class_of := AIMessage; content := PyStr s;
                                      message_id := Some "0" |} |}] |}.

End FakeToolCallingModel.


(** The 0/1 integer that stands for a boolean; any other value stands
    for itself.  A filter with its booleans so encoded. *)
Definition int_encoding (v : py_value) : py_value :=
  match v with
  | PyBool b => PyInt (if b then 1 else 0)
  | _ => v
  end.

Definition encode_booleans (items : list (string * py_value)) : list (string * py_value) :=
  map (fun item => (fst item, int_encoding (snd item))) items.


(** A filter value the builder binds as it is: [None], a string, an
    integer (a boolean is one) or a float. *)
Definition plain_scalar (v : py_value) : bool :=
  is_none v || isinstance_str v || isinstance_int v || isinstance_float v.


(** * Properties *)

(** ** The builder's choice of operator and parameter *)

Section QueryBuilderFacts.

Variable py_str : py_value -> string.
Variable float_repr : spec_float -> string.

Let where_value := _where_value py_str float_repr.

Lemma where_value_none :
  where_value PyNone = Ok ("IS ?", PyNone).
Proof. reflexivity. Qed.

Lemma where_value_scalar (v : py_value) :
  isinstance_str v || isinstance_int v || isinstance_float v = true ->
  where_value v = Ok ("= ?", v).
Proof.
  intros H. unfold where_value, _where_value.
  destruct v; simpl in *; try discriminate; reflexivity.
Qed.

Lemma where_value_structured (v : py_value) :
  isinstance_dict v || isinstance_list v = true ->
  where_value v =
    (s <- json_encode float_repr "," ":" v ;; Ok ("= ?", PyStr s)).
Proof.
  intros H. unfold where_value, _where_value, json_dumps_compact.
  destruct v; simpl in *; try discriminate; reflexivity.
Qed.

Lemma where_value_operator (v : py_value) (op : string) (p : py_value) :
  where_value v = Ok (op, p) -> op = operator_of v.
Proof.
  unfold operator_of.
  destruct v; try (cbv; congruence);
    rewrite where_value_structured by reflexivity;
    match goal with |- context [json_encode ?r ?a ?b ?x] =>
      destruct (json_encode r a b x) end;
    simpl; congruence.
Qed.

End QueryBuilderFacts.

(** The [sqlite3] module binds a [bool] as it binds the integer 1 or 0,
    so the statement that runs compares with the same value either way. *)
Lemma bind_param_bool (b : bool) :
  bind_param (PyBool b) = bind_param (PyInt (if b then 1 else 0)).
Proof. destruct b; reflexivity. Qed.

(** C10.  A filter value that is none of null, string, integer, float,
    boolean, object (dict) or array (list) is not rejected: the builder
    answers the equality operator and binds [str(value)]. *)
Theorem where_value_fallback_str :
  forall (py_str : py_value -> string) (float_repr : spec_float -> string)
         (v : py_value),
    has_branch v = false ->
    _where_value py_str float_repr v = Ok ("= ?", PyStr (py_str v)).
Proof.
  intros py_str float_repr v H.
  destruct v; simpl in H; try discriminate; reflexivity.
Qed.

Lemma where_value_fallback_str_witness :
  has_branch (PyTuple [PyInt 1; PyInt 2]) = false
  /\ _where_value scalar_str half_repr (PyTuple [PyInt 1; PyInt 2])
     = Ok ("= ?", PyStr "object").
Proof.
  split; [reflexivity |].
  exact (where_value_fallback_str scalar_str half_repr (PyTuple [PyInt 1; PyInt 2]) eq_refl).
Defined.

(** ** The compatibility serializer *)

Lemma bytes_startswith_one (data : bytes) (b : byte) :
  bytes_startswith data [b] = true <-> exists rest, data = b :: rest.
Proof.
  destruct data as [| d rest]; simpl.
  - split; [discriminate | intros [r H]; discriminate].
  - destruct (Byte.eqb d b) eqn:E; simpl.
    + apply Byte.byte_dec_bl in E. subst. split; [now exists rest | reflexivity].
    + split; [discriminate |]. intros [r H]. injection H as -> _.
      rewrite (Byte.byte_dec_lb eq_refl) in E. discriminate.
Qed.

Lemma bytes_endswith_one (data : bytes) (b : byte) :
  bytes_endswith data [b] = true <-> exists front, data = (front ++ [b])%list.
Proof.
  unfold bytes_endswith. simpl rev. rewrite bytes_startswith_one. split.
  - intros [rest H]. exists (rev rest).
    rewrite <- (rev_involutive data), H. reflexivity.
  - intros [front ->]. exists (rev front). now rewrite rev_app_distr.
Qed.

(** C8.  A byte string that starts with 0x80 and ends with 0x2E is
    decoded by [pickle.loads], whose result is the result of [loads] (so a
    payload that unpickles raises nothing); any other byte string is
    decoded by the parent class, and [pickle.loads] has no part in it. *)
Theorem compat_loads_by_signature :
  forall (pickle_loads super_loads : bytes -> result py_value) (data : bytes),
    ((exists rest, data = x80 :: rest) ->
     (exists front, data = (front ++ [x2e])%list) ->
     loads pickle_loads super_loads data = pickle_loads data
     /\ forall v, pickle_loads data = Ok v ->
                  loads pickle_loads super_loads data = Ok v)
    /\ (~ ((exists rest, data = x80 :: rest)
           /\ (exists front, data = (front ++ [x2e])%list)) ->
        loads pickle_loads super_loads data = super_loads data
        /\ forall other_pickle : bytes -> result py_value,
             loads other_pickle super_loads data
             = loads pickle_loads super_loads data).
Proof.
  intros pickle_loads super_loads data. split.
  - intros Hs He.
    apply bytes_startswith_one in Hs. apply bytes_endswith_one in He.
    unfold loads. rewrite Hs, He. simpl. split; [reflexivity | auto].
  - intros Hn.
    assert (Hf : bytes_startswith data [x80] && bytes_endswith data [x2e] = false).
    { destruct (bytes_startswith data [x80]) eqn:Hs;
        destruct (bytes_endswith data [x2e]) eqn:He; try reflexivity.
      exfalso. apply Hn. split.
      - now apply bytes_startswith_one.
      - now apply bytes_endswith_one. }
    unfold loads. rewrite Hf. split; reflexivity.
Qed.

Lemma compat_loads_by_signature_witness :
  loads (fun _ => Ok (PyStr "pickled")) (fun _ => Raise DecodeError) [x80; x04; x4e; x2e]
  = Ok (PyStr "pickled")
  /\ loads (fun _ => Ok (PyStr "pickled")) (fun _ => Ok (PyDict [])) [x7b; x7d]
     = Ok (PyDict []).
Proof.
  split.
  - destruct (compat_loads_by_signature
                (fun _ => Ok (PyStr "pickled")) (fun _ => Raise DecodeError)
                [x80; x04; x4e; x2e]) as [legacy _].
    destruct legacy as [_ decoded].
    + exists [x04; x4e; x2e]. reflexivity.
    + exists [x80; x04; x4e]. reflexivity.
    + apply decoded. reflexivity.
  - destruct (compat_loads_by_signature
                (fun _ => Ok (PyStr "pickled")) (fun _ => Ok (PyDict []))
                [x7b; x7d]) as [_ primary].
    destruct primary as [delegated _].
    + intros [[rest H] _]. discriminate H.
    + exact delegated.
Defined.

(** ** Strings *)

Lemma string_app_assoc (a b c : string) : (a ++ b) ++ c = a ++ (b ++ c).
Proof. induction a as [| x a IH]; simpl; [reflexivity | now rewrite IH]. Qed.

Lemma string_app_nil_r (a : string) : a ++ "" = a.
Proof. induction a as [| x a IH]; simpl; [reflexivity | now rewrite IH]. Qed.

Lemma string_app_length (a b : string) :
  String.length (a ++ b) = (String.length a + String.length b)%nat.
Proof. induction a as [| x a IH]; simpl; [reflexivity | now rewrite IH]. Qed.

Lemma substring_prefix_app (a b : string) :
  substring 0 (String.length a) (a ++ b) = a.
Proof.
  induction a as [| x a IH]; simpl.
  - destruct b; reflexivity.
  - now rewrite IH.
Qed.

Lemma drop_last_app (a b : string) :
  drop_last (String.length b) (a ++ b) = a.
Proof.
  unfold drop_last. rewrite string_app_length.
  replace (String.length a + String.length b - String.length b)%nat
    with (String.length a) by lia.
  apply substring_prefix_app.
Qed.

(** ** The predicate of a filter *)

Section PredicateFacts.

Variable py_str : py_value -> string.
Variable float_repr : spec_float -> string.

Lemma metadata_clause_text (k : string) (v p : py_value) (op : string) :
  _where_value py_str float_repr v = Ok (op, p) ->
  metadata_clause k op = clause_text (k, v) ++ "AND ".
Proof.
  intros H. apply where_value_operator in H. subst op.
  unfold metadata_clause, clause_text. cbn [fst snd].
  rewrite !string_app_assoc. reflexivity.
Qed.

Lemma metadata_loop_spec (items : list (string * py_value)) :
  forall predicate params,
    metadata_loop py_str float_repr items predicate params =
      (ps <- where_params py_str float_repr items ;;
       Ok (predicate ++ clauses_with_and items, (params ++ ps)%list)).
Proof.
  induction items as [| [k v] rest IH]; intros predicate params;
    cbn [metadata_loop where_params clauses_with_and rbind].
  - now rewrite string_app_nil_r, app_nil_r.
  - destruct (_where_value py_str float_repr v) as [[op p] |] eqn:E;
      cbn [rbind]; [| reflexivity].
    rewrite IH. destruct (where_params py_str float_repr rest); cbn [rbind]; [| reflexivity].
    rewrite (metadata_clause_text k v p op E).
    rewrite !string_app_assoc, <- app_assoc. reflexivity.
Qed.

Lemma clauses_with_and_concat (items : list (string * py_value)) :
  items <> [] ->
  clauses_with_and items = String.concat "AND " (map clause_text items) ++ "AND ".
Proof.
  induction items as [| item rest IH]; intros Hne; [congruence |].
  destruct rest as [| item' rest'].
  - reflexivity.
  - change (clauses_with_and (item :: item' :: rest'))
      with (clause_text item ++ "AND " ++ clauses_with_and (item' :: rest')).
    rewrite IH by discriminate.
    change (String.concat "AND " (map clause_text (item :: item' :: rest')))
      with (clause_text item ++ "AND "
              ++ String.concat "AND " (map clause_text (item' :: rest'))).
    now rewrite !string_app_assoc.
Qed.

Lemma metadata_predicate_spec (metadata_filter : list (string * py_value)) :
  _metadata_predicate py_str float_repr metadata_filter =
    (ps <- where_params py_str float_repr metadata_filter ;;
     Ok (String.concat "AND " (map clause_text metadata_filter), ps)).
Proof.
  unfold _metadata_predicate. rewrite metadata_loop_spec.
  destruct (where_params py_str float_repr metadata_filter) as [ps |]; simpl; [| reflexivity].
  destruct metadata_filter as [| item rest]; [reflexivity |].
  rewrite clauses_with_and_concat by discriminate.
  set (joined := String.concat "AND " (map clause_text (item :: rest))).
  assert (Hne : (joined ++ "AND " =? "")%string = false).
  { subst joined. simpl. destruct rest; reflexivity. }
  rewrite Hne. simpl negb. cbv iota.
  change 4%nat with (String.length "AND ").
  now rewrite drop_last_app.
Qed.

End PredicateFacts.

(** ** The compact encoding *)

Lemma json_scan_app (a b : string) :
  forall st,
    json_scan st (a ++ b) =
      match json_scan st a with
      | Some st' => json_scan st' b
      | None => None
      end.
Proof.
  induction a as [| c a IH]; intros st; simpl; [reflexivity |].
  destruct st; repeat match goal with |- context [if ?x then _ else _] =>
                        destruct x end; auto.
Qed.

Lemma json_compact_app (a b : string) :
  json_compact a -> json_compact b -> json_compact (a ++ b).
Proof.
  unfold json_compact. intros Ha Hb. now rewrite json_scan_app, Ha.
Qed.

Lemma json_scan_escape_char (c : ascii) :
  json_scan InString (escape_char c) = Some InString.
Proof.
  destruct c as [[] [] [] [] [] [] [] []]; vm_compute; reflexivity.
Qed.

Lemma json_scan_escape_string (s : string) :
  json_scan InString (escape_string s) = Some InString.
Proof.
  induction s as [| c s IH]; cbn [escape_string]; [reflexivity |].
  now rewrite json_scan_app, json_scan_escape_char.
Qed.

Lemma json_compact_basestring (s : string) :
  json_compact (encode_basestring_ascii s).
Proof.
  unfold json_compact, encode_basestring_ascii.
  change (json_scan Outside (String dquote (escape_string s ++ String dquote "")))
    with (json_scan InString (escape_string s ++ String dquote "")).
  rewrite json_scan_app, json_scan_escape_string. reflexivity.
Qed.

Lemma json_compact_plain (s : string) :
  plain_text s = true -> json_compact s.
Proof.
  unfold json_compact. induction s as [| c s IH]; simpl; [reflexivity |].
  intros H. apply andb_prop in H as [H Hs]. apply andb_prop in H as [Hsp Hq].
  apply negb_true_iff in Hsp, Hq. rewrite Hsp, Hq. auto.
Qed.

Lemma plain_text_uint (d : Decimal.uint) :
  plain_text (NilEmpty.string_of_uint d) = true.
Proof. induction d; simpl; auto. Qed.

Lemma json_compact_int_repr (n : Z) : json_compact (int_repr n).
Proof.
  apply json_compact_plain. unfold int_repr.
  destruct (Z.to_int n) as [d | d]; simpl.
  - destruct d; try reflexivity; apply (plain_text_uint (_ d)).
  - destruct d; try reflexivity; apply (plain_text_uint (_ d)).
Qed.

Section CompactEncoding.

Variable float_repr : spec_float -> string.
Hypothesis float_repr_plain : forall f, plain_text (float_repr f) = true.

Lemma json_compact_floatstr (f : spec_float) :
  json_compact (floatstr float_repr f).
Proof.
  destruct f as [s | [] | | s m e]; simpl; try reflexivity;
    apply json_compact_plain, float_repr_plain.
Qed.

Lemma json_compact_concat (parts : list string) :
  Forall json_compact parts -> json_compact (String.concat "," parts).
Proof.
  induction 1 as [| x l Hx Hl IH]; [reflexivity |].
  destruct l as [| y l']; [exact Hx |].
  change (String.concat "," (x :: y :: l'))
    with (x ++ "," ++ String.concat "," (y :: l')).
  apply json_compact_app; [exact Hx |].
  apply json_compact_app; [reflexivity | exact IH].
Qed.

Lemma json_compact_pair (k s : string) :
  json_compact s -> json_compact (encode_basestring_ascii k ++ ":" ++ s).
Proof.
  intros Hs. apply json_compact_app; [apply json_compact_basestring |].
  apply json_compact_app; [reflexivity | exact Hs].
Qed.

Lemma json_compact_bracket (l r : string) (parts : list string) :
  json_compact l -> json_compact r -> Forall json_compact parts ->
  json_compact (l ++ String.concat "," parts ++ r).
Proof.
  intros Hl Hr Hp. apply json_compact_app; [exact Hl |].
  apply json_compact_app; [now apply json_compact_concat | exact Hr].
Qed.

Lemma json_encode_compact (v : py_value) :
  forall s, json_encode float_repr "," ":" v = Ok s -> json_compact s.
Proof.
  induction v as [| b | n | f | t | b | items IH | items IH | items IH | cls ident truth]
    using py_value_nested_ind; intros s H; simpl in H.
  - invert_ok. reflexivity.
  - destruct b; invert_ok; reflexivity.
  - invert_ok. apply json_compact_int_repr.
  - invert_ok. apply json_compact_floatstr.
  - invert_ok. apply json_compact_basestring.
  - discriminate.
  - match type of H with rbind ?m _ = _ => destruct m as [parts |] eqn:E end;
      simpl in H; [| discriminate]. invert_ok.
    apply (json_compact_bracket "[" "]"); try reflexivity.
    clear - IH E. revert parts E.
    induction IH as [| x l Hx Hl IHl]; intros parts E; invert_ok; constructor; auto.
  - match type of H with rbind ?m _ = _ => destruct m as [parts |] eqn:E end;
      simpl in H; [| discriminate]. invert_ok.
    apply (json_compact_bracket "[" "]"); try reflexivity.
    clear - IH E. revert parts E.
    induction IH as [| x l Hx Hl IHl]; intros parts E; invert_ok; constructor; auto.
  - match type of H with rbind ?m _ = _ => destruct m as [parts |] eqn:E end;
      simpl in H; [| discriminate]. invert_ok.
    apply (json_compact_bracket "{" "}"); try reflexivity.
    clear - IH E. revert parts E.
    induction IH as [| [k x] l Hx Hl IHl]; intros parts E; invert_ok;
      constructor; auto.
    match goal with
    | |- json_compact (String _ ((escape_string ?k' ++ _) ++ String _ ?s')) =>
        apply (json_compact_pair k' s')
    end. auto.
  - discriminate.
Qed.

End CompactEncoding.

(** ** The order of checkpoint ids *)

Lemma ltb_lt (a b : string) : String.ltb a b = true <-> String_as_OT.lt a b.
Proof.
  unfold String.ltb. rewrite <- String_as_OT.cmp_lt. unfold String_as_OT.cmp.
  destruct (String.compare a b); split; congruence.
Qed.

Lemma ltb_irrefl (a : string) : String.ltb a a = false.
Proof.
  unfold String.ltb.
  change (String.compare a a) with (String_as_OT.cmp a a).
  now rewrite (proj2 (String_as_OT.cmp_eq a a) eq_refl).
Qed.

Lemma ltb_trans (a b c : string) :
  String.ltb a b = true -> String.ltb b c = true -> String.ltb a c = true.
Proof.
  rewrite !ltb_lt. apply String_as_OT.lt_trans.
Qed.

Lemma ltb_asym (a b : string) :
  String.ltb a b = true -> String.ltb b a = false.
Proof.
  unfold String.ltb. rewrite (String.compare_antisym a b).
  destruct (String.compare b a); simpl; congruence.
Qed.

Lemma ltb_total (a b : string) :
  String.ltb a b = false -> String.ltb b a = false -> a = b.
Proof.
  unfold String.ltb. intros H1 H2. apply String_as_OT.cmp_eq.
  unfold String_as_OT.cmp.
  rewrite (String.compare_antisym b a) in H2.
  destruct (String.compare a b); simpl in *; congruence.
Qed.

Lemma ltb_ge_trans (a b c : string) :
  String.ltb a b = false -> String.ltb b c = false -> String.ltb a c = false.
Proof.
  intros Hab Hbc. destruct (String.ltb a c) eqn:Hac; [| reflexivity].
  destruct (String.ltb b a) eqn:Hba.
  - now rewrite (ltb_trans b a c Hba Hac) in Hbc.
  - assert (a = b) by now apply ltb_total. subst. congruence.
Qed.

(** ** ORDER BY and LIMIT *)

Lemma insert_desc_perm (r : row) (l : list row) :
  Permutation (r :: l) (insert_desc r l).
Proof.
  induction l as [| x l IH]; simpl; [apply Permutation_refl |].
  destruct (String.ltb (col_thread_ts r) (col_thread_ts x)).
  - eapply perm_trans; [apply perm_swap |]. now apply perm_skip.
  - apply Permutation_refl.
Qed.

Lemma sort_desc_perm (l : list row) : Permutation l (sort_desc l).
Proof.
  induction l as [| r l IH]; simpl; [constructor |].
  eapply perm_trans; [apply perm_skip, IH | apply insert_desc_perm].
Qed.

Lemma sort_desc_in (l : list row) (r : row) : In r (sort_desc l) <-> In r l.
Proof.
  split; apply Permutation_in;
    [apply Permutation_sym |]; apply sort_desc_perm.
Qed.

Lemma insert_desc_sorted (r : row) (l : list row) :
  StronglySorted ts_ge l -> StronglySorted ts_ge (insert_desc r l).
Proof.
  induction 1 as [| x l Hl IH Hx]; simpl.
  - repeat constructor.
  - destruct (String.ltb (col_thread_ts r) (col_thread_ts x)) eqn:E.
    + constructor; [exact IH |].
      apply (Forall_forall (ts_ge x)). intros y Hy.
      apply (Permutation_in _ (Permutation_sym (insert_desc_perm r l))) in Hy.
      destruct Hy as [<- | Hy].
      * unfold ts_ge. now apply ltb_asym.
      * now apply (proj1 (Forall_forall _ _) Hx).
    + constructor; [now constructor |].
      constructor; [exact E |].
      apply (Forall_forall (ts_ge r)). intros y Hy.
      apply (ltb_ge_trans _ (col_thread_ts x)); [exact E |].
      now apply (proj1 (Forall_forall _ _) Hx).
Qed.

Lemma sort_desc_sorted (l : list row) : StronglySorted ts_ge (sort_desc l).
Proof.
  induction l as [| r l IH]; simpl; [constructor | now apply insert_desc_sorted].
Qed.

Lemma firstn_in {A : Type} (n : nat) (l : list A) (x : A) :
  In x (firstn n l) -> In x l.
Proof.
  intros H. rewrite <- (firstn_skipn n l). apply in_or_app. now left.
Qed.

Lemma firstn_strongly_sorted {A : Type} (R : A -> A -> Prop) (n : nat) (l : list A) :
  StronglySorted R l -> StronglySorted R (firstn n l).
Proof.
  intros H. revert n. induction H as [| x l Hl IH Hx]; intros n.
  - rewrite firstn_nil. constructor.
  - destruct n as [| n]; simpl; constructor; [apply IH |].
    apply Forall_forall. intros y Hy.
    apply (proj1 (Forall_forall _ _) Hx).
    now apply (firstn_in n l).
Qed.

Lemma apply_limit_in (lim : option Z) (l : list row) (r : row) :
  In r (apply_limit lim l) -> In r l.
Proof.
  destruct lim as [n |]; simpl; [| auto].
  destruct (n <? 0); [auto |]. apply firstn_in.
Qed.

Lemma apply_limit_sorted (R : row -> row -> Prop) (lim : option Z) (l : list row) :
  StronglySorted R l -> StronglySorted R (apply_limit lim l).
Proof.
  intros H. destruct lim as [n |]; simpl; [| exact H].
  destruct (n <? 0); [exact H | now apply firstn_strongly_sorted].
Qed.

Lemma apply_limit_length (n : Z) (l : list row) :
  0 <= n -> (List.length (apply_limit (Some n) l) <= Z.to_nat n)%nat.
Proof.
  intros Hn. simpl. destruct (n <? 0) eqn:E; [lia |]. apply firstn_le_length.
Qed.

(** ** The statements of the saver, read and run *)

Lemma parse_int_repr (n : Z) : parse_int (int_repr n) = Ok n.
Proof.
  unfold parse_int, int_repr. rewrite NilZero.isi.
  - now rewrite DecimalZ.of_to.
  - destruct n; simpl; try discriminate.
    intros H. injection H as H. now apply (DecimalPos.Unsigned.to_uint_nonnil p).
  - destruct n; simpl; try discriminate.
    intros H. injection H as H. now apply (DecimalPos.Unsigned.to_uint_nonnil p).
Qed.

Lemma parse_select_exact :
  parse_statement select_exact_sql =
    Ok (Select {| sel_columns := [ColCheckpoint; ColParentTs; ColMetadata];
                  sel_where := [CondEq KeyThreadId; CondEq KeyThreadTs];
                  sel_order_desc := false; sel_limit := None |}).
Proof. vm_compute. reflexivity. Qed.

Lemma parse_select_latest :
  parse_statement select_latest_sql =
    Ok (Select {| sel_columns := all_columns;
                  sel_where := [CondEq KeyThreadId];
                  sel_order_desc := true; sel_limit := Some 1 |}).
Proof. vm_compute. reflexivity. Qed.

Lemma parse_list :
  parse_statement list_sql =
    Ok (Select {| sel_columns := all_columns;
                  sel_where := [CondEq KeyThreadId];
                  sel_order_desc := true; sel_limit := None |}).
Proof. vm_compute. reflexivity. Qed.

Lemma parse_list_before :
  parse_statement list_before_sql =
    Ok (Select {| sel_columns := all_columns;
                  sel_where := [CondEq KeyThreadId; CondLt KeyThreadTs];
                  sel_order_desc := true; sel_limit := None |}).
Proof. vm_compute. reflexivity. Qed.

Lemma parse_list_limit (n : Z) :
  parse_statement (list_sql ++ " LIMIT " ++ int_repr n) =
    Ok (Select {| sel_columns := all_columns;
                  sel_where := [CondEq KeyThreadId];
                  sel_order_desc := true; sel_limit := Some n |}).
Proof.
  unfold parse_statement, parse_select, list_sql. cbn -[int_repr parse_int].
  rewrite parse_int_repr. reflexivity.
Qed.

Lemma parse_list_before_limit (n : Z) :
  parse_statement (list_before_sql ++ " LIMIT " ++ int_repr n) =
    Ok (Select {| sel_columns := all_columns;
                  sel_where := [CondEq KeyThreadId; CondLt KeyThreadTs];
                  sel_order_desc := true; sel_limit := Some n |}).
Proof.
  unfold parse_statement, parse_select, list_before_sql. cbn -[int_repr parse_int].
  rewrite parse_int_repr. reflexivity.
Qed.

Lemma parse_insert : parse_statement insert_sql = Ok InsertOrReplace.
Proof. vm_compute. reflexivity. Qed.

Section EngineFacts.

Variable json_extract : bytes -> string -> result sql_value.

Lemma select_rows_pure (cs : list condition) (ps : list sql_value)
      (f : row -> bool) (t : table) :
  (forall r, In r t -> eval_where json_extract cs ps r = Ok (f r)) ->
  select_rows json_extract cs ps t = Ok (filter f t).
Proof.
  induction t as [| r t IH]; intros H; simpl; [reflexivity |].
  rewrite (H r (or_introl eq_refl)). simpl.
  rewrite IH by (intros r' Hr'; apply H; now right). reflexivity.
Qed.

Lemma eval_where_key (a b : string) (r : row) :
  eval_where json_extract [CondEq KeyThreadId; CondEq KeyThreadTs]
    [SqlText a; SqlText b] r = Ok (has_key a b r).
Proof.
  unfold has_key. simpl.
  destruct (col_thread_id r =? a)%string; simpl; [| reflexivity].
  destruct (col_thread_ts r =? b)%string; reflexivity.
Qed.

Lemma eval_where_thread (a : string) (r : row) :
  eval_where json_extract [CondEq KeyThreadId] [SqlText a] r = Ok (in_thread a r).
Proof.
  unfold in_thread. simpl. destruct (col_thread_id r =? a)%string; reflexivity.
Qed.

Lemma eval_where_thread_before (a x : string) (r : row) :
  eval_where json_extract [CondEq KeyThreadId; CondLt KeyThreadTs]
    [SqlText a; SqlText x] r = Ok (in_thread a r && before_ts x r).
Proof.
  unfold in_thread, before_ts. simpl.
  destruct (col_thread_id r =? a)%string; simpl; [| reflexivity].
  destruct (String.ltb (col_thread_ts r) x); reflexivity.
Qed.

(** The rows of a SELECT over all five columns, as the cursor holds
    them. *)
Lemma map_cursor_row (rows : list row) :
  map (map column_value) (map (fun r => map (column_of r) all_columns) rows)
  = map cursor_row rows.
Proof. now rewrite map_map. Qed.

Lemma execute_select_exact (a b : string) (t : table) :
  sqlite_execute json_extract select_exact_sql [PyStr a; PyStr b] t =
    Ok (t, map (fun r => map column_value
                           (map (column_of r) [ColCheckpoint; ColParentTs; ColMetadata]))
               (filter (has_key a b) t)).
Proof.
  unfold sqlite_execute. rewrite parse_select_exact. simpl bind_params.
  cbn [rbind]. unfold run_select. cbn [sel_where sel_columns sel_order_desc sel_limit
                                       List.length Nat.eqb negb apply_limit
                                       check_limit limit_fits rbind].
  rewrite (select_rows_pure _ _ (has_key a b)) by (intros; apply eval_where_key).
  cbn [rbind]. now rewrite map_map.
Qed.

Lemma execute_select_latest (a : string) (t : table) :
  sqlite_execute json_extract select_latest_sql [PyStr a] t =
    Ok (t, map cursor_row (firstn 1 (sort_desc (thread_rows a t)))).
Proof.
  unfold sqlite_execute. rewrite parse_select_latest. simpl bind_params.
  cbn [rbind]. unfold run_select. cbn [sel_where sel_columns sel_order_desc sel_limit
                                       List.length Nat.eqb negb].
  change (check_limit (Some 1)) with (Ok (Some 1)). cbn [rbind].
  rewrite (select_rows_pure _ _ (in_thread a)) by (intros; apply eval_where_thread).
  cbn [rbind]. now rewrite map_cursor_row.
Qed.

(** The limit written into the statement, if one is, bounds the rows
    as [effective_limit] says. *)
Lemma statement_limit (limit : option Z) (l : list row) :
  apply_limit (if limit_given limit then limit else None) l
  = apply_limit (effective_limit limit) l.
Proof.
  destruct limit as [n |]; simpl; [| reflexivity].
  destruct (n =? 0) eqn:E0; destruct (0 <? n) eqn:E1; simpl; try reflexivity; try lia.
  destruct (n <? 0) eqn:E2; [reflexivity | lia].
Qed.

Lemma statement_fits (limit : option Z) :
  limit_fits (if limit_given limit then limit else None) = limit_fits limit.
Proof.
  destruct limit as [n |]; simpl; [| reflexivity].
  destruct (n =? 0) eqn:E0; [| reflexivity]. cbn [negb].
  apply Z.eqb_eq in E0. subst n. reflexivity.
Qed.

(** A SELECT in descending order with the limit of the caller: refused
    when the limit is no 64-bit integer. *)
Lemma run_select_limit (conds : list condition) (ps : list sql_value)
      (f : row -> bool) (limit : option Z) (t : table) :
  List.length conds = List.length ps ->
  (forall r, In r t -> eval_where json_extract conds ps r = Ok (f r)) ->
  run_select json_extract
    {| sel_columns := all_columns; sel_where := conds; sel_order_desc := true;
       sel_limit := if limit_given limit then limit else None |} ps t
  = if limit_fits limit
    then Ok (map (fun r => map (column_of r) all_columns)
               (apply_limit (effective_limit limit) (sort_desc (filter f t))))
    else Raise IntegrityError.
Proof.
  intros Hlen Hf. unfold run_select. cbn [sel_where sel_columns sel_order_desc sel_limit].
  rewrite Hlen, Nat.eqb_refl. cbn [negb]. unfold check_limit. rewrite statement_fits.
  destruct (limit_fits limit); [| reflexivity]. cbn [rbind].
  rewrite (select_rows_pure _ _ f) by exact Hf. cbn [rbind].
  now rewrite statement_limit.
Qed.

(** The statements of [list], with or without a limit. *)
Lemma execute_list (a : string) (limit : option Z) (t : table) :
  sqlite_execute json_extract
    (if limit_given limit then list_sql ++ " LIMIT " ++ limit_text limit else list_sql)
    [PyStr a] t =
    if limit_fits limit
    then Ok (t, map cursor_row
                    (apply_limit (effective_limit limit) (sort_desc (thread_rows a t))))
    else Raise IntegrityError.
Proof.
  unfold sqlite_execute.
  assert (Hp : parse_statement
                 (if limit_given limit
                  then list_sql ++ " LIMIT " ++ limit_text limit else list_sql) =
               Ok (Select {| sel_columns := all_columns;
                             sel_where := [CondEq KeyThreadId];
                             sel_order_desc := true;
                             sel_limit := if limit_given limit then limit else None |})).
  { destruct limit as [n |]; simpl limit_given; [| apply parse_list].
    destruct (negb (n =? 0)); [apply parse_list_limit | apply parse_list]. }
  rewrite Hp. simpl bind_params. cbn [rbind].
  rewrite (run_select_limit _ _ (in_thread a)); [| reflexivity | intros; apply eval_where_thread].
  destruct (limit_fits limit); [| reflexivity]. cbn [rbind].
  now rewrite map_cursor_row.
Qed.

Lemma execute_list_before (a x : string) (limit : option Z) (t : table) :
  sqlite_execute json_extract
    (if limit_given limit then list_before_sql ++ " LIMIT " ++ limit_text limit
     else list_before_sql)
    [PyStr a; PyStr x] t =
    if limit_fits limit
    then Ok (t, map cursor_row
                    (apply_limit (effective_limit limit)
                       (sort_desc (filter (fun r => in_thread a r && before_ts x r) t))))
    else Raise IntegrityError.
Proof.
  unfold sqlite_execute.
  assert (Hp : parse_statement
                 (if limit_given limit
                  then list_before_sql ++ " LIMIT " ++ limit_text limit
                  else list_before_sql) =
               Ok (Select {| sel_columns := all_columns;
                             sel_where := [CondEq KeyThreadId; CondLt KeyThreadTs];
                             sel_order_desc := true;
                             sel_limit := if limit_given limit then limit else None |})).
  { destruct limit as [n |]; simpl limit_given; [| apply parse_list_before].
    destruct (negb (n =? 0)); [apply parse_list_before_limit | apply parse_list_before]. }
  rewrite Hp. simpl bind_params. cbn [rbind].
  rewrite (run_select_limit _ _ (fun r => in_thread a r && before_ts x r));
    [| reflexivity | intros; apply eval_where_thread_before].
  destruct (limit_fits limit); [| reflexivity]. cbn [rbind].
  now rewrite map_cursor_row.
Qed.

Lemma execute_insert (tid cid : string) (p : py_value) (parent : option string)
      (ck md : bytes) (t : table) :
  (p = PyNone /\ parent = None \/ exists a, p = PyStr a /\ parent = Some a) ->
  sqlite_execute json_extract insert_sql
    [PyStr tid; PyStr cid; p; PyBytes ck; PyBytes md] t =
    Ok (insert_or_replace
          {| col_thread_id := tid; col_thread_ts := cid; col_parent_ts := parent;
             col_checkpoint := ck; col_metadata := Some md |} t, []).
Proof.
  intros Hp. unfold sqlite_execute. rewrite parse_insert. cbn [rbind].
  destruct Hp as [[-> ->] | [a [-> ->]]]; reflexivity.
Qed.

End EngineFacts.

(** ** What the operations of the saver compute *)

Lemma assoc_get_truthy (c : py_value) (k : string) (v : py_value) :
  py_get c k = Ok v -> py_truthy v = true -> py_getitem c k = Ok v.
Proof.
  destruct c; simpl; try discriminate.
  destruct (assoc k items); intros H Ht; invert_ok; [reflexivity | discriminate].
Qed.

Section SaverFacts.

Variable py_str : py_value -> string.
Variable float_repr : spec_float -> string.
Variable json_extract : bytes -> string -> result sql_value.
Variable serde_dumps : py_value -> result bytes.
Variable serde_loads : bytes -> result py_value.

Lemma setup_done (self : SqliteSaver) :
  setup self = {| conn := conn self; is_setup := true |}.
Proof. destruct self as [t []]; reflexivity. Qed.

Lemma cursor_reads {A : Type} (body : table -> result (A * table)) (a : result A)
      (self : SqliteSaver) :
  (a' <- body (conn self) ;; Ok (fst a')) = a ->
  (forall x t', body (conn self) = Ok (x, t') -> t' = conn self) ->
  cursor body self = (a, {| conn := conn self; is_setup := true |}).
Proof.
  intros Ha Ht. unfold cursor. rewrite setup_done. simpl.
  destruct (body (conn self)) as [[x t'] |] eqn:E; simpl in Ha; subst a.
  - now rewrite (Ht x t' eq_refl).
  - reflexivity.
Qed.

Lemma yield_tuple_cursor_row (r : row) :
  yield_tuple serde_loads (cursor_row r) = tuple_of_row serde_loads r.
Proof.
  unfold yield_tuple, tuple_of_row, cursor_row. simpl.
  destruct (serde_loads (col_checkpoint r)); simpl; [| reflexivity].
  destruct (col_metadata r); simpl.
  - destruct (serde_loads b); simpl; [| reflexivity].
    destruct (col_parent_ts r) as [p |]; simpl; [| reflexivity].
    destruct (p =? "")%string; reflexivity.
  - destruct (col_parent_ts r) as [p |]; simpl; [| reflexivity].
    destruct (p =? "")%string; reflexivity.
Qed.

Lemma yield_rows_cursor (rows : list row) :
  yield_rows serde_loads (map cursor_row rows) = yield_all serde_loads rows.
Proof.
  induction rows as [| r rows IH]; [reflexivity |].
  cbn [map yield_rows yield_all]. rewrite yield_tuple_cursor_row, IH. reflexivity.
Qed.

(** [get_tuple] on a locator that names a checkpoint: the first row with
    the key, if there is one. *)
Lemma get_tuple_exact (config tid ts : py_value) (self : SqliteSaver) :
  locator_thread_id config = Ok tid ->
  locator_thread_ts config = Ok ts ->
  py_truthy ts = true ->
  get_tuple py_str json_extract serde_loads config self =
    (match filter (has_key (py_str tid) (py_str ts)) (conn self) with
     | [] => Ok None
     | r :: _ => tup <- tuple_at serde_loads config tid r ;; Ok (Some tup)
     end,
     {| conn := conn self; is_setup := true |}).
Proof.
  unfold locator_thread_id, locator_thread_ts. intros Hid Hts Htruthy.
  destruct (py_getitem config "configurable") as [c |] eqn:Hc; simpl in Hid, Hts;
    [| discriminate].
  assert (Hts' := assoc_get_truthy c "thread_ts" ts Hts Htruthy).
  unfold get_tuple. apply cursor_reads.
  - unfold get_tuple_body. rewrite Hc. cbn [rbind]. rewrite Hts. cbn [rbind].
    rewrite Htruthy, Hid. cbn [rbind]. rewrite Hts'. cbn [rbind].
    rewrite execute_select_exact. cbn [rbind].
    destruct (filter (has_key (py_str tid) (py_str ts)) (conn self)) as [| r rest];
      [reflexivity |].
    unfold tuple_at. simpl.
    destruct (serde_loads (col_checkpoint r)); simpl; [| reflexivity].
    destruct (col_metadata r); simpl.
    + destruct (serde_loads b); simpl; [| reflexivity].
      destruct (col_parent_ts r) as [p |]; simpl; [| reflexivity].
      destruct (p =? "")%string; reflexivity.
    + destruct (col_parent_ts r) as [p |]; simpl; [| reflexivity].
      destruct (p =? "")%string; reflexivity.
  - intros x t'. unfold get_tuple_body. rewrite Hc. cbn [rbind]. rewrite Hts.
    cbn [rbind]. rewrite Htruthy, Hid. cbn [rbind]. rewrite Hts'. cbn [rbind].
    rewrite execute_select_exact. cbn [rbind].
    destruct (fetchone _); intros H; invert_ok; reflexivity.
Qed.

(** [get_tuple] on a locator that names none: the first row of the
    thread in descending order. *)
Lemma get_tuple_latest (config tid ts : py_value) (self : SqliteSaver) :
  locator_thread_id config = Ok tid ->
  locator_thread_ts config = Ok ts ->
  py_truthy ts = false ->
  get_tuple py_str json_extract serde_loads config self =
    (match sort_desc (thread_rows (py_str tid) (conn self)) with
     | [] => Ok None
     | r :: _ => tup <- tuple_of_row serde_loads r ;; Ok (Some tup)
     end,
     {| conn := conn self; is_setup := true |}).
Proof.
  unfold locator_thread_id, locator_thread_ts. intros Hid Hts Hfalsy.
  destruct (py_getitem config "configurable") as [c |] eqn:Hc; simpl in Hid, Hts;
    [| discriminate].
  assert (Hbody : forall t,
             get_tuple_body py_str json_extract serde_loads config t =
               match sort_desc (thread_rows (py_str tid) t) with
               | [] => Ok (None, t)
               | r :: _ => tup <- tuple_of_row serde_loads r ;; Ok (Some tup, t)
               end).
  { intros t. unfold get_tuple_body. rewrite Hc. cbn [rbind]. rewrite Hts.
    cbn [rbind]. rewrite Hfalsy, Hid. cbn [rbind].
    rewrite execute_select_latest. cbn [rbind].
    destruct (sort_desc (thread_rows (py_str tid) t)) as [| r rest]; [reflexivity |].
    rewrite <- yield_tuple_cursor_row.
    unfold yield_tuple, cursor_row. simpl.
    destruct (serde_loads (col_checkpoint r)); simpl; [| reflexivity].
    destruct (col_metadata r); simpl.
    - destruct (serde_loads b); reflexivity.
    - reflexivity. }
  unfold get_tuple. apply cursor_reads.
  - rewrite Hbody.
    destruct (sort_desc (thread_rows (py_str tid) (conn self))); [reflexivity |].
    destruct (tuple_of_row serde_loads r); reflexivity.
  - intros x t'. rewrite Hbody.
    destruct (sort_desc (thread_rows (py_str tid) (conn self))).
    + intros H; invert_ok; reflexivity.
    + destruct (tuple_of_row serde_loads r); simpl; intros H; invert_ok; reflexivity.
Qed.

End SaverFacts.

Section GeneratorFacts.

Variable serde_loads : bytes -> result py_value.

Lemma tuple_of_row_key (r : row) (tup : CheckpointTuple) :
  tuple_of_row serde_loads r = Ok tup -> tuple_key tup = Some (key_of r).
Proof.
  unfold tuple_of_row. intros H. invert_ok. reflexivity.
Qed.

(** The tuples yielded are the tuples of the first rows, in their
    order; all rows, unless an exception stops the generator. *)
Lemma yield_all_prefix (rows : list row) :
  exists k,
    (k <= List.length rows)%nat
    /\ Forall2 (fun r tup => tuple_of_row serde_loads r = Ok tup)
         (firstn k rows) (yielded (yield_all serde_loads rows))
    /\ (raised (yield_all serde_loads rows) = None -> k = List.length rows).
Proof.
  induction rows as [| r rows [k [Hk [Hf Hn]]]]; simpl.
  - exists 0%nat. repeat split; constructor.
  - destruct (tuple_of_row serde_loads r) as [tup |] eqn:E; simpl.
    + exists (S k). repeat split; [lia | now constructor | auto].
    + exists 0%nat. repeat split; [lia | constructor | discriminate].
Qed.

Lemma yield_all_length (rows : list row) :
  (List.length (yielded (yield_all serde_loads rows)) <= List.length rows)%nat.
Proof.
  destruct (yield_all_prefix rows) as [k [Hk [Hf _]]].
  apply Forall2_length in Hf. rewrite <- Hf, length_firstn. lia.
Qed.

Lemma yield_all_forall (P : row -> Prop) (Q : CheckpointTuple -> Prop)
      (rows : list row) :
  (forall r tup, P r -> tuple_of_row serde_loads r = Ok tup -> Q tup) ->
  Forall P rows -> Forall Q (yielded (yield_all serde_loads rows)).
Proof.
  intros HPQ. induction 1 as [| r rows Hr Hrows IH]; simpl; [constructor |].
  destruct (tuple_of_row serde_loads r) as [tup |] eqn:E; simpl; constructor; eauto.
Qed.

Lemma yield_all_sorted (R : row -> row -> Prop)
      (R' : CheckpointTuple -> CheckpointTuple -> Prop) (rows : list row) :
  (forall r1 r2 t1 t2, R r1 r2 -> tuple_of_row serde_loads r1 = Ok t1 ->
                       tuple_of_row serde_loads r2 = Ok t2 -> R' t1 t2) ->
  StronglySorted R rows ->
  StronglySorted R' (yielded (yield_all serde_loads rows)).
Proof.
  intros HR. induction 1 as [| r rows Hs IH Hr]; simpl; [constructor |].
  destruct (tuple_of_row serde_loads r) as [tup |] eqn:E; simpl; constructor.
  - exact IH.
  - apply (yield_all_forall (R r)); [| exact Hr].
    intros r2 t2 H12 E2. exact (HR r r2 tup t2 H12 E E2).
Qed.

Lemma yield_all_complete (rows : list row) (r : row) :
  raised (yield_all serde_loads rows) = None -> In r rows ->
  exists tup, In tup (yielded (yield_all serde_loads rows))
              /\ tuple_of_row serde_loads r = Ok tup.
Proof.
  induction rows as [| x rows IH]; simpl; [intros _ [] |].
  destruct (tuple_of_row serde_loads x) as [tup |] eqn:E; simpl; [| discriminate].
  intros Hn [-> | Hin].
  - exists tup. auto.
  - destruct (IH Hn Hin) as [tup' [Hin' E']]. exists tup'. auto.
Qed.

Lemma ts_gt_newer (r1 r2 : row) (t1 t2 : CheckpointTuple) :
  ts_gt r1 r2 -> tuple_of_row serde_loads r1 = Ok t1 ->
  tuple_of_row serde_loads r2 = Ok t2 -> newer_than t1 t2.
Proof.
  intros H E1 E2. apply tuple_of_row_key in E1, E2.
  exists (col_thread_id r1), (col_thread_ts r1), (col_thread_id r2), (col_thread_ts r2).
  auto.
Qed.


End GeneratorFacts.

(** ** Keys *)

Lemma pk_unique_filter (f : row -> bool) (t : table) :
  pk_unique t -> pk_unique (filter f t).
Proof.
  unfold pk_unique. induction t as [| r t IH]; simpl; [auto |].
  intros H. inversion H as [| k l Hk Hl]; subst.
  destruct (f r); simpl; [constructor |]; auto.
  intros Hin. apply Hk. apply in_map_iff in Hin as [x [Hx Hin]].
  apply in_map_iff. exists x. split; [exact Hx |].
  now apply filter_In in Hin as [Hin _].
Qed.

Lemma pk_unique_perm (l l' : list row) :
  Permutation l l' -> pk_unique l -> pk_unique l'.
Proof.
  unfold pk_unique. intros Hp. apply Permutation_NoDup. now apply Permutation_map.
Qed.

Lemma pk_unique_same_key (t : table) (r r' : row) :
  pk_unique t -> In r t -> In r' t -> key_of r = key_of r' -> r = r'.
Proof.
  unfold pk_unique. induction t as [| x t IH]; simpl; [intros _ [] |].
  intros H Hr Hr' Hk. inversion H as [| k l Hnk Hl]; subst.
  destruct Hr as [-> | Hr], Hr' as [-> | Hr']; auto.
  - exfalso. apply Hnk. rewrite Hk. now apply in_map.
  - exfalso. apply Hnk. rewrite <- Hk. now apply in_map.
Qed.

Lemma strict_of_unique (thread_id : string) (l : list row) :
  Forall (fun r => col_thread_id r = thread_id) l ->
  pk_unique l -> StronglySorted ts_ge l -> StronglySorted ts_gt l.
Proof.
  intros Ht Hu Hs. induction Hs as [| r l Hs IH Hr]; [constructor |].
  inversion Ht as [| ? ? Htr Htl]; subst.
  inversion Hu as [| ? ? Hk Hl]; subst.
  constructor; [now apply IH |].
  apply Forall_forall. intros y Hy.
  assert (Hge := proj1 (Forall_forall _ _) Hr y Hy).
  assert (Hty := proj1 (Forall_forall _ _) Htl y Hy).
  unfold ts_gt, ts_ge in *.
  destruct (String.ltb (col_thread_ts y) (col_thread_ts r)) eqn:E; [reflexivity |].
  exfalso. apply Hk. apply in_map_iff. exists y. split; [| exact Hy].
  unfold key_of. rewrite Hty. f_equal. now apply ltb_total.
Qed.

Lemma in_range_thread (thread_id : string) (bound : option string) (r : row) :
  in_range thread_id bound r = true -> col_thread_id r = thread_id.
Proof.
  unfold in_range, in_thread. intros H. apply andb_prop in H as [H _].
  now apply String.eqb_eq.
Qed.

Lemma list_rows_in (thread_id : string) (bound : option string) (limit : option Z)
      (t : table) (r : row) :
  In r (list_rows thread_id bound limit t) ->
  In r t /\ in_range thread_id bound r = true.
Proof.
  unfold list_rows. intros H. apply apply_limit_in in H.
  apply (proj1 (sort_desc_in _ _)) in H. now apply filter_In in H.
Qed.

Lemma list_rows_strict (thread_id : string) (bound : option string) (limit : option Z)
      (t : table) :
  pk_unique t -> StronglySorted ts_gt (list_rows thread_id bound limit t).
Proof.
  intros Hu. unfold list_rows. apply apply_limit_sorted.
  apply (strict_of_unique thread_id).
  - apply Forall_forall. intros r Hr. apply (proj1 (sort_desc_in _ _)) in Hr.
    apply filter_In in Hr as [_ Hr]. now apply in_range_thread in Hr.
  - apply (pk_unique_perm _ _ (sort_desc_perm _)). now apply pk_unique_filter.
  - apply sort_desc_sorted.
Qed.

(** ** INSERT OR REPLACE *)

Lemma same_key_iff (a b : row) : same_key a b = true <-> key_of a = key_of b.
Proof.
  unfold same_key, key_of. rewrite andb_true_iff, !String.eqb_eq.
  split; [intros [-> ->]; reflexivity | intros H; injection H; auto].
Qed.

Lemma insert_or_replace_in (new r : row) (t : table) :
  In r (insert_or_replace new t) <->
  r = new \/ (In r t /\ key_of r <> key_of new).
Proof.
  unfold insert_or_replace. rewrite in_app_iff, filter_In. simpl.
  rewrite negb_true_iff, <- not_true_iff_false, same_key_iff. intuition.
Qed.

Lemma insert_or_replace_key (new r : row) (t : table) :
  In r (insert_or_replace new t) -> key_of r = key_of new -> r = new.
Proof.
  rewrite insert_or_replace_in. intros [-> | [_ Hne]] Hk; [reflexivity | contradiction].
Qed.


Lemma filter_key_unique (l : list row) (r : row) :
  pk_unique l -> In r l ->
  filter (has_key (col_thread_id r) (col_thread_ts r)) l = [r].
Proof.
  unfold pk_unique. induction l as [| x l IH]; simpl; [intros _ [] |].
  intros Hu Hin. inversion Hu as [| k l' Hk Hl]; subst.
  assert (Hnone : forall l0, ~ In (key_of r) (map key_of l0) ->
                             filter (has_key (col_thread_id r) (col_thread_ts r)) l0 = []).
  { induction l0 as [| y l0 IH0]; simpl; [reflexivity |]. intros Hn.
    destruct (has_key (col_thread_id r) (col_thread_ts r) y) eqn:E.
    - exfalso. apply Hn. left. apply (same_key_iff y r). exact E.
    - apply IH0. intros H. apply Hn. now right. }
  destruct Hin as [-> | Hin].
  - assert (E : has_key (col_thread_id r) (col_thread_ts r) r = true)
      by (apply (same_key_iff r r); reflexivity).
    rewrite E, (Hnone l Hk). reflexivity.
  - destruct (has_key (col_thread_id r) (col_thread_ts r) x) eqn:E.
    + exfalso. apply Hk. apply (same_key_iff x r) in E. rewrite E. now apply in_map.
    + now apply IH.
Qed.

(** The first row of a thread in descending order is the row that no row
    of the thread exceeds, when that row is the only one with its key. *)
Lemma latest_is_max (thread_id : string) (t : table) (r : row) :
  In r t -> col_thread_id r = thread_id ->
  (forall r', In r' t -> col_thread_id r' = thread_id ->
              String.ltb (col_thread_ts r) (col_thread_ts r') = false) ->
  (forall r', In r' t -> key_of r' = key_of r -> r' = r) ->
  exists rest, sort_desc (thread_rows thread_id t) = r :: rest.
Proof.
  intros Hin Ht Hmax Honly.
  assert (Hr : In r (sort_desc (thread_rows thread_id t))).
  { apply sort_desc_in, filter_In. split; [exact Hin |].
    unfold in_thread. now apply String.eqb_eq. }
  assert (Hs := sort_desc_sorted (thread_rows thread_id t)).
  destruct (sort_desc (thread_rows thread_id t)) as [| h rest] eqn:E; [destruct Hr |].
  exists rest. f_equal.
  assert (Hh : In h t /\ col_thread_id h = thread_id).
  { assert (Hh : In h (sort_desc (thread_rows thread_id t)))
      by (rewrite E; now left).
    apply (proj1 (sort_desc_in _ _)) in Hh. apply filter_In in Hh as [Hh Hth].
    split; [exact Hh | now apply String.eqb_eq]. }
  destruct Hh as [Hh Hth]. apply Honly; [exact Hh |].
  unfold key_of. rewrite Hth, Ht. f_equal.
  apply ltb_total; [| now apply Hmax].
  destruct Hr as [-> | Hr]; [apply ltb_irrefl |].
  inversion Hs as [| ? ? _ Hall]; subst.
  exact (proj1 (Forall_forall _ _) Hall r Hr).
Qed.

Section SaverOperations.

Variable py_str : py_value -> string.
Variable float_repr : spec_float -> string.
Variable json_extract : bytes -> string -> result sql_value.
Variable serde_dumps : py_value -> result bytes.
Variable serde_loads : bytes -> result py_value.

Lemma filter_in_range_none (thread_id : string) (t : table) :
  filter (in_range thread_id None) t = thread_rows thread_id t.
Proof.
  unfold thread_rows. apply filter_ext. intros r. unfold in_range.
  apply andb_true_r.
Qed.

(** [list] yields the tuples of the rows it selects; a limit that is no
    64-bit integer makes the statement fail. *)
Lemma list_yields (config tid : py_value) (before : option py_value)
      (bound : option string) (limit : option Z) (self : SqliteSaver) :
  locator_thread_id config = Ok tid ->
  match before with
  | None => bound = None
  | Some b => exists x, bound_thread_ts b = Ok (PyStr x) /\ bound = Some x
  end ->
  list_ py_str json_extract serde_loads config before limit self =
    (if limit_fits limit
     then yield_all serde_loads (list_rows (py_str tid) bound limit (conn self))
     else {| yielded := []; raised := Some IntegrityError |},
     {| conn := conn self; is_setup := true |}).
Proof.
  unfold locator_thread_id. intros Hid Hb.
  destruct (py_getitem config "configurable") as [c |] eqn:Hc; simpl in Hid;
    [| discriminate].
  unfold list_, generate. rewrite setup_done. cbn [conn is_setup].
  destruct before as [b |].
  - destruct Hb as [x [Hx ->]]. unfold bound_thread_ts in Hx.
    destruct (py_getitem b "configurable") as [cb |] eqn:Hcb; simpl in Hx;
      [| discriminate].
    rewrite Hc. cbn [rbind]. rewrite Hid. cbn [rbind].
    rewrite Hx. cbn [rbind]. rewrite execute_list_before.
    destruct (limit_fits limit); [| reflexivity].
    now rewrite yield_rows_cursor.
  - subst bound. rewrite Hc. cbn [rbind]. rewrite Hid. cbn [rbind].
    rewrite execute_list. destruct (limit_fits limit); [| reflexivity].
    rewrite yield_rows_cursor.
    unfold list_rows. now rewrite filter_in_range_none.
Qed.

Lemma list_yields_fit (config tid : py_value) (before : option py_value)
      (bound : option string) (limit : option Z) (self : SqliteSaver) :
  locator_thread_id config = Ok tid ->
  match before with
  | None => bound = None
  | Some b => exists x, bound_thread_ts b = Ok (PyStr x) /\ bound = Some x
  end ->
  limit_fits limit = true ->
  list_ py_str json_extract serde_loads config before limit self =
    (yield_all serde_loads (list_rows (py_str tid) bound limit (conn self)),
     {| conn := conn self; is_setup := true |}).
Proof.
  intros Hid Hb Hfit. rewrite (list_yields config tid before bound limit self Hid Hb).
  now rewrite Hfit.
Qed.

(** [put] writes one row and answers the locator of the checkpoint. *)
Lemma put_writes (config checkpoint metadata tid : py_value) (r : row)
      (self : SqliteSaver) :
  locator_thread_id config = Ok tid ->
  written_row py_str serde_dumps (config, checkpoint, metadata) = Some r ->
  put py_str json_extract serde_dumps config checkpoint metadata self =
    (Ok (configurable_of tid (PyStr (col_thread_ts r))),
     {| conn := insert_or_replace r (conn self); is_setup := true |}).
Proof.
  unfold written_row. intros Hid Hw. rewrite Hid in Hw.
  destruct (locator_thread_ts config) as [p |] eqn:Hp; [| discriminate].
  destruct (py_getitem checkpoint "id") as [id |] eqn:Hcid; [| discriminate].
  destruct id as [| | | | cid | | | | |]; try discriminate.
  destruct (serde_dumps checkpoint) as [ck |] eqn:Hck; [| discriminate].
  destruct (serde_dumps metadata) as [md |] eqn:Hmd; [| discriminate].
  unfold locator_thread_id, locator_thread_ts in Hid, Hp.
  destruct (py_getitem config "configurable") as [c |] eqn:Hc; simpl in Hid, Hp;
    [| discriminate].
  unfold put, cursor. rewrite setup_done. cbn [conn is_setup].
  rewrite Hc. cbn [rbind]. rewrite Hid. cbn [rbind]. rewrite Hcid. cbn [rbind].
  rewrite Hp. cbn [rbind]. rewrite Hck. cbn [rbind]. rewrite Hmd. cbn [rbind].
  destruct p; try discriminate; injection Hw as <-.
  - rewrite (execute_insert _ _ _ PyNone None) by (left; auto). reflexivity.
  - rewrite (execute_insert _ _ _ (PyStr s) (Some s)) by (right; eauto). reflexivity.
Qed.

End SaverOperations.

(** ** The claims on [list] and [get_tuple] *)

Lemma sample_table_unique : pk_unique sample_table.
Proof.
  unfold pk_unique, sample_table. simpl.
  repeat constructor; simpl; intuition discriminate.
Qed.

(** C5, amended.  For a locator with a thread and a store without
    duplicate keys, [list] yields tuples of that thread in strictly
    descending order of checkpoint id; below the bound of [before], when
    [before] carries a string; at most [limit] of them when [limit] is
    positive; and with a limit that is absent, zero, or negative and not
    below [-2^63], the same sequence as with none, which has a tuple for
    every row of the thread (below the bound) unless a payload fails to
    decode. *)
Theorem list_descending_bounded_limited :
  forall (py_str : py_value -> string)
         (json_extract : bytes -> string -> result sql_value)
         (serde_loads : bytes -> result py_value)
         (config tid : py_value) (before : option py_value) (bound : option string)
         (limit : option Z) (self : SqliteSaver),
    locator_thread_id config = Ok tid ->
    match before with
    | None => bound = None
    | Some b => exists x, bound_thread_ts b = Ok (PyStr x) /\ bound = Some x
    end ->
    pk_unique (conn self) ->
    let run := list_ py_str json_extract serde_loads config before in
    let g := fst (run limit self) in
    StronglySorted newer_than (yielded g)
    /\ Forall (fun tup => exists i, tuple_key tup = Some (py_str tid, i)) (yielded g)
    /\ (forall x, bound = Some x ->
          Forall (fun tup => exists i, tuple_key tup = Some (py_str tid, i)
                                       /\ String.ltb i x = true) (yielded g))
    /\ (forall k, limit = Some k -> 0 < k ->
          (List.length (yielded g) <= Z.to_nat k)%nat)
    /\ (forall k, limit = Some k -> - 2 ^ 63 <= k <= 0 ->
          run limit self = run None self)
    /\ (effective_limit limit = None -> raised g = None ->
        forall r, In r (conn self) -> in_range (py_str tid) bound r = true ->
                  exists tup, In tup (yielded g)
                              /\ tuple_of_row serde_loads r = Ok tup).
Proof.
  intros py_str json_extract serde_loads config tid before bound limit self
         Hid Hb Hu run g.
  assert (Hrun : forall lim,
             run lim self =
               (if limit_fits lim
                then yield_all serde_loads (list_rows (py_str tid) bound lim (conn self))
                else {| yielded := []; raised := Some IntegrityError |},
                {| conn := conn self; is_setup := true |}))
    by (intros lim; now apply list_yields).
  assert (Hfits : forall k, limit_fits (Some k) = true <-> - 2 ^ 63 <= k < 2 ^ 63).
  { intros k. unfold limit_fits. rewrite andb_true_iff, Z.leb_le, Z.ltb_lt. tauto. }
  subst g. rewrite (Hrun limit). cbn [fst].
  destruct (limit_fits limit) eqn:Hfit.
  - set (rows := list_rows (py_str tid) bound limit (conn self)).
    assert (Hrows : Forall (fun r => In r (conn self)
                                     /\ in_range (py_str tid) bound r = true) rows)
      by (apply Forall_forall; intros r Hr; now apply list_rows_in in Hr).
    split; [| split; [| split; [| split; [| split]]]].
    + apply (yield_all_sorted serde_loads ts_gt); [apply ts_gt_newer |].
      now apply list_rows_strict.
    + eapply yield_all_forall; [| exact Hrows].
      intros r tup [_ Hr] E. exists (col_thread_ts r).
      rewrite (tuple_of_row_key _ _ _ E). unfold key_of.
      now rewrite (in_range_thread _ _ _ Hr).
    + intros x ->. eapply yield_all_forall; [| exact Hrows].
      intros r tup [_ Hr] E. exists (col_thread_ts r).
      rewrite (tuple_of_row_key _ _ _ E). unfold key_of.
      rewrite (in_range_thread _ _ _ Hr). split; [reflexivity |].
      unfold in_range in Hr. now apply andb_prop in Hr as [_ Hr].
    + intros k -> Hk. eapply Nat.le_trans; [apply yield_all_length |].
      subst rows. unfold list_rows, effective_limit.
      rewrite (proj2 (Z.ltb_lt 0 k) Hk). apply apply_limit_length. lia.
    + intros k -> Hk. rewrite Hrun. cbn [limit_fits].
      subst rows. unfold list_rows, effective_limit.
      now rewrite (proj2 (Z.ltb_ge 0 k) (proj2 Hk)).
    + intros Hlim Hnone r Hr Hrange. apply yield_all_complete; [exact Hnone |].
      subst rows. unfold list_rows. rewrite Hlim. simpl.
      apply sort_desc_in, filter_In. auto.
  - cbn [yielded raised].
    split; [constructor |]. split; [constructor |]. split; [constructor |].
    split; [intros; simpl; lia |]. split.
    + intros k -> Hk.
      assert (Hin : limit_fits (Some k) = true) by (apply Hfits; lia). congruence.
    + intros _ Hnone. discriminate.
Qed.

Lemma list_descending_bounded_limited_witness :
  locator_thread_id (thread_locator (PyStr "1")) = Ok (PyStr "1")
  /\ (exists x, bound_thread_ts (locator_at "1" "b") = Ok (PyStr x) /\ Some "b" = Some x)
  /\ pk_unique (conn sample_saver)
  /\ map tuple_key
       (yielded (fst (list_ scalar_str entry_extract entry_loads
                        (thread_locator (PyStr "1")) (Some (locator_at "1" "b"))
                        (Some 5) sample_saver)))
     = [Some ("1", "a")]
  /\ StronglySorted newer_than
       (yielded (fst (list_ scalar_str entry_extract entry_loads
                        (thread_locator (PyStr "1")) (Some (locator_at "1" "b"))
                        (Some 5) sample_saver))).
Proof.
  split; [reflexivity |]. split; [exists "b"; split; reflexivity |].
  split; [exact sample_table_unique |]. split; [reflexivity |].
  apply (list_descending_bounded_limited scalar_str entry_extract entry_loads
           (thread_locator (PyStr "1")) (PyStr "1") (Some (locator_at "1" "b"))
           (Some "b") (Some 5) sample_saver).
  - reflexivity.
  - exists "b". split; reflexivity.
  - exact sample_table_unique.
Defined.

(** C5 as stated fails at a limit below [-2^63]: it is not positive, and
    [list] does not yield the unbounded sequence, the two checkpoints of
    thread 1, but nothing, for SQLite refuses the statement. *)
Lemma list_limit_below_int64_counterexample :
  - 9223372036854775809 <= 0
  /\ fst (list_ scalar_str entry_extract entry_loads (thread_locator (PyStr "1")) None
            (Some (- 9223372036854775809)) sample_saver)
     = {| yielded := []; raised := Some IntegrityError |}
  /\ map tuple_key
       (yielded (fst (list_ scalar_str entry_extract entry_loads
                        (thread_locator (PyStr "1")) None None sample_saver)))
     = [Some ("1", "b"); Some ("1", "a")].
Proof.
  split; [lia |]. split; [vm_compute; reflexivity | reflexivity].
Qed.

(** C9.  A locator whose [thread_ts] is present but falsy (the empty
    string, [None], 0, ...) is not looked up by that key: [get_tuple] does
    what it does for the locator without [thread_ts], and answers the
    latest checkpoint of the thread. *)
Theorem get_tuple_falsy_id_is_latest :
  forall (py_str : py_value -> string)
         (json_extract : bytes -> string -> result sql_value)
         (serde_loads : bytes -> result py_value)
         (config tid ts : py_value) (self : SqliteSaver),
    locator_thread_id config = Ok tid ->
    locator_thread_ts config = Ok ts ->
    py_truthy ts = false ->
    get_tuple py_str json_extract serde_loads config self
    = get_tuple py_str json_extract serde_loads (thread_locator tid) self
    /\ fst (get_tuple py_str json_extract serde_loads config self)
       = match sort_desc (thread_rows (py_str tid) (conn self)) with
         | [] => Ok None
         | r :: _ => tup <- tuple_of_row serde_loads r ;; Ok (Some tup)
         end.
Proof.
  intros py_str json_extract serde_loads config tid ts self Hid Hts Hfalsy.
  rewrite (get_tuple_latest py_str json_extract serde_loads config tid ts self Hid Hts Hfalsy).
  split; [| reflexivity].
  rewrite (get_tuple_latest py_str json_extract serde_loads (thread_locator tid) tid PyNone);
    reflexivity.
Qed.

Lemma get_tuple_falsy_id_is_latest_witness :
  locator_thread_id (locator_at "1" "") = Ok (PyStr "1")
  /\ locator_thread_ts (locator_at "1" "") = Ok (PyStr "")
  /\ py_truthy (PyStr "") = false
  /\ option_map tuple_key
       (match fst (get_tuple scalar_str entry_extract entry_loads
                     (locator_at "1" "") sample_saver) with
        | Ok found => found
        | Raise _ => None
        end)
     = Some (Some ("1", "b")).
Proof.
  split; [reflexivity |]. split; [reflexivity |]. split; [reflexivity |].
  rewrite (proj2 (get_tuple_falsy_id_is_latest scalar_str entry_extract entry_loads
                    (locator_at "1" "") (PyStr "1") (PyStr "") sample_saver
                    eq_refl eq_refl eq_refl)).
  reflexivity.
Defined.

(** ** The claim on the predicate *)

Lemma where_params_length (py_str : py_value -> string)
      (float_repr : spec_float -> string) (items : list (string * py_value)) :
  forall ps, where_params py_str float_repr items = Ok ps ->
             List.length ps = List.length items.
Proof.
  induction items as [| [k v] rest IH]; intros ps H; simpl in H.
  - invert_ok. reflexivity.
  - destruct (_where_value py_str float_repr v) as [[op p] |]; simpl in H;
      [| discriminate].
    destruct (where_params py_str float_repr rest) as [ps' |]; simpl in H;
      [| discriminate].
    invert_ok. simpl. now rewrite (IH ps' eq_refl).
Qed.

Lemma clause_text_same_shape (items items' : list (string * py_value)) :
  map fst items = map fst items' ->
  map (fun item => is_none (snd item)) items
  = map (fun item => is_none (snd item)) items' ->
  map clause_text items = map clause_text items'.
Proof.
  revert items'. induction items as [| [k v] rest IH]; intros [| [k' v'] rest'];
    simpl; try discriminate; [reflexivity |].
  intros Hk Hn. injection Hk as -> Hk. injection Hn as Hv Hn.
  rewrite (IH rest' Hk Hn). unfold clause_text, operator_of. simpl. now rewrite Hv.
Qed.

Lemma where_value_encoded (py_str : py_value -> string)
      (float_repr : spec_float -> string) (v : py_value) (op : string) (p : py_value) :
  _where_value py_str float_repr v = Ok (op, p) ->
  exists p',
    _where_value py_str float_repr (int_encoding v) = Ok (op, p')
    /\ bind_param p' = bind_param p.
Proof.
  destruct v; try (intros H; exists p; split; [exact H | reflexivity]).
  intros H. cbn in H. injection H as <- <-.
  exists (PyInt (if b then 1 else 0)). split; [reflexivity |]. now destruct b.
Qed.

Lemma where_params_encoded (py_str : py_value -> string)
      (float_repr : spec_float -> string) (items : list (string * py_value)) :
  forall ps, where_params py_str float_repr items = Ok ps ->
             exists ps', where_params py_str float_repr (encode_booleans items) = Ok ps'
                         /\ bind_params ps' = bind_params ps.
Proof.
  induction items as [| [k v] rest IH]; intros ps H; simpl in H.
  - injection H as <-. exists []. split; reflexivity.
  - destruct (_where_value py_str float_repr v) as [[op p] |] eqn:Ev; cbn [rbind] in H;
      [| discriminate].
    destruct (where_params py_str float_repr rest) as [qs |]; cbn [rbind] in H;
      [| discriminate].
    injection H as <-.
    destruct (where_value_encoded py_str float_repr v op p Ev) as [p' [Ep Hp]].
    destruct (IH qs eq_refl) as [qs' [Eq Hq]].
    exists (p' :: qs'). split.
    + cbn [encode_booleans map where_params fst snd]. rewrite Ep. cbn [rbind].
      fold (encode_booleans rest). rewrite Eq. reflexivity.
    + cbn [bind_params]. now rewrite Hp, Hq.
Qed.

(** C1.  The builder chooses the operator and the parameter by the type
    of the filter value: [IS ?] binding null for [None]; [= ?] binding the
    value unchanged for a string, an integer or a float; and for a boolean
    [= ?] with a parameter that is bound as the integer 1 or 0.  The last
    is the work of the branch for integers, which takes a [bool] as the
    [int] it is, before the branch written for booleans is reached; the
    parameter it returns, [True] or [False], is bound by the [sqlite3]
    module as the integer 1 or 0, so that a filter and the same filter
    with its booleans replaced by 1 and 0 give the same predicate and the
    same bound parameters. *)
Theorem where_value_by_type :
  forall (py_str : py_value -> string) (float_repr : spec_float -> string),
    _where_value py_str float_repr PyNone = Ok ("IS ?", PyNone)
    /\ (forall v, isinstance_str v || isinstance_int v || isinstance_float v = true ->
                  _where_value py_str float_repr v = Ok ("= ?", v))
    /\ (forall b, exists p,
          _where_value py_str float_repr (PyBool b) = Ok ("= ?", p)
          /\ bind_param p = Ok (SqlInteger (if b then 1 else 0)))
    /\ (forall metadata_filter predicate params,
          _metadata_predicate py_str float_repr metadata_filter = Ok (predicate, params) ->
          exists params',
            _metadata_predicate py_str float_repr (encode_booleans metadata_filter)
            = Ok (predicate, params')
            /\ bind_params params' = bind_params params).
Proof.
  intros py_str float_repr. split; [reflexivity |].
  split; [intros v Hv; now apply where_value_scalar |]. split.
  - intros b. exists (PyBool b). split; [reflexivity | now destruct b].
  - intros metadata_filter predicate params H.
    rewrite metadata_predicate_spec in H.
    destruct (where_params py_str float_repr metadata_filter) as [ps |] eqn:Hps;
      cbn [rbind] in H; [| discriminate].
    remember (String.concat "AND " (map clause_text metadata_filter)) as text eqn:Et.
    injection H as <- <-.
    destruct (where_params_encoded py_str float_repr metadata_filter ps Hps)
      as [ps' [Hps' Hbind]].
    exists ps'. split; [| exact Hbind].
    rewrite metadata_predicate_spec, Hps'. cbn [rbind].
    rewrite (clause_text_same_shape (encode_booleans metadata_filter) metadata_filter).
    + now rewrite Et.
    + unfold encode_booleans. rewrite map_map. reflexivity.
    + unfold encode_booleans. rewrite map_map. apply map_ext.
      intros [k v]. now destruct v.
Qed.

Lemma where_value_by_type_witness :
  exists params',
    _metadata_predicate scalar_str half_repr (encode_booleans [("flag", PyBool true)])
    = Ok ("json_extract(CAST(metadata AS TEXT), '$.flag') = ? ", params')
    /\ bind_params params' = bind_params [PyBool true].
Proof.
  apply (proj2 (proj2 (proj2 (where_value_by_type scalar_str half_repr)))).
  reflexivity.
Defined.

(** C7.  A null filter value gives the null-safe [IS ?] binding null; an
    object or an array gives [= ?] binding its JSON text written with the
    separators [,] and [:], which has no white space outside its string
    literals.  The predicates of the keys are joined by AND, and the
    predicate string is built from the keys and the operators alone: every
    value is in the list of parameters, one for each key in the order of
    the keys, and two filters with the same keys and nulls in the same
    places have the same predicate string. *)
Theorem metadata_predicate_binds_values :
  forall (py_str : py_value -> string) (float_repr : spec_float -> string),
    (forall f, plain_text (float_repr f) = true) ->
    _where_value py_str float_repr PyNone = Ok ("IS ?", PyNone)
    /\ (forall v, isinstance_dict v || isinstance_list v = true ->
          _where_value py_str float_repr v
          = (s <- json_encode float_repr "," ":" v ;; Ok ("= ?", PyStr s))
          /\ forall s, json_encode float_repr "," ":" v = Ok s -> json_compact s)
    /\ (forall metadata_filter,
          _metadata_predicate py_str float_repr metadata_filter
          = (ps <- where_params py_str float_repr metadata_filter ;;
             Ok (String.concat "AND " (map clause_text metadata_filter), ps)))
    /\ (forall metadata_filter predicate params,
          _metadata_predicate py_str float_repr metadata_filter = Ok (predicate, params) ->
          List.length params = List.length metadata_filter
          /\ forall other predicate' params',
               map fst other = map fst metadata_filter ->
               map (fun item => is_none (snd item)) other
               = map (fun item => is_none (snd item)) metadata_filter ->
               _metadata_predicate py_str float_repr other = Ok (predicate', params') ->
               predicate' = predicate).
Proof.
  intros py_str float_repr Hplain. split; [reflexivity |]. split; [| split].
  - intros v Hv. split; [now apply where_value_structured |].
    now apply json_encode_compact.
  - apply metadata_predicate_spec.
  - intros metadata_filter predicate params H.
    rewrite metadata_predicate_spec in H.
    destruct (where_params py_str float_repr metadata_filter) as [ps |] eqn:E;
      simpl in H; [| discriminate].
    invert_ok. split; [now apply (where_params_length py_str float_repr) |].
    intros other predicate' params' Hk Hn H'.
    rewrite metadata_predicate_spec in H'.
    destruct (where_params py_str float_repr other) as [ps' |]; simpl in H';
      [| discriminate].
    invert_ok. now rewrite (clause_text_same_shape other metadata_filter Hk Hn).
Qed.

Lemma metadata_predicate_binds_values_witness :
  (forall f, plain_text (half_repr f) = true)
  /\ _metadata_predicate scalar_str half_repr
       [("source", PyStr "input"); ("writes", PyNone)]
     = Ok ("json_extract(CAST(metadata AS TEXT), '$.source') = ? AND json_extract(CAST(metadata AS TEXT), '$.writes') IS ? ",
           [PyStr "input"; PyNone])
  /\ (forall s,
        json_encode half_repr "," ":"
          (PyDict [("a", PyList [PyInt 1; PyStr "x y"; PyFloat S754_nan])]) = Ok s ->
        json_compact s).
Proof.
  split; [reflexivity |].
  destruct (metadata_predicate_binds_values scalar_str half_repr (fun _ => eq_refl))
    as [_ [structured [joined _]]].
  split.
  - rewrite joined. reflexivity.
  - apply (structured (PyDict [("a", PyList [PyInt 1; PyStr "x y"; PyFloat S754_nan])])).
    reflexivity.
Defined.

(** ** Sequences of writes *)

Lemma write_all_latest (thread_id : string) (front : list row) :
  forall (t : table) (last : row),
    Forall (fun r => col_thread_id r = thread_id) (front ++ [last]) ->
    StronglySorted ts_lt (front ++ [last]) ->
    (forall r0, In r0 t -> col_thread_id r0 = thread_id ->
                Forall (ts_lt r0) (front ++ [last])) ->
    In last (write_all (front ++ [last]) t)
    /\ (forall r', In r' (write_all (front ++ [last]) t) ->
                   col_thread_id r' = thread_id ->
                   String.ltb (col_thread_ts last) (col_thread_ts r') = false)
    /\ (forall r', In r' (write_all (front ++ [last]) t) ->
                   key_of r' = key_of last -> r' = last).
Proof.
  induction front as [| r1 front IH]; intros t last Hthread Hsorted Hold.
  - simpl. split; [apply insert_or_replace_in; now left |]. split.
    + intros r' Hr' Ht. apply insert_or_replace_in in Hr' as [-> | [Hr' _]].
      * apply ltb_irrefl.
      * apply ltb_asym. specialize (Hold r' Hr' Ht).
        now inversion Hold.
    + intros r' Hr'. exact (insert_or_replace_key last r' t Hr').
  - simpl. inversion Hthread as [| ? ? Ht1 Htl]; subst.
    inversion Hsorted as [| ? ? Hs Hall]; subst.
    apply IH; [exact Htl | exact Hs |].
    intros r0 Hr0 Ht0. apply insert_or_replace_in in Hr0 as [-> | [Hr0 _]].
    + exact Hall.
    + specialize (Hold r0 Hr0 Ht0). now inversion Hold.
Qed.

Section PutSequences.

Variable py_str : py_value -> string.
Variable json_extract : bytes -> string -> result sql_value.
Variable serde_dumps : py_value -> result bytes.

Lemma put_conn (call : py_value * py_value * py_value) (r : row) (self : SqliteSaver) :
  written_row py_str serde_dumps call = Some r ->
  snd (put py_str json_extract serde_dumps (fst (fst call)) (snd (fst call)) (snd call) self)
  = {| conn := insert_or_replace r (conn self); is_setup := true |}.
Proof.
  destruct call as [[config checkpoint] metadata]. intros Hw. cbn [fst snd].
  destruct (locator_thread_id config) as [tid |] eqn:Hid.
  - now rewrite (put_writes py_str json_extract serde_dumps _ _ _ tid r self Hid Hw).
  - unfold written_row in Hw. rewrite Hid in Hw. discriminate.
Qed.

Lemma put_all_conn (calls : list (py_value * py_value * py_value)) (rows : list row) :
  Forall2 (fun call r => written_row py_str serde_dumps call = Some r) calls rows ->
  forall self,
    conn (put_all py_str json_extract serde_dumps calls self)
    = write_all rows (conn self).
Proof.
  induction 1 as [| [[config checkpoint] metadata] r calls rows Hw Hrest IH];
    intros self; [reflexivity |].
  cbn [put_all]. rewrite IH.
  assert (Hc := put_conn (config, checkpoint, metadata) r self Hw).
  cbn [fst snd] in Hc. rewrite Hc. reflexivity.
Qed.

End PutSequences.

(** X21.  For a store without duplicate keys and a locator with a
    thread: with a checkpoint id that is truthy (a string that is not
    empty), [get_tuple] answers the tuple of the row with exactly that
    key, or [None] when no row has it; with none, or a falsy one, the
    tuple of the row of the thread with the greatest id, or [None] when
    the thread has no row; and after puts to the thread with strictly
    increasing ids, all above the ids the thread had, it answers the tuple
    of the row written last. *)
Theorem get_tuple_exact_or_latest :
  forall (py_str : py_value -> string)
         (json_extract : bytes -> string -> result sql_value)
         (serde_dumps : py_value -> result bytes)
         (serde_loads : bytes -> result py_value)
         (config tid ts : py_value) (self : SqliteSaver),
    locator_thread_id config = Ok tid ->
    locator_thread_ts config = Ok ts ->
    pk_unique (conn self) ->
    let get := get_tuple py_str json_extract serde_loads config in
    (py_truthy ts = true ->
       (forall r, In r (conn self) -> key_of r = (py_str tid, py_str ts) ->
                  fst (get self) = (tup <- tuple_at serde_loads config tid r ;; Ok (Some tup)))
       /\ ((forall r, In r (conn self) -> key_of r <> (py_str tid, py_str ts)) ->
           fst (get self) = Ok None))
    /\ (py_truthy ts = false ->
          (forall r, In r (conn self) -> col_thread_id r = py_str tid ->
                     (forall r', In r' (conn self) -> col_thread_id r' = py_str tid ->
                                 String.ltb (col_thread_ts r) (col_thread_ts r') = false) ->
                     fst (get self) = (tup <- tuple_of_row serde_loads r ;; Ok (Some tup)))
          /\ ((forall r, In r (conn self) -> col_thread_id r <> py_str tid) ->
              fst (get self) = Ok None)
          /\ (forall calls front last,
                Forall2 (fun call r => written_row py_str serde_dumps call = Some r)
                        calls (front ++ [last]) ->
                Forall (fun r => col_thread_id r = py_str tid) (front ++ [last]) ->
                StronglySorted ts_lt (front ++ [last]) ->
                (forall r0, In r0 (conn self) -> col_thread_id r0 = py_str tid ->
                            Forall (ts_lt r0) (front ++ [last])) ->
                fst (get (put_all py_str json_extract serde_dumps calls self))
                = (tup <- tuple_of_row serde_loads last ;; Ok (Some tup)))).
Proof.
  intros py_str json_extract serde_dumps serde_loads config tid ts self Hid Hts Hu get.
  subst get. split.
  - intros Htruthy.
    rewrite (get_tuple_exact py_str json_extract serde_loads config tid ts self
               Hid Hts Htruthy). cbn [fst].
    split.
    + intros r Hr Hk.
      assert (Hk' : has_key (py_str tid) (py_str ts)
                    = has_key (col_thread_id r) (col_thread_ts r))
        by (unfold key_of in Hk; now injection Hk as -> ->).
      rewrite Hk', (filter_key_unique _ r Hu Hr). reflexivity.
    + intros Hnone.
      destruct (filter (has_key (py_str tid) (py_str ts)) (conn self)) as [| r rest] eqn:E;
        [reflexivity |].
      assert (Hr : In r (filter (has_key (py_str tid) (py_str ts)) (conn self)))
        by (rewrite E; now left).
      apply filter_In in Hr as [Hr Hk]. exfalso. apply (Hnone r Hr).
      unfold has_key in Hk. apply andb_prop in Hk as [H1 H2].
      apply String.eqb_eq in H1, H2. unfold key_of. now rewrite H1, H2.
  - intros Hfalsy. split; [| split].
    + intros r Hr Ht Hmax.
      rewrite (get_tuple_latest py_str json_extract serde_loads config tid ts self
                 Hid Hts Hfalsy). cbn [fst].
      destruct (latest_is_max (py_str tid) (conn self) r Hr Ht Hmax) as [rest ->];
        [| reflexivity].
      intros r' Hr' Hk. symmetry. now apply (pk_unique_same_key (conn self)).
    + intros Hnone.
      rewrite (get_tuple_latest py_str json_extract serde_loads config tid ts self
                 Hid Hts Hfalsy). cbn [fst].
      destruct (sort_desc (thread_rows (py_str tid) (conn self))) as [| r rest] eqn:E;
        [reflexivity |].
      assert (Hr : In r (sort_desc (thread_rows (py_str tid) (conn self))))
        by (rewrite E; now left).
      apply (proj1 (sort_desc_in _ _)) in Hr. apply filter_In in Hr as [Hr Ht].
      exfalso. apply (Hnone r Hr). now apply String.eqb_eq.
    + intros calls front last Hcalls Hthread Hsorted Hold.
      rewrite (get_tuple_latest py_str json_extract serde_loads config tid ts _
                 Hid Hts Hfalsy). cbn [fst].
      rewrite (put_all_conn py_str json_extract serde_dumps calls _ Hcalls).
      destruct (write_all_latest (py_str tid) front (conn self) last
                  Hthread Hsorted Hold) as [Hin [Hmax Honly]].
      assert (Hlast : col_thread_id last = py_str tid).
      { apply (proj1 (Forall_forall _ _) Hthread). apply in_or_app. right. now left. }
      destruct (latest_is_max (py_str tid) _ last Hin Hlast Hmax Honly) as [rest ->].
      reflexivity.
Qed.

Lemma get_tuple_exact_or_latest_witness :
  locator_thread_id (locator_at "1" "a") = Ok (PyStr "1")
  /\ locator_thread_ts (locator_at "1" "a") = Ok (PyStr "a")
  /\ pk_unique (conn sample_saver)
  /\ py_truthy (PyStr "a") = true
  /\ In sample_row_a (conn sample_saver)
  /\ key_of sample_row_a = (scalar_str (PyStr "1"), scalar_str (PyStr "a"))
  /\ fst (get_tuple scalar_str entry_extract entry_loads (locator_at "1" "a") sample_saver)
     = Ok (Some {| config := locator_at "1" "a"; checkpoint := PyStr "a";
                   metadata := PyStr "input"; parent_config := PyNone |}).
Proof.
  split; [reflexivity |]. split; [reflexivity |].
  split; [exact sample_table_unique |]. split; [reflexivity |].
  split; [now left |]. split; [reflexivity |].
  destruct (get_tuple_exact_or_latest scalar_str entry_extract entry_dumps entry_loads
              (locator_at "1" "a") (PyStr "1") (PyStr "a") sample_saver
              eq_refl eq_refl sample_table_unique) as [named _].
  destruct (named eq_refl) as [found _].
  rewrite (found sample_row_a (or_introl eq_refl) eq_refl). reflexivity.
Defined.

(** ** The claim on [put] *)

(** C2.  A [put] whose locator carries a thread and, as checkpoint id,
    nothing or a string, and whose checkpoint has a string [id], answers
    the locator of thread and [id], and leaves a store that holds the row
    keyed by the thread and the [id], its parent the checkpoint id of the
    locator (null when there is none), that is the only row with that key,
    and holds the other rows as they were.  Hence a put of checkpoint [a]
    to thread 1, then a put of [b] from the locator of [a], into a store
    whose ids of thread 1 do not exceed [b], makes [get_tuple] of thread 1
    answer the checkpoint [b] with [a] as parent. *)
Theorem put_keys_row_and_links_parent :
  forall (py_str : py_value -> string)
         (json_extract : bytes -> string -> result sql_value)
         (serde_dumps : py_value -> result bytes)
         (serde_loads : bytes -> result py_value),
    (forall config checkpoint metadata tid cid p parent ck md self,
        locator_thread_id config = Ok tid ->
        py_getitem checkpoint "id" = Ok (PyStr cid) ->
        locator_thread_ts config = Ok p ->
        parent_of p = Some parent ->
        serde_dumps checkpoint = Ok ck ->
        serde_dumps metadata = Ok md ->
        let r := {| col_thread_id := py_str tid; col_thread_ts := cid;
                    col_parent_ts := parent;
                    col_checkpoint := ck; col_metadata := Some md |} in
        let out := put py_str json_extract serde_dumps config checkpoint metadata self in
        fst out = Ok (configurable_of tid (PyStr cid))
        /\ In r (conn (snd out))
        /\ (forall r', In r' (conn (snd out)) -> key_of r' = (py_str tid, cid) -> r' = r)
        /\ (forall r', key_of r' <> (py_str tid, cid) ->
                       (In r' (conn (snd out)) <-> In r' (conn self))))
    /\ (forall cpa cpb m1 m2 cka mda ckb mdb self,
          py_str (PyStr "1") = "1" ->
          py_getitem cpa "id" = Ok (PyStr "a") ->
          py_getitem cpb "id" = Ok (PyStr "b") ->
          serde_dumps cpa = Ok cka -> serde_dumps m1 = Ok mda ->
          serde_dumps cpb = Ok ckb -> serde_dumps m2 = Ok mdb ->
          (forall r, In r (conn self) -> col_thread_id r = "1" ->
                     String.ltb "b" (col_thread_ts r) = false) ->
          let s1 := snd (put py_str json_extract serde_dumps
                           (thread_locator (PyStr "1")) cpa m1 self) in
          let s2 := snd (put py_str json_extract serde_dumps
                           (locator_at "1" "a") cpb m2 s1) in
          fst (get_tuple py_str json_extract serde_loads (thread_locator (PyStr "1")) s2)
          = (ck <- serde_loads ckb ;;
             md <- serde_loads mdb ;;
             Ok (Some {| config := locator_at "1" "b"; checkpoint := ck;
                         metadata := md; parent_config := locator_at "1" "a" |}))).
Proof.
  intros py_str json_extract serde_dumps serde_loads. split.
  - intros config checkpoint metadata tid cid p parent ck md self
           Hid Hcid Hp Hparent Hck Hmd r out.
    assert (Hw : written_row py_str serde_dumps (config, checkpoint, metadata) = Some r).
    { unfold written_row. rewrite Hid, Hp, Hcid, Hck, Hmd.
      destruct p; try discriminate; injection Hparent as <-; reflexivity. }
    subst out.
    rewrite (put_writes py_str json_extract serde_dumps _ _ _ tid r self Hid Hw).
    cbn [fst snd conn]. split; [reflexivity |].
    split; [apply insert_or_replace_in; now left |]. split.
    + intros r' Hr' Hk. exact (insert_or_replace_key r r' (conn self) Hr' Hk).
    + intros r' Hk. rewrite insert_or_replace_in. split.
      * intros [-> | [Hr' _]]; [now contradiction Hk | exact Hr'].
      * intros Hr'. right. auto.
  - intros cpa cpb m1 m2 cka mda ckb mdb self Hstr Ha Hb Hcka Hmda Hckb Hmdb Hold s1 s2.
    set (ra := {| col_thread_id := "1"; col_thread_ts := "a"; col_parent_ts := None;
                  col_checkpoint := cka; col_metadata := Some mda |}).
    set (rb := {| col_thread_id := "1"; col_thread_ts := "b"; col_parent_ts := Some "a";
                  col_checkpoint := ckb; col_metadata := Some mdb |}).
    assert (H1 : s1 = {| conn := insert_or_replace ra (conn self); is_setup := true |}).
    { subst s1. apply (put_conn py_str json_extract serde_dumps
                         (thread_locator (PyStr "1"), cpa, m1) ra self).
      unfold written_row. simpl. rewrite Ha, Hcka, Hmda, Hstr. reflexivity. }
    assert (H2 : s2 = {| conn := insert_or_replace rb (conn s1); is_setup := true |}).
    { subst s2. apply (put_conn py_str json_extract serde_dumps
                         (locator_at "1" "a", cpb, m2) rb s1).
      unfold written_row. simpl. rewrite Hb, Hckb, Hmdb, Hstr. reflexivity. }
    rewrite (get_tuple_latest py_str json_extract serde_loads
               (thread_locator (PyStr "1")) (PyStr "1") PyNone s2 eq_refl eq_refl eq_refl).
    cbn [fst]. rewrite Hstr, H2, H1. cbn [conn].
    destruct (latest_is_max "1" (insert_or_replace rb (insert_or_replace ra (conn self))) rb)
      as [rest ->].
    + apply insert_or_replace_in. now left.
    + reflexivity.
    + intros r' Hr' Ht. apply insert_or_replace_in in Hr' as [-> | [Hr' _]];
        [reflexivity |].
      apply insert_or_replace_in in Hr' as [-> | [Hr' _]]; [reflexivity |].
      now apply Hold.
    + intros r' Hr'. exact (insert_or_replace_key rb r' _ Hr').
    + unfold tuple_of_row, rb, locator_at. simpl.
      destruct (serde_loads ckb); simpl; [| reflexivity].
      destruct (serde_loads mdb); reflexivity.
Qed.

Lemma put_keys_row_and_links_parent_witness :
  scalar_str (PyStr "1") = "1"
  /\ py_getitem (PyDict [("id", PyStr "a")]) "id" = Ok (PyStr "a")
  /\ py_getitem (PyDict [("id", PyStr "b")]) "id" = Ok (PyStr "b")
  /\ (forall r, In r (conn {| conn := []; is_setup := false |}) ->
                col_thread_id r = "1" -> String.ltb "b" (col_thread_ts r) = false)
  /\ fst (get_tuple scalar_str entry_extract entry_loads (thread_locator (PyStr "1"))
            (snd (put scalar_str entry_extract entry_dumps (locator_at "1" "a")
                    (PyDict [("id", PyStr "b")]) (PyDict [("source", PyStr "loop")])
                    (snd (put scalar_str entry_extract entry_dumps
                            (thread_locator (PyStr "1"))
                            (PyDict [("id", PyStr "a")])
                            (PyDict [("source", PyStr "input")])
                            {| conn := []; is_setup := false |})))))
     = Ok (Some {| config := locator_at "1" "b"; checkpoint := PyStr "b";
                   metadata := PyStr "loop"; parent_config := locator_at "1" "a" |}).
Proof.
  split; [reflexivity |]. split; [reflexivity |]. split; [reflexivity |].
  split; [intros r [] |].
  rewrite (proj2 (put_keys_row_and_links_parent scalar_str entry_extract
                    entry_dumps entry_loads)
             (PyDict [("id", PyStr "a")]) (PyDict [("id", PyStr "b")])
             (PyDict [("source", PyStr "input")]) (PyDict [("source", PyStr "loop")])
             (list_byte_of_string "a") (list_byte_of_string "input")
             (list_byte_of_string "b") (list_byte_of_string "loop")
             {| conn := []; is_setup := false |}
             eq_refl eq_refl eq_refl eq_refl eq_refl eq_refl eq_refl
             (fun r (H : In r []) => match H with end)).
  reflexivity.
Defined.

(** ** The statement of [search], read back *)

Lemma strip_prefix_app (p s : string) : strip_prefix p (p ++ s) = Some s.
Proof.
  induction p as [| c p IH]; simpl; [reflexivity |].
  now rewrite Ascii.eqb_refl.
Qed.

Lemma read_literal_plain (k rest : string) :
  quote_free k = true ->
  read_literal (k ++ "') " ++ rest) = Ok (k, ") " ++ rest).
Proof.
  induction k as [| c k IH]; intros Hk.
  - reflexivity.
  - simpl in Hk. apply andb_prop in Hk as [Hc Hk]. apply negb_true_iff in Hc.
    specialize (IH Hk). simpl in IH. simpl. rewrite Hc, IH. reflexivity.
Qed.

Lemma parse_condition_clause (item : string * py_value) (rest : string) :
  quote_free (fst item) = true ->
  parse_condition (clause_text item ++ rest) = Ok (condition_of item, " " ++ rest).
Proof.
  destruct item as [k v]. cbn [fst]. intros Hk.
  unfold clause_text, condition_of, operator_of. cbn [fst snd].
  rewrite !string_app_assoc.
  change ("json_extract(CAST(metadata AS TEXT), '$." ++ k ++ "') "
            ++ (if is_none v then "IS ?" else "= ?") ++ " " ++ rest)
    with ("json_extract(CAST(metadata AS TEXT), '"
            ++ String "$" (String "." (k ++ "') "
            ++ (if is_none v then "IS ?" else "= ?") ++ " " ++ rest))).
  unfold parse_condition. rewrite strip_prefix_app.
  cbn [read_literal Ascii.eqb Bool.eqb].
  rewrite (read_literal_plain k _ Hk). cbn [rbind].
  destruct (is_none v); reflexivity.
Qed.

Lemma parse_condition_before (rest : string) :
  parse_condition ("thread_ts < ? " ++ rest) = Ok (CondLt KeyThreadTs, " " ++ rest).
Proof. reflexivity. Qed.

Lemma skip_spaces_clause (item : string * py_value) (rest : string) :
  skip_spaces (clause_text item ++ rest) = clause_text item ++ rest.
Proof. reflexivity. Qed.

Lemma parse_conditions_joined (texts : list string) (conds : list condition) :
  Forall2 reads_as texts conds ->
  texts <> [] ->
  forall (fuel : nat) (tail : string),
    (List.length texts <= fuel)%nat ->
    skip_spaces tail = tail ->
    strip_prefix "AND " tail = None ->
    parse_conditions fuel (String.concat "AND " texts ++ tail) = Ok (conds, tail).
Proof.
  induction 1 as [| text c texts conds [Hparse Hskip] Hrest IH]; intros Hne;
    [congruence |].
  intros fuel tail Hfuel Htail Hand.
  destruct fuel as [| fuel]; [simpl in Hfuel; lia |].
  destruct texts as [| text' texts'].
  - inversion Hrest; subst. cbn [String.concat parse_conditions].
    rewrite Hparse. cbn [rbind].
    change (skip_spaces (" " ++ tail)) with (skip_spaces tail).
    rewrite Htail, Hand. reflexivity.
  - change (String.concat "AND " (text :: text' :: texts'))
      with (text ++ "AND " ++ String.concat "AND " (text' :: texts')).
    rewrite !string_app_assoc. cbn [parse_conditions].
    rewrite Hparse. cbn [rbind].
    change (skip_spaces (" " ++ "AND " ++ String.concat "AND " (text' :: texts') ++ tail))
      with ("AND " ++ String.concat "AND " (text' :: texts') ++ tail).
    rewrite strip_prefix_app.
    assert (Hskip' : skip_spaces (String.concat "AND " (text' :: texts') ++ tail)
                     = String.concat "AND " (text' :: texts') ++ tail).
    { inversion Hrest as [| ? c' ? conds' [_ Hs'] _]; subst.
      destruct texts' as [| text'' texts''].
      - apply Hs'.
      - change (String.concat "AND " (text' :: text'' :: texts''))
          with (text' ++ "AND " ++ String.concat "AND " (text'' :: texts'')).
        rewrite !string_app_assoc. apply Hs'. }
    rewrite Hskip', IH; [reflexivity | discriminate | simpl in *; lia | exact Htail | exact Hand].
Qed.

Lemma concat_app_last (sep x : string) (l : list string) :
  l <> [] -> String.concat sep (l ++ [x]) = String.concat sep l ++ sep ++ x.
Proof.
  induction l as [| a l IH]; intros Hne; [congruence |].
  destruct l as [| b l'].
  - reflexivity.
  - change (String.concat sep ((a :: b :: l') ++ [x]))
      with (a ++ sep ++ String.concat sep ((b :: l') ++ [x])).
    rewrite IH by discriminate.
    change (String.concat sep (a :: b :: l'))
      with (a ++ sep ++ String.concat sep (b :: l')).
    now rewrite !string_app_assoc.
Qed.

Lemma concat_clauses_nonempty (item : string * py_value)
      (rest : list (string * py_value)) (tail : string) :
  ((String.concat "AND " (map clause_text (item :: rest)) ++ tail) =? "")%string = false.
Proof. destruct rest; reflexivity. Qed.

Section SearchWhere.

Variable py_str : py_value -> string.
Variable float_repr : spec_float -> string.

Lemma search_where_spec (metadata_filter : list (string * py_value))
      (before : option py_value) :
  search_where py_str float_repr metadata_filter before =
    (ps <- where_params py_str float_repr metadata_filter ;;
     match before with
     | None =>
         match metadata_filter with
         | [] => Ok ("", [])
         | _ => Ok ("WHERE " ++ String.concat "AND " (where_texts metadata_filter false), ps)
         end
     | Some b =>
         bts <- bound_thread_ts b ;;
         Ok ("WHERE " ++ String.concat "AND " (where_texts metadata_filter true),
             (ps ++ [bts])%list)
     end).
Proof.
  unfold search_where. rewrite metadata_predicate_spec.
  unfold where_texts, bound_thread_ts.
  destruct metadata_filter as [| item rest].
  - cbn [where_params rbind map String.concat app].
    destruct before as [b |]; [| reflexivity].
    simpl. destruct (py_getitem b "configurable") as [c |]; [| reflexivity].
    cbn [rbind]. destruct (py_getitem c "thread_ts"); reflexivity.
  - destruct (where_params py_str float_repr (item :: rest)) as [ps |]; [| reflexivity].
    cbn [rbind].
    set (joined := String.concat "AND " (map clause_text (item :: rest))).
    assert (Hne : (joined =? "")%string = false).
    { rewrite <- (string_app_nil_r joined). apply concat_clauses_nonempty. }
    rewrite Hne. cbn [negb]. destruct before as [b |].
    + destruct (py_getitem b "configurable") as [c |]; [| reflexivity].
      cbn [rbind]. destruct (py_getitem c "thread_ts") as [bts |]; [| reflexivity].
      cbn [rbind app].
      rewrite concat_app_last by discriminate. fold joined.
      rewrite string_app_assoc.
      assert (Hw : (("WHERE " ++ joined ++ "AND thread_ts < ? ") =? "WHERE ")%string = false)
        by (simpl; apply concat_clauses_nonempty).
      rewrite Hw. reflexivity.
    + cbn [rbind]. rewrite app_nil_r. fold joined.
      assert (Hw : (("WHERE " ++ joined) =? "WHERE ")%string = false).
      { simpl. rewrite <- (string_app_nil_r joined). apply concat_clauses_nonempty. }
      rewrite Hw. reflexivity.
Qed.

End SearchWhere.

Lemma reads_as_clause (item : string * py_value) :
  quote_free (fst item) = true -> reads_as (clause_text item) (condition_of item).
Proof.
  intros Hk. split; intros rest.
  - now apply parse_condition_clause.
  - apply skip_spaces_clause.
Qed.

Lemma reads_as_before : reads_as "thread_ts < ? " (CondLt KeyThreadTs).
Proof. split; intros rest; reflexivity. Qed.

Lemma reads_as_where (items : list (string * py_value)) (bounded : bool) :
  Forall (fun item => quote_free (fst item) = true) items ->
  Forall2 reads_as (where_texts items bounded) (where_conditions items bounded).
Proof.
  intros Hk. unfold where_texts, where_conditions. apply Forall2_app.
  - induction Hk as [| item items Hi Hitems IH]; simpl; constructor; auto.
    now apply reads_as_clause.
  - destruct bounded; repeat constructor; apply reads_as_before.
Qed.

Lemma reads_as_nonempty (text : string) (c : condition) :
  reads_as text c -> (1 <= String.length text)%nat.
Proof.
  intros [Hparse _]. destruct text; [| simpl; lia].
  specialize (Hparse ""). discriminate Hparse.
Qed.

Lemma concat_length_texts (sep : string) (texts : list string) :
  Forall (fun text => (1 <= String.length text)%nat) texts ->
  (List.length texts <= String.length (String.concat sep texts))%nat.
Proof.
  induction 1 as [| text texts Ht Hrest IH]; [simpl; lia |].
  destruct texts as [| text' texts'].
  - simpl. lia.
  - change (String.concat sep (text :: text' :: texts'))
      with (text ++ sep ++ String.concat sep (text' :: texts')).
    rewrite !string_app_length. simpl List.length in *. lia.
Qed.

Lemma skip_spaces_joined (texts : list string) (conds : list condition) (tail : string) :
  Forall2 reads_as texts conds -> texts <> [] ->
  skip_spaces (String.concat "AND " texts ++ tail) = String.concat "AND " texts ++ tail.
Proof.
  intros H Hne. destruct H as [| text c texts conds [_ Hs] Hrest]; [congruence |].
  destruct texts as [| text' texts'].
  - apply Hs.
  - change (String.concat "AND " (text :: text' :: texts'))
      with (text ++ "AND " ++ String.concat "AND " (text' :: texts')).
    rewrite !string_app_assoc. apply Hs.
Qed.

Lemma parse_search_tail (conds : list condition) (limit : option Z) :
  parse_order_limit all_columns conds
    ("ORDER BY thread_ts DESC "
       ++ (if limit_given limit then "LIMIT " ++ limit_text limit else ""))
  = Ok {| sel_columns := all_columns; sel_where := conds; sel_order_desc := true;
          sel_limit := if limit_given limit then limit else None |}.
Proof.
  unfold parse_order_limit. destruct limit as [n |]; [| reflexivity].
  simpl limit_given. destruct (negb (n =? 0)); [| reflexivity].
  cbn -[parse_int int_repr]. rewrite parse_int_repr. reflexivity.
Qed.

Lemma parse_statement_select (rest : string) :
  parse_statement (search_select ++ rest) =
    (st <- ('(conds, s) <-
              match strip_prefix "WHERE " (skip_spaces rest) with
              | Some s' => parse_conditions (S (String.length s')) (skip_spaces s')
              | None => Ok ([], skip_spaces rest)
              end ;;
            parse_order_limit all_columns conds (skip_spaces s)) ;;
     Ok (Select st)).
Proof. reflexivity. Qed.

Lemma parse_search (items : list (string * py_value)) (bounded : bool)
      (limit : option Z) :
  Forall (fun item => quote_free (fst item) = true) items ->
  parse_statement
    (search_select
       ++ match where_texts items bounded with
          | [] => ""
          | texts => "WHERE " ++ String.concat "AND " texts
          end
       ++ "ORDER BY thread_ts DESC "
       ++ (if limit_given limit then "LIMIT " ++ limit_text limit else ""))
  = Ok (Select {| sel_columns := all_columns;
                  sel_where := where_conditions items bounded;
                  sel_order_desc := true;
                  sel_limit := if limit_given limit then limit else None |}).
Proof.
  intros Hk.
  assert (Hreads := reads_as_where items bounded Hk).
  rewrite parse_statement_select.
  set (tail := "ORDER BY thread_ts DESC "
                 ++ (if limit_given limit then "LIMIT " ++ limit_text limit else "")).
  assert (Htail : skip_spaces tail = tail) by reflexivity.
  assert (Hand : strip_prefix "AND " tail = None) by reflexivity.
  assert (Hwhere : strip_prefix "WHERE " tail = None) by reflexivity.
  destruct (where_texts items bounded) as [| text texts] eqn:Htexts.
  - inversion Hreads as [Hc |]; subst.
    change ("" ++ tail) with tail. rewrite Htail, Hwhere. cbn [rbind].
    rewrite Htail. unfold tail. rewrite parse_search_tail. reflexivity.
  - set (joined := String.concat "AND " (text :: texts)) in *.
    rewrite string_app_assoc.
    change (skip_spaces ("WHERE " ++ joined ++ tail)) with ("WHERE " ++ joined ++ tail).
    rewrite strip_prefix_app. unfold joined.
    rewrite (skip_spaces_joined (text :: texts) _ tail Hreads) by discriminate.
    rewrite (parse_conditions_joined (text :: texts) _ Hreads); try discriminate;
      try assumption.
    + cbn [rbind]. rewrite Htail. unfold tail. rewrite parse_search_tail. reflexivity.
    + rewrite string_app_length.
      assert (Hlen := concat_length_texts "AND " (text :: texts)).
      assert (Hall : Forall (fun t => (1 <= String.length t)%nat) (text :: texts)).
      { clear - Hreads. induction Hreads; constructor; auto.
        eapply reads_as_nonempty; eauto. }
      specialize (Hlen Hall). lia.
Qed.

(** ** What [search] computes *)

Lemma bind_params_app (ps qs : list py_value) (sps sqs : list sql_value) :
  bind_params ps = Ok sps -> bind_params qs = Ok sqs ->
  bind_params (ps ++ qs) = Ok (sps ++ sqs)%list.
Proof.
  revert sps. induction ps as [| p ps IH]; intros sps Hp Hq; simpl in *.
  - invert_ok. exact Hq.
  - destruct (bind_param p); simpl in *; [| discriminate].
    destruct (bind_params ps); simpl in *; [| discriminate].
    invert_ok. now rewrite (IH _ eq_refl Hq).
Qed.

Lemma bind_params_length (ps : list py_value) :
  forall sps, bind_params ps = Ok sps -> List.length sps = List.length ps.
Proof.
  induction ps as [| p ps IH]; intros sps H; simpl in H.
  - invert_ok. reflexivity.
  - destruct (bind_param p); simpl in H; [| discriminate].
    destruct (bind_params ps); simpl in H; [| discriminate].
    invert_ok. simpl. now rewrite (IH _ eq_refl).
Qed.

Section SearchFacts.

Variable py_str : py_value -> string.
Variable float_repr : spec_float -> string.
Variable json_extract : bytes -> string -> result sql_value.
Variable serde_loads : bytes -> result py_value.

Lemma eval_where_items (r : row) (items : list (string * py_value)) :
  forall (ps : list sql_value) (cs : list condition) (qs : list sql_value),
    List.length ps = List.length items ->
    Forall (fun item => exists v,
                extract_metadata json_extract r ("$." ++ fst item) = Ok v) items ->
    eval_where json_extract (map condition_of items ++ cs) (ps ++ qs) r =
      if matches_all json_extract r items ps
      then eval_where json_extract cs qs r
      else Ok false.
Proof.
  induction items as [| item items IH]; intros ps cs qs Hlen Hex.
  - destruct ps; [reflexivity | discriminate].
  - destruct ps as [| p ps]; [discriminate |].
    inversion Hex as [| ? ? [v Hv] Hrest]; subst.
    cbn [map app eval_where matches_all]. unfold item_matches, condition_of.
    destruct (is_none (snd item)); cbn [eval_condition]; rewrite Hv; cbn [rbind].
    + destruct (sql_is v p); [| reflexivity].
      apply IH; [simpl in Hlen; lia | exact Hrest].
    + destruct (sql_equal v p); [| reflexivity].
      apply IH; [simpl in Hlen; lia | exact Hrest].
Qed.

(** [search] yields the tuples of the rows it selects; a limit that is
    no 64-bit integer makes the statement fail. *)
Lemma search_yields (metadata_filter : list (string * py_value))
      (before : option py_value) (bound : option string) (limit : option Z)
      (ps : list py_value) (sps : list sql_value) (self : SqliteSaver) :
  Forall (fun item => quote_free (fst item) = true) metadata_filter ->
  where_params py_str float_repr metadata_filter = Ok ps ->
  bind_params ps = Ok sps ->
  match before with
  | None => bound = None
  | Some b => exists x, bound_thread_ts b = Ok (PyStr x) /\ bound = Some x
  end ->
  Forall (fun r => Forall (fun item => exists v,
                              extract_metadata json_extract r ("$." ++ fst item) = Ok v)
                          metadata_filter) (conn self) ->
  search py_str float_repr json_extract serde_loads metadata_filter before limit self =
    (if limit_fits limit
     then yield_all serde_loads
            (search_rows json_extract metadata_filter sps bound limit (conn self))
     else {| yielded := []; raised := Some IntegrityError |},
     {| conn := conn self; is_setup := true |}).
Proof.
  intros Hk Hps Hsps Hb Hex.
  assert (Hlen : List.length sps = List.length metadata_filter).
  { rewrite (bind_params_length ps sps Hsps).
    apply (where_params_length py_str float_repr _ _ Hps). }
  set (bounded := match before with Some _ => true | None => false end).
  assert (Hparse := parse_search metadata_filter bounded limit Hk).
  unfold search. rewrite search_where_spec, Hps. cbn [rbind].
  assert (Hrun : forall (qs : list sql_value) (f : row -> bool),
             (forall r, eval_where json_extract (if bounded then [CondLt KeyThreadTs] else [])
                          qs r = Ok (f r)) ->
             List.length qs = (if bounded then 1 else 0)%nat ->
             run_select json_extract
               {| sel_columns := all_columns;
                  sel_where := where_conditions metadata_filter bounded;
                  sel_order_desc := true;
                  sel_limit := if limit_given limit then limit else None |}
               (sps ++ qs) (conn self)
             = if limit_fits limit
               then Ok (map (fun r => map (column_of r) all_columns)
                          (apply_limit (effective_limit limit)
                             (sort_desc
                                (filter (fun r => matches_all json_extract r
                                                    metadata_filter sps
                                                  && f r) (conn self)))))
               else Raise IntegrityError).
  { intros qs f Hf Hq. apply run_select_limit.
    - unfold where_conditions.
      rewrite !length_app, length_map, Hlen, Hq. destruct bounded; reflexivity.
    - intros r Hr. unfold where_conditions.
      rewrite (eval_where_items r metadata_filter sps _ qs Hlen
                 (proj1 (Forall_forall _ _) Hex r Hr)).
      destruct (matches_all json_extract r metadata_filter sps); [apply Hf | reflexivity]. }
  destruct before as [b |].
  - destruct Hb as [x [Hx ->]]. rewrite Hx. cbn [rbind].
    unfold generate. rewrite setup_done. cbn [conn is_setup rbind].
    unfold sqlite_execute.
    change ("SELECT thread_id, thread_ts, parent_ts, checkpoint, metadata FROM checkpoints ")
      with search_select.
    assert (Hw : where_texts metadata_filter true <> []).
    { unfold where_texts. destruct (map clause_text metadata_filter); discriminate. }
    subst bounded. cbn iota in Hparse, Hrun.
    destruct (where_texts metadata_filter true) as [| text texts] eqn:Htexts;
      [congruence |].
    rewrite Hparse.
    rewrite (bind_params_app ps [PyStr x] sps [SqlText x] Hsps eq_refl). cbn [rbind].
    rewrite (Hrun [SqlText x] (before_ts x)); [| | reflexivity].
    + destruct (limit_fits limit); [| reflexivity].
      cbn [rbind]. rewrite map_cursor_row, yield_rows_cursor. reflexivity.
    + intros r. unfold before_ts. simpl.
      destruct (String.ltb (col_thread_ts r) x); reflexivity.
  - subst bound. subst bounded. cbn iota in Hparse, Hrun.
    assert (Hrows : run_select json_extract
               {| sel_columns := all_columns;
                  sel_where := where_conditions metadata_filter false;
                  sel_order_desc := true;
                  sel_limit := if limit_given limit then limit else None |}
               sps (conn self)
             = if limit_fits limit
               then Ok (map (fun r => map (column_of r) all_columns)
                          (search_rows json_extract metadata_filter sps None limit
                             (conn self)))
               else Raise IntegrityError).
    { rewrite <- (app_nil_r sps) at 1.
      rewrite (Hrun [] (fun _ => true)); [reflexivity | reflexivity | reflexivity]. }
    destruct metadata_filter as [| item rest].
    + simpl in Hps. invert_ok. simpl in Hsps. invert_ok.
      unfold generate. rewrite setup_done. cbn [conn is_setup rbind].
      unfold sqlite_execute.
      change ("SELECT thread_id, thread_ts, parent_ts, checkpoint, metadata FROM checkpoints ")
        with search_select.
      unfold where_texts in Hparse. cbn [map app] in Hparse.
      rewrite Hparse. cbn [bind_params rbind]. rewrite Hrows.
      destruct (limit_fits limit); [| reflexivity]. cbn [rbind].
      rewrite map_cursor_row, yield_rows_cursor. reflexivity.
    + unfold generate. rewrite setup_done. cbn [conn is_setup rbind].
      unfold sqlite_execute.
      change ("SELECT thread_id, thread_ts, parent_ts, checkpoint, metadata FROM checkpoints ")
        with search_select.
      destruct (where_texts (item :: rest) false) as [| text texts] eqn:Htexts;
        [discriminate |].
      rewrite Hparse, Hsps. cbn [rbind]. rewrite Hrows.
      destruct (limit_fits limit); [| reflexivity]. cbn [rbind].
      rewrite map_cursor_row, yield_rows_cursor. reflexivity.
Qed.

End SearchFacts.





(** ** The key is unique *)

Lemma pk_unique_empty : pk_unique [].
Proof. constructor. Qed.


Section KeyFacts.

Variable py_str : py_value -> string.
Variable float_repr : spec_float -> string.
Variable json_extract : bytes -> string -> result sql_value.
Variable serde_dumps : py_value -> result bytes.
Variable serde_loads : bytes -> result py_value.








End KeyFacts.

Lemma insert_or_replace_only (r : row) (t : table) :
  filter (has_key (col_thread_id r) (col_thread_ts r)) (insert_or_replace r t) = [r].
Proof.
  unfold insert_or_replace. rewrite filter_app.
  assert (Hnone : filter (has_key (col_thread_id r) (col_thread_ts r))
                    (filter (fun x => negb (same_key x r)) t) = []).
  { induction t as [| x t IH]; simpl; [reflexivity |].
    destruct (same_key x r) eqn:E; simpl; [exact IH |].
    change (has_key (col_thread_id r) (col_thread_ts r) x) with (same_key x r).
    now rewrite E. }
  rewrite Hnone. simpl.
  change (has_key (col_thread_id r) (col_thread_ts r) r) with (same_key r r).
  now rewrite (proj2 (same_key_iff r r) eq_refl).
Qed.





(** C3.  The claim, and the docstring of [get_tuple]: a locator that
    carries a checkpoint id gets the checkpoint of exactly that id.  The
    code goes by the truth value of the id, not by its presence.  A [put]
    of a checkpoint whose id is the empty string stores the row and
    answers the locator of thread 1 and [""]; after a second [put], of
    the checkpoint [a], the store holds both rows, and [get_tuple] on the
    locator the first [put] answered does not find the checkpoint it
    names: it answers the checkpoint [a], the latest of the thread. *)
Theorem get_tuple_empty_id_answers_latest :
  fst empty_id_put = Ok (locator_at "1" "")
  /\ map key_of (conn empty_id_saver) = [("1", ""); ("1", "a")]
  /\ fst (get_tuple scalar_str entry_extract entry_loads (locator_at "1" "")
            empty_id_saver)
     = Ok (Some {| config := locator_at "1" "a"; checkpoint := PyStr "a";
                   metadata := PyStr ""; parent_config := PyNone |})
  /\ fst (get_tuple scalar_str entry_extract entry_loads (locator_at "1" "")
            empty_id_saver)
     <> Ok (Some {| config := locator_at "1" ""; checkpoint := PyStr "";
                    metadata := PyStr ""; parent_config := PyNone |}).
Proof.
  split; [reflexivity |]. split; [reflexivity |].
  split; [reflexivity | discriminate].
Qed.

(** * Further properties of the saver *)

(** ** [put] as a whole *)

Lemma run_insert_row (ps : list sql_value) (t : table) :
  run_insert ps t = (r <- insert_row ps ;; Ok (insert_or_replace r t)).
Proof.
  unfold run_insert, insert_row.
  destruct ps as [| p1 [| p2 [| p3 [| p4 [| p5 [| p6 ps]]]]]]; try reflexivity.
  destruct (store_text p1) as [x |]; cbn [rbind]; [| reflexivity].
  destruct (not_null x); cbn [rbind]; [| reflexivity].
  destruct (store_text p2) as [y |]; cbn [rbind]; [| reflexivity].
  destruct (not_null y); cbn [rbind]; [| reflexivity].
  destruct (store_text p3); cbn [rbind]; [| reflexivity].
  destruct (store_blob p4) as [[b |] |]; cbn [rbind]; try reflexivity.
  destruct (store_blob p5); reflexivity.
Qed.

Lemma insert_or_replace_twice (r : row) (t : table) :
  insert_or_replace r (insert_or_replace r t) = insert_or_replace r t.
Proof.
  unfold insert_or_replace. rewrite filter_app. simpl.
  rewrite (proj2 (same_key_iff r r) eq_refl). simpl. rewrite app_nil_r.
  f_equal. induction t as [| x t IH]; simpl; [reflexivity |].
  destruct (negb (same_key x r)) eqn:E; simpl; [rewrite E, IH |]; auto.
Qed.

Section PutFacts.

Variable py_str : py_value -> string.
Variable json_extract : bytes -> string -> result sql_value.
Variable serde_dumps : py_value -> result bytes.

(** What [put] answers and what it leaves, from the row it builds. *)
Lemma put_effect (config checkpoint metadata : py_value) (self : SqliteSaver) :
  put py_str json_extract serde_dumps config checkpoint metadata self =
    (_ <- put_row py_str serde_dumps config checkpoint metadata ;;
     thread_id <- locator_thread_id config ;;
     id <- py_getitem checkpoint "id" ;;
     Ok (configurable_of thread_id id),
     {| conn := match put_row py_str serde_dumps config checkpoint metadata with
                | Ok r => insert_or_replace r (conn self)
                | Raise _ => conn self
                end;
        is_setup := true |}).
Proof.
  unfold put, cursor, put_row, locator_thread_id. rewrite setup_done.
  cbn [conn is_setup].
  destruct (py_getitem config "configurable") as [c |]; cbn [rbind]; [| reflexivity].
  destruct (py_getitem c "thread_id") as [tid |]; cbn [rbind]; [| reflexivity].
  destruct (py_getitem checkpoint "id") as [id |]; cbn [rbind]; [| reflexivity].
  destruct (py_get c "thread_ts") as [p |]; cbn [rbind]; [| reflexivity].
  destruct (serde_dumps checkpoint) as [ck |]; cbn [rbind]; [| reflexivity].
  destruct (serde_dumps metadata) as [md |]; cbn [rbind]; [| reflexivity].
  unfold sqlite_execute. rewrite parse_insert. cbn [rbind].
  destruct (bind_params [PyStr (py_str tid); id; p; PyBytes ck; PyBytes md]) as [ps |];
    cbn [rbind]; [| reflexivity].
  rewrite run_insert_row.
  destruct (insert_row ps) as [r |]; reflexivity.
Qed.

Lemma put_row_thread (config checkpoint metadata tid : py_value) (r : row) :
  locator_thread_id config = Ok tid ->
  put_row py_str serde_dumps config checkpoint metadata = Ok r ->
  col_thread_id r = py_str tid.
Proof.
  unfold locator_thread_id, put_row. intros Hid H.
  destruct (py_getitem config "configurable") as [c |]; cbn [rbind] in *; [| discriminate].
  rewrite Hid in H. cbn [rbind] in H.
  destruct (py_getitem checkpoint "id") as [id |]; cbn [rbind] in H; [| discriminate].
  destruct (py_get c "thread_ts") as [p |]; cbn [rbind] in H; [| discriminate].
  destruct (serde_dumps checkpoint) as [ck |]; cbn [rbind] in H; [| discriminate].
  destruct (serde_dumps metadata) as [md |]; cbn [rbind] in H; [| discriminate].
  cbn [bind_params bind_param rbind] in H.
  destruct (bind_param id) as [x |]; cbn [rbind] in H; [| discriminate].
  destruct (bind_param p) as [y |]; cbn [rbind] in H; [| discriminate].
  unfold insert_row in H. cbn [store_text not_null store_blob rbind] in H.
  destruct (store_text x) as [x' |]; cbn [rbind] in H; [| discriminate].
  destruct (not_null x'); cbn [rbind] in H; [| discriminate].
  destruct (store_text y); cbn [rbind] in H; [| discriminate].
  injection H as <-. reflexivity.
Qed.

End PutFacts.

Section PutRowFacts.

Variable py_str : py_value -> string.
Variable serde_dumps : py_value -> result bytes.



End PutRowFacts.



(** X2.  Repeating a [put] with the same arguments changes nothing: the
    second call gives the same answer, or raises the same exception,
    and leaves the saver as the first call left it. *)
Theorem put_again_changes_nothing :
  forall (py_str : py_value -> string)
         (json_extract : bytes -> string -> result sql_value)
         (serde_dumps : py_value -> result bytes)
         (config checkpoint metadata : py_value) (self : SqliteSaver),
    let once := put py_str json_extract serde_dumps config checkpoint metadata self in
    put py_str json_extract serde_dumps config checkpoint metadata (snd once) = once.
Proof.
  intros py_str json_extract serde_dumps config checkpoint metadata self once.
  subst once. rewrite !put_effect. cbn [snd conn]. f_equal.
  destruct (put_row py_str serde_dumps config checkpoint metadata) as [r |];
    [| reflexivity].
  now rewrite insert_or_replace_twice.
Qed.

(** X3.  A checkpoint that has no [id] entry is refused with
    [KeyError('id')] before anything is serialized or written: the
    table is as it was. *)
Theorem put_checkpoint_without_id_raises :
  forall (py_str : py_value -> string)
         (json_extract : bytes -> string -> result sql_value)
         (serde_dumps : py_value -> result bytes)
         (config metadata tid : py_value) (items : list (string * py_value))
         (self : SqliteSaver),
    locator_thread_id config = Ok tid ->
    assoc "id" items = None ->
    put py_str json_extract serde_dumps config (PyDict items) metadata self =
      (Raise (KeyError "id"), {| conn := conn self; is_setup := true |}).
Proof.
  intros py_str json_extract serde_dumps config metadata tid items self Htid Hid.
  rewrite put_effect. unfold put_row. unfold locator_thread_id in Htid.
  destruct (py_getitem config "configurable") as [c |]; cbn [rbind] in *;
    [| discriminate].
  rewrite Htid. cbn [rbind].
  assert (Hget : py_getitem (PyDict items) "id" = Raise (KeyError "id"))
    by (unfold py_getitem; now rewrite Hid).
  rewrite Hget. reflexivity.
Qed.

Lemma put_checkpoint_without_id_raises_witness :
  put scalar_str entry_extract entry_dumps (thread_locator (PyStr "1"))
      (PyDict [("v", PyInt 1)]) (PyDict []) sample_saver =
    (Raise (KeyError "id"), {| conn := conn sample_saver; is_setup := true |}).
Proof.
  apply (put_checkpoint_without_id_raises scalar_str entry_extract entry_dumps
           (thread_locator (PyStr "1")) (PyDict []) (PyStr "1") [("v", PyInt 1)]
           sample_saver); reflexivity.
Defined.

(** ** Locators and bounds that miss an entry *)

(** X4.  A locator whose [configurable] has no [thread_id] is refused
    with [KeyError('thread_id')] by [get_tuple], by [list] (through the
    generator, which yields nothing) and by [put]; the table is as it
    was. *)
Theorem locator_without_thread_id_raises :
  forall (py_str : py_value -> string)
         (json_extract : bytes -> string -> result sql_value)
         (serde_dumps : py_value -> result bytes)
         (serde_loads : bytes -> result py_value)
         (config : py_value) (items : list (string * py_value))
         (before : option py_value) (limit : option Z)
         (checkpoint metadata : py_value) (self : SqliteSaver),
    py_getitem config "configurable" = Ok (PyDict items) ->
    assoc "thread_id" items = None ->
    get_tuple py_str json_extract serde_loads config self =
      (Raise (KeyError "thread_id"), {| conn := conn self; is_setup := true |})
    /\ list_ py_str json_extract serde_loads config before limit self =
         ({| yielded := []; raised := Some (KeyError "thread_id") |},
          {| conn := conn self; is_setup := true |})
    /\ put py_str json_extract serde_dumps config checkpoint metadata self =
         (Raise (KeyError "thread_id"), {| conn := conn self; is_setup := true |}).
Proof.
  intros py_str json_extract serde_dumps serde_loads config items before limit
         checkpoint metadata self Hc Hid.
  assert (Hget : py_getitem (PyDict items) "thread_id" = Raise (KeyError "thread_id"))
    by (unfold py_getitem; now rewrite Hid).
  split; [| split].
  - unfold get_tuple, cursor, get_tuple_body. rewrite setup_done. cbn [conn is_setup].
    rewrite Hc. cbn [rbind].
    destruct (py_get (PyDict items) "thread_ts") as [ts |] eqn:Hts;
      [| unfold py_get in Hts; destruct (assoc "thread_ts" items); discriminate].
    cbn [rbind]. rewrite Hget. destruct (py_truthy ts); reflexivity.
  - unfold list_, generate. rewrite setup_done. cbn [conn is_setup].
    rewrite Hc. cbn [rbind]. rewrite Hget. destruct before; reflexivity.
  - rewrite put_effect. unfold put_row. rewrite Hc. cbn [rbind]. rewrite Hget.
    reflexivity.
Qed.

Lemma locator_without_thread_id_raises_witness :
  get_tuple scalar_str entry_extract entry_loads
            (PyDict [("configurable", PyDict [("thread_ts", PyStr "a")])]) sample_saver =
    (Raise (KeyError "thread_id"), {| conn := conn sample_saver; is_setup := true |}).
Proof.
  apply (locator_without_thread_id_raises scalar_str entry_extract entry_dumps entry_loads
           (PyDict [("configurable", PyDict [("thread_ts", PyStr "a")])])
           [("thread_ts", PyStr "a")] None None (PyDict []) (PyDict []) sample_saver);
    reflexivity.
Defined.

(** X5.  A [before] locator that lacks [configurable] or [thread_ts]
    makes both [search] and [list] end with the exception of the lookup
    and yield nothing, but at different moments: [search] builds its
    clause before it touches the database and leaves the saver exactly
    as it was, schema flag included; [list] builds its parameters under
    the cursor, when the schema has been set up. *)
Theorem bad_bound_search_untouched_list_set_up :
  forall (py_str : py_value -> string) (float_repr : spec_float -> string)
         (json_extract : bytes -> string -> result sql_value)
         (serde_loads : bytes -> result py_value)
         (metadata_filter : list (string * py_value)) (ps : list py_value)
         (config tid b : py_value) (e : py_exception)
         (limit : option Z) (self : SqliteSaver),
    bound_thread_ts b = Raise e ->
    where_params py_str float_repr metadata_filter = Ok ps ->
    locator_thread_id config = Ok tid ->
    search py_str float_repr json_extract serde_loads metadata_filter (Some b) limit self =
      ({| yielded := []; raised := Some e |}, self)
    /\ list_ py_str json_extract serde_loads config (Some b) limit self =
         ({| yielded := []; raised := Some e |},
          {| conn := conn self; is_setup := true |}).
Proof.
  intros py_str float_repr json_extract serde_loads metadata_filter ps config tid b e
         limit self Hb Hps Htid.
  split.
  - unfold search. rewrite search_where_spec, Hps. cbn [rbind]. rewrite Hb.
    reflexivity.
  - unfold list_, generate. rewrite setup_done. cbn [conn is_setup].
    unfold locator_thread_id in Htid. unfold bound_thread_ts in Hb.
    destruct (py_getitem config "configurable") as [c |]; cbn [rbind] in *;
      [| discriminate].
    rewrite Htid. cbn [rbind].
    destruct (py_getitem b "configurable") as [cb |]; cbn [rbind] in *.
    + rewrite Hb. reflexivity.
    + injection Hb as <-. reflexivity.
Qed.

Lemma bad_bound_search_untouched_list_set_up_witness :
  search scalar_str half_repr entry_extract entry_loads [("source", PyStr "a")]
         (Some (PyDict [("configurable", PyDict [])])) None
         {| conn := sample_table; is_setup := false |} =
    ({| yielded := []; raised := Some (KeyError "thread_ts") |},
     {| conn := sample_table; is_setup := false |})
  /\ list_ scalar_str entry_extract entry_loads (thread_locator (PyStr "1"))
           (Some (PyDict [("configurable", PyDict [])])) None
           {| conn := sample_table; is_setup := false |} =
       ({| yielded := []; raised := Some (KeyError "thread_ts") |},
        {| conn := sample_table; is_setup := true |}).
Proof.
  apply (bad_bound_search_untouched_list_set_up scalar_str half_repr entry_extract
           entry_loads [("source", PyStr "a")] [PyStr "a"]
           (thread_locator (PyStr "1")) (PyStr "1")
           (PyDict [("configurable", PyDict [])]) (KeyError "thread_ts") None
           {| conn := sample_table; is_setup := false |}); reflexivity.
Defined.

(** ** [put] and the reads that follow it *)

Lemma filter_insert_other (f : row -> bool) (a : string) (r : row) (t : table) :
  (forall x, f x = true -> col_thread_id x = a) ->
  col_thread_id r <> a ->
  filter f (insert_or_replace r t) = filter f t.
Proof.
  intros Hf Hr. unfold insert_or_replace. rewrite filter_app. simpl.
  destruct (f r) eqn:E; [exfalso; apply Hr; now apply Hf |].
  rewrite app_nil_r. induction t as [| x t IH]; simpl; [reflexivity |].
  destruct (f x) eqn:Ex.
  - assert (Hx : same_key x r = false).
    { apply not_true_iff_false. intros Hk. apply same_key_iff in Hk.
      apply Hr. unfold key_of in Hk. injection Hk as <- _. now apply Hf. }
    rewrite Hx. simpl. now rewrite Ex, IH.
  - destruct (negb (same_key x r)); simpl; [rewrite Ex |]; exact IH.
Qed.

Lemma locator_thread_ts_total (config tid : py_value) :
  locator_thread_id config = Ok tid -> exists ts, locator_thread_ts config = Ok ts.
Proof.
  unfold locator_thread_id, locator_thread_ts.
  destruct (py_getitem config "configurable") as [c |]; cbn [rbind]; [| discriminate].
  destruct c; try discriminate. unfold py_get.
  destruct (assoc "thread_ts" _); eauto.
Qed.

(** X6.  What [put] answers finds what [put] wrote.  After a [put] of a
    checkpoint with a non-empty string [id], [get_tuple] on the locator
    the [put] returned answers a tuple with that locator as [config],
    the checkpoint and the metadata as the serializer reads back what it
    wrote, and as parent the checkpoint id of the locator the [put] was
    given (none when it had none or an empty one); whatever the store
    held before. *)
Theorem put_then_get_round_trip :
  forall (py_str : py_value -> string)
         (json_extract : bytes -> string -> result sql_value)
         (serde_dumps : py_value -> result bytes)
         (serde_loads : bytes -> result py_value)
         (config checkpoint metadata tid p : py_value) (cid : string)
         (parent : option string) (ck md : bytes) (ck' md' : py_value)
         (self : SqliteSaver),
    locator_thread_id config = Ok tid ->
    locator_thread_ts config = Ok p ->
    parent_of p = Some parent ->
    py_getitem checkpoint "id" = Ok (PyStr cid) ->
    cid <> "" ->
    py_str (PyStr cid) = cid ->
    serde_dumps checkpoint = Ok ck ->
    serde_dumps metadata = Ok md ->
    serde_loads ck = Ok ck' ->
    serde_loads md = Ok md' ->
    let out := put py_str json_extract serde_dumps config checkpoint metadata self in
    let loc := configurable_of tid (PyStr cid) in
    fst out = Ok loc
    /\ fst (get_tuple py_str json_extract serde_loads loc (snd out)) =
         Ok (Some {| config := loc; checkpoint := ck'; metadata := md';
                     parent_config :=
                       match parent with
                       | Some a => if (a =? "")%string then PyNone
                                   else configurable_of tid (PyStr a)
                       | None => PyNone
                       end |}).
Proof.
  intros py_str json_extract serde_dumps serde_loads config checkpoint metadata tid p cid
         parent ck md ck' md' self Htid Hp Hparent Hcid Hne Hstr Hck Hmd Hck' Hmd' out loc.
  set (r := {| col_thread_id := py_str tid; col_thread_ts := cid;
               col_parent_ts := parent;
               col_checkpoint := ck; col_metadata := Some md |}).
  assert (Hw : written_row py_str serde_dumps (config, checkpoint, metadata) = Some r).
  { unfold written_row. rewrite Htid, Hp, Hcid, Hck, Hmd.
    destruct p; try discriminate; injection Hparent as <-; reflexivity. }
  subst out.
  rewrite (put_writes py_str json_extract serde_dumps _ _ _ tid r self Htid Hw).
  cbn [fst snd]. split; [reflexivity |].
  assert (Htruthy : py_truthy (PyStr cid) = true).
  { destruct cid; [now contradiction Hne | reflexivity]. }
  rewrite (get_tuple_exact py_str json_extract serde_loads loc tid (PyStr cid) _
             eq_refl eq_refl Htruthy).
  cbn [fst conn]. rewrite Hstr.
  change (has_key (py_str tid) cid) with (has_key (col_thread_id r) (col_thread_ts r)).
  rewrite insert_or_replace_only. unfold tuple_at. cbn [r col_checkpoint col_metadata
    col_parent_ts]. rewrite Hck', Hmd'. reflexivity.
Qed.

Lemma put_then_get_round_trip_witness :
  fst (put scalar_str entry_extract entry_dumps (locator_at "1" "b")
           (PyDict [("id", PyStr "c")]) (PyDict []) sample_saver)
    = Ok (locator_at "1" "c")
  /\ fst (get_tuple scalar_str entry_extract entry_loads (locator_at "1" "c")
            (snd (put scalar_str entry_extract entry_dumps (locator_at "1" "b")
                      (PyDict [("id", PyStr "c")]) (PyDict []) sample_saver)))
     = Ok (Some {| config := locator_at "1" "c"; checkpoint := PyStr "c";
                   metadata := PyStr ""; parent_config := locator_at "1" "b" |}).
Proof.
  apply (put_then_get_round_trip scalar_str entry_extract entry_dumps entry_loads
           (locator_at "1" "b") (PyDict [("id", PyStr "c")]) (PyDict [])
           (PyStr "1") (PyStr "b") "c" (Some "b")
           (list_byte_of_string "c") [] (PyStr "c") (PyStr "") sample_saver);
    try reflexivity.
  discriminate.
Defined.

(** X7.  Threads are isolated.  A [put] to one thread, whether it
    succeeds or raises, changes nothing that [get_tuple] or [list]
    answer for a locator of a thread with a different [str]. *)
Theorem put_leaves_other_threads :
  forall (py_str : py_value -> string)
         (json_extract : bytes -> string -> result sql_value)
         (serde_dumps : py_value -> result bytes)
         (serde_loads : bytes -> result py_value)
         (config checkpoint metadata tid other tid' : py_value)
         (before : option py_value) (bound : option string) (limit : option Z)
         (self : SqliteSaver),
    locator_thread_id config = Ok tid ->
    locator_thread_id other = Ok tid' ->
    py_str tid <> py_str tid' ->
    match before with
    | None => bound = None
    | Some b => exists x, bound_thread_ts b = Ok (PyStr x) /\ bound = Some x
    end ->
    let self' := snd (put py_str json_extract serde_dumps config checkpoint metadata self) in
    fst (get_tuple py_str json_extract serde_loads other self')
    = fst (get_tuple py_str json_extract serde_loads other self)
    /\ fst (list_ py_str json_extract serde_loads other before limit self')
       = fst (list_ py_str json_extract serde_loads other before limit self).
Proof.
  intros py_str json_extract serde_dumps serde_loads config checkpoint metadata tid
         other tid' before bound limit self Htid Htid' Hne Hb self'.
  assert (Hconn : forall f, (forall x, f x = true -> col_thread_id x = py_str tid') ->
                            filter f (conn self') = filter f (conn self)).
  { intros f Hf. subst self'. rewrite put_effect. cbn [snd conn].
    destruct (put_row py_str serde_dumps config checkpoint metadata) as [r |] eqn:Hr;
      [| reflexivity].
    apply (filter_insert_other f (py_str tid') r (conn self) Hf).
    now rewrite (put_row_thread py_str serde_dumps _ _ _ tid r Htid Hr). }
  split.
  - destruct (locator_thread_ts_total other tid' Htid') as [ts Hts].
    destruct (py_truthy ts) eqn:Htruthy.
    + rewrite !(get_tuple_exact py_str json_extract serde_loads other tid' ts _
                  Htid' Hts Htruthy).
      cbn [fst]. rewrite Hconn; [reflexivity |].
      intros x Hx. unfold has_key in Hx. apply andb_prop in Hx as [Hx _].
      now apply String.eqb_eq.
    + rewrite !(get_tuple_latest py_str json_extract serde_loads other tid' ts _
                  Htid' Hts Htruthy).
      cbn [fst]. unfold thread_rows. rewrite Hconn; [reflexivity |].
      intros x Hx. now apply String.eqb_eq.
  - rewrite !(list_yields py_str json_extract serde_loads other tid' before bound limit _
                Htid' Hb).
    cbn [fst]. unfold list_rows. rewrite Hconn; [reflexivity |].
    intros x Hx. exact (in_range_thread _ _ _ Hx).
Qed.

Lemma put_leaves_other_threads_witness :
  fst (get_tuple scalar_str entry_extract entry_loads (thread_locator (PyStr "1"))
         (snd (put scalar_str entry_extract entry_dumps (thread_locator (PyStr "2"))
                   (PyDict [("id", PyStr "z")]) (PyDict []) sample_saver)))
  = fst (get_tuple scalar_str entry_extract entry_loads (thread_locator (PyStr "1"))
           sample_saver)
  /\ fst (list_ scalar_str entry_extract entry_loads (thread_locator (PyStr "1")) None None
            (snd (put scalar_str entry_extract entry_dumps (thread_locator (PyStr "2"))
                      (PyDict [("id", PyStr "z")]) (PyDict []) sample_saver)))
     = fst (list_ scalar_str entry_extract entry_loads (thread_locator (PyStr "1")) None None
              sample_saver).
Proof.
  apply (put_leaves_other_threads scalar_str entry_extract entry_dumps entry_loads
           (thread_locator (PyStr "2")) (PyDict [("id", PyStr "z")]) (PyDict [])
           (PyStr "2") (thread_locator (PyStr "1")) (PyStr "1") None None None
           sample_saver); try reflexivity.
  discriminate.
Defined.

(** X8.  A thread is named by [str] of its id.  Two locators whose
    thread ids have the same [str] (the number 1 and the string ['1'],
    say) name one thread: [list] does the same for both, [get_tuple]
    does the same for both when neither carries a checkpoint id, and a
    [put] through either leaves the same store when both carry the same
    checkpoint id. *)
Theorem thread_id_is_its_str :
  forall (py_str : py_value -> string)
         (json_extract : bytes -> string -> result sql_value)
         (serde_dumps : py_value -> result bytes)
         (serde_loads : bytes -> result py_value)
         (c1 c2 t1 t2 ts : py_value) (self : SqliteSaver),
    locator_thread_id c1 = Ok t1 ->
    locator_thread_id c2 = Ok t2 ->
    py_str t1 = py_str t2 ->
    locator_thread_ts c1 = Ok ts ->
    locator_thread_ts c2 = Ok ts ->
    (forall before limit,
        list_ py_str json_extract serde_loads c1 before limit self
        = list_ py_str json_extract serde_loads c2 before limit self)
    /\ (py_truthy ts = false ->
        get_tuple py_str json_extract serde_loads c1 self
        = get_tuple py_str json_extract serde_loads c2 self)
    /\ (forall checkpoint metadata,
          snd (put py_str json_extract serde_dumps c1 checkpoint metadata self)
          = snd (put py_str json_extract serde_dumps c2 checkpoint metadata self)).
Proof.
  intros py_str json_extract serde_dumps serde_loads c1 c2 t1 t2 ts self
         H1 H2 Hstr Hts1 Hts2.
  split; [| split].
  - intros before limit. unfold list_. unfold locator_thread_id in H1, H2.
    destruct (py_getitem c1 "configurable") as [k1 |]; cbn [rbind] in *; [| discriminate].
    destruct (py_getitem c2 "configurable") as [k2 |]; cbn [rbind] in *; [| discriminate].
    rewrite H1, H2. cbn [rbind]. now rewrite Hstr.
  - intros Hfalsy.
    rewrite (get_tuple_latest py_str json_extract serde_loads c1 t1 ts self H1 Hts1 Hfalsy).
    rewrite (get_tuple_latest py_str json_extract serde_loads c2 t2 ts self H2 Hts2 Hfalsy).
    now rewrite Hstr.
  - intros checkpoint metadata. rewrite !put_effect. cbn [snd].
    assert (Hrow : put_row py_str serde_dumps c1 checkpoint metadata
                   = put_row py_str serde_dumps c2 checkpoint metadata).
    { unfold put_row. unfold locator_thread_id in H1, H2.
      unfold locator_thread_ts in Hts1, Hts2.
      destruct (py_getitem c1 "configurable") as [k1 |]; cbn [rbind] in *;
        [| discriminate].
      destruct (py_getitem c2 "configurable") as [k2 |]; cbn [rbind] in *;
        [| discriminate].
      rewrite H1, H2. cbn [rbind]. now rewrite Hts1, Hts2, Hstr. }
    now rewrite Hrow.
Qed.

Lemma thread_id_is_its_str_witness :
  scalar_str (PyInt 1) = scalar_str (PyStr "1")
  /\ snd (put scalar_str entry_extract entry_dumps (thread_locator (PyInt 1))
              (PyDict [("id", PyStr "c")]) (PyDict []) sample_saver)
     = snd (put scalar_str entry_extract entry_dumps (thread_locator (PyStr "1"))
                (PyDict [("id", PyStr "c")]) (PyDict []) sample_saver).
Proof.
  split; [reflexivity |].
  apply (thread_id_is_its_str scalar_str entry_extract entry_dumps entry_loads
           (thread_locator (PyInt 1)) (thread_locator (PyStr "1"))
           (PyInt 1) (PyStr "1") PyNone sample_saver); reflexivity.
Defined.

(** ** How the arguments of [list] compose *)

Lemma filter_insert_desc (g : row -> bool) (r : row) (l : list row) :
  StronglySorted ts_ge l ->
  filter g (insert_desc r l)
  = if g r then insert_desc r (filter g l) else filter g l.
Proof.
  induction 1 as [| x l Hs IH Hx]; simpl.
  - destruct (g r); reflexivity.
  - destruct (String.ltb (col_thread_ts r) (col_thread_ts x)) eqn:E; simpl.
    + rewrite IH. destruct (g x), (g r); simpl; try rewrite E; reflexivity.
    + destruct (g r) eqn:Er; [| reflexivity].
      destruct (g x) eqn:Ex; simpl; [now rewrite E |].
      destruct (filter g l) as [| y rest] eqn:Ef; [reflexivity |].
      assert (Hy : In y l).
      { assert (Hin : In y (filter g l)) by (rewrite Ef; now left).
        now apply filter_In in Hin. }
      simpl. assert (Hxy := proj1 (Forall_forall _ _) Hx y Hy). unfold ts_ge in Hxy.
      now rewrite (ltb_ge_trans _ _ _ E Hxy).
Qed.

Lemma sort_desc_filter (g : row -> bool) (l : list row) :
  sort_desc (filter g l) = filter g (sort_desc l).
Proof.
  induction l as [| r l IH]; simpl; [reflexivity |].
  rewrite (filter_insert_desc g r _ (sort_desc_sorted l)).
  destruct (g r); simpl; now rewrite IH.
Qed.

Lemma filter_filter (f g : row -> bool) (l : list row) :
  filter f (filter g l) = filter (fun r => g r && f r) l.
Proof.
  induction l as [| r l IH]; simpl; [reflexivity |].
  destruct (g r); simpl; [destruct (f r) |]; now rewrite IH.
Qed.

Section GeneratorComposition.

Variable serde_loads : bytes -> result py_value.

Lemma yield_all_firstn (n : nat) (rows : list row) :
  yielded (yield_all serde_loads (firstn n rows))
  = firstn n (yielded (yield_all serde_loads rows)).
Proof.
  revert n. induction rows as [| r rows IH]; intros [| n]; simpl; try reflexivity.
  destruct (tuple_of_row serde_loads r); simpl; [now rewrite IH | reflexivity].
Qed.

Lemma yield_all_filter_eq (g : row -> bool) (g' : CheckpointTuple -> bool)
      (rows : list row) :
  (forall r tup, tuple_of_row serde_loads r = Ok tup -> g' tup = g r) ->
  raised (yield_all serde_loads rows) = None ->
  yield_all serde_loads (filter g rows)
  = {| yielded := filter g' (yielded (yield_all serde_loads rows)); raised := None |}.
Proof.
  intros Hg. induction rows as [| r rows IH]; simpl; [reflexivity |].
  destruct (tuple_of_row serde_loads r) as [tup |] eqn:E; simpl; [| discriminate].
  intros Hn. rewrite (Hg r tup E). destruct (g r); simpl; [rewrite E |];
    rewrite (IH Hn); reflexivity.
Qed.

Lemma tuple_in_thread_row (a : string) (r : row) (tup : CheckpointTuple) :
  tuple_of_row serde_loads r = Ok tup -> tuple_in_thread a tup = in_thread a r.
Proof.
  intros E. unfold tuple_in_thread. now rewrite (tuple_of_row_key _ _ _ E).
Qed.

Lemma tuple_before_row (x : string) (r : row) (tup : CheckpointTuple) :
  tuple_of_row serde_loads r = Ok tup -> tuple_before x tup = before_ts x r.
Proof.
  intros E. unfold tuple_before. now rewrite (tuple_of_row_key _ _ _ E).
Qed.

End GeneratorComposition.

Lemma before_bound_spec (before : option py_value) (bound : option string) :
  before_bound before = Some bound ->
  match before with
  | None => bound = None
  | Some b => exists x, bound_thread_ts b = Ok (PyStr x) /\ bound = Some x
  end.
Proof.
  unfold before_bound. destruct before as [b |].
  - destruct (bound_thread_ts b) as [[] |]; try discriminate.
    intros H. injection H as <-. eauto.
  - intros H. now injection H as <-.
Qed.

(** X9.  A positive [limit] cuts the listing and does nothing else:
    [list] with a limit [k] that SQLite can hold, below [2^63], yields
    the first [k] tuples of what it yields without a limit. *)
Theorem list_limit_is_prefix :
  forall (py_str : py_value -> string)
         (json_extract : bytes -> string -> result sql_value)
         (serde_loads : bytes -> result py_value)
         (config tid : py_value) (before : option py_value) (bound : option string)
         (k : Z) (self : SqliteSaver),
    locator_thread_id config = Ok tid ->
    before_bound before = Some bound ->
    0 < k < 2 ^ 63 ->
    yielded (fst (list_ py_str json_extract serde_loads config before (Some k) self))
    = firstn (Z.to_nat k)
        (yielded (fst (list_ py_str json_extract serde_loads config before None self))).
Proof.
  intros py_str json_extract serde_loads config tid before bound k self Htid Hb Hk.
  apply before_bound_spec in Hb.
  assert (Hfit : limit_fits (Some k) = true).
  { unfold limit_fits. apply andb_true_iff. rewrite Z.leb_le, Z.ltb_lt. lia. }
  rewrite (list_yields_fit py_str json_extract serde_loads config tid before bound _ self
             Htid Hb Hfit).
  rewrite (list_yields_fit py_str json_extract serde_loads config tid before bound None self
             Htid Hb eq_refl).
  cbn [fst]. unfold list_rows, effective_limit, apply_limit.
  rewrite (proj2 (Z.ltb_lt 0 k) (proj1 Hk)).
  assert (Hneg : (k <? 0) = false) by (apply Z.ltb_ge; lia).
  rewrite Hneg. apply yield_all_firstn.
Qed.

Lemma list_limit_is_prefix_witness :
  yielded (fst (list_ scalar_str entry_extract entry_loads (thread_locator (PyStr "1"))
                  None (Some 1) sample_saver))
  = firstn (Z.to_nat 1)
      (yielded (fst (list_ scalar_str entry_extract entry_loads
                       (thread_locator (PyStr "1")) None None sample_saver))).
Proof.
  apply (list_limit_is_prefix scalar_str entry_extract entry_loads
           (thread_locator (PyStr "1")) (PyStr "1") None None 1 sample_saver);
    [reflexivity | reflexivity | lia].
Defined.

(** X10.  [before] filters the listing and does nothing else: when the
    listing of a thread decodes, [list] with a [before] that carries the
    string [x] yields, in the same order, the tuples of the listing
    whose checkpoint id is below [x]. *)
Theorem list_before_is_filter :
  forall (py_str : py_value -> string)
         (json_extract : bytes -> string -> result sql_value)
         (serde_loads : bytes -> result py_value)
         (config tid b : py_value) (x : string) (self : SqliteSaver),
    locator_thread_id config = Ok tid ->
    bound_thread_ts b = Ok (PyStr x) ->
    raised (fst (list_ py_str json_extract serde_loads config None None self)) = None ->
    fst (list_ py_str json_extract serde_loads config (Some b) None self)
    = {| yielded :=
           filter (tuple_before x)
             (yielded (fst (list_ py_str json_extract serde_loads config None None self)));
         raised := None |}.
Proof.
  intros py_str json_extract serde_loads config tid b x self Htid Hb.
  rewrite (list_yields_fit py_str json_extract serde_loads config tid (Some b) (Some x)
             None self Htid (ex_intro _ x (conj Hb eq_refl)) eq_refl).
  rewrite (list_yields_fit py_str json_extract serde_loads config tid None None None self
             Htid eq_refl eq_refl).
  cbn [fst]. unfold list_rows, effective_limit, apply_limit. intros Hn.
  assert (Hf : filter (in_range (py_str tid) (Some x)) (conn self)
               = filter (before_ts x) (filter (in_range (py_str tid) None) (conn self))).
  { rewrite filter_filter. apply filter_ext. intros r. unfold in_range.
    now rewrite andb_true_r. }
  rewrite Hf, sort_desc_filter.
  apply yield_all_filter_eq; [apply tuple_before_row | exact Hn].
Qed.

Lemma list_before_is_filter_witness :
  fst (list_ scalar_str entry_extract entry_loads (thread_locator (PyStr "1"))
         (Some (locator_at "1" "b")) None sample_saver)
  = {| yielded :=
         filter (tuple_before "b")
           (yielded (fst (list_ scalar_str entry_extract entry_loads
                            (thread_locator (PyStr "1")) None None sample_saver)));
       raised := None |}.
Proof.
  apply (list_before_is_filter scalar_str entry_extract entry_loads
           (thread_locator (PyStr "1")) (PyStr "1") (locator_at "1" "b") "b" sample_saver);
    reflexivity.
Defined.

(** X11.  [get_tuple] without a checkpoint id is the head of the
    listing: it answers the first tuple [list] yields for the thread
    with limit 1, [None] when [list] yields nothing, and it raises what
    stops [list] before a first tuple. *)
Theorem get_tuple_is_head_of_list :
  forall (py_str : py_value -> string)
         (json_extract : bytes -> string -> result sql_value)
         (serde_loads : bytes -> result py_value)
         (config tid ts : py_value) (self : SqliteSaver),
    locator_thread_id config = Ok tid ->
    locator_thread_ts config = Ok ts ->
    py_truthy ts = false ->
    let g := fst (list_ py_str json_extract serde_loads config None (Some 1) self) in
    fst (get_tuple py_str json_extract serde_loads config self)
    = match yielded g, raised g with
      | tup :: _, _ => Ok (Some tup)
      | [], Some e => Raise e
      | [], None => Ok None
      end.
Proof.
  intros py_str json_extract serde_loads config tid ts self Htid Hts Hfalsy g.
  subst g.
  rewrite (get_tuple_latest py_str json_extract serde_loads config tid ts self
             Htid Hts Hfalsy).
  rewrite (list_yields_fit py_str json_extract serde_loads config tid None None (Some 1)
             self Htid eq_refl eq_refl).
  cbn [fst]. unfold list_rows. rewrite filter_in_range_none.
  change (apply_limit (effective_limit (Some 1)) ?l) with (firstn 1 l).
  destruct (sort_desc (thread_rows (py_str tid) (conn self))) as [| r rest];
    [reflexivity |].
  simpl. destruct (tuple_of_row serde_loads r); reflexivity.
Qed.

Lemma get_tuple_is_head_of_list_witness :
  fst (get_tuple scalar_str entry_extract entry_loads (thread_locator (PyStr "1"))
         sample_saver)
  = match yielded (fst (list_ scalar_str entry_extract entry_loads
                          (thread_locator (PyStr "1")) None (Some 1) sample_saver)),
          raised (fst (list_ scalar_str entry_extract entry_loads
                         (thread_locator (PyStr "1")) None (Some 1) sample_saver)) with
    | tup :: _, _ => Ok (Some tup)
    | [], Some e => Raise e
    | [], None => Ok None
    end.
Proof.
  apply (get_tuple_is_head_of_list scalar_str entry_extract entry_loads
           (thread_locator (PyStr "1")) (PyStr "1") PyNone sample_saver); reflexivity.
Defined.

(** X12.  The listing of a thread is the unfiltered search cut down to
    the thread: when [search] with an empty filter decodes every row it
    reads, [list] for a locator yields, in the same order, the tuples
    of that search that belong to the thread of the locator; with the
    same [before] on both sides, or none. *)
Theorem list_is_search_of_thread :
  forall (py_str : py_value -> string) (float_repr : spec_float -> string)
         (json_extract : bytes -> string -> result sql_value)
         (serde_loads : bytes -> result py_value)
         (config tid : py_value) (before : option py_value) (bound : option string)
         (self : SqliteSaver),
    locator_thread_id config = Ok tid ->
    before_bound before = Some bound ->
    let found := fst (search py_str float_repr json_extract serde_loads [] before None self) in
    raised found = None ->
    fst (list_ py_str json_extract serde_loads config before None self)
    = {| yielded := filter (tuple_in_thread (py_str tid)) (yielded found);
         raised := None |}.
Proof.
  intros py_str float_repr json_extract serde_loads config tid before bound self
         Htid Hb found.
  apply before_bound_spec in Hb. subst found.
  rewrite (search_yields py_str float_repr json_extract serde_loads [] before bound None
             [] [] self (Forall_nil _) eq_refl eq_refl Hb).
  2: { apply Forall_forall. intros r _. constructor. }
  rewrite (list_yields_fit py_str json_extract serde_loads config tid before bound None
             self Htid Hb eq_refl).
  cbn [fst limit_fits]. unfold list_rows, search_rows, effective_limit, apply_limit.
  intros Hn.
  set (below := fun r : row => match bound with
                               | Some x => before_ts x r
                               | None => true
                               end).
  assert (Hf : filter (in_range (py_str tid) bound) (conn self)
               = filter (in_thread (py_str tid))
                   (filter (fun r => matches_all json_extract r [] [] && below r)
                      (conn self))).
  { rewrite filter_filter. apply filter_ext. intros r. unfold in_range. cbn [matches_all].
    fold (below r). cbn [andb]. apply andb_comm. }
  rewrite Hf, sort_desc_filter.
  apply yield_all_filter_eq; [apply tuple_in_thread_row | exact Hn].
Qed.

Lemma list_is_search_of_thread_witness :
  fst (list_ scalar_str entry_extract entry_loads (thread_locator (PyStr "1")) None None
         sample_saver)
  = {| yielded :=
         filter (tuple_in_thread (scalar_str (PyStr "1")))
           (yielded (fst (search scalar_str half_repr entry_extract entry_loads [] None None
                            sample_saver)));
       raised := None |}.
Proof.
  apply (list_is_search_of_thread scalar_str half_repr entry_extract entry_loads
           (thread_locator (PyStr "1")) (PyStr "1") None None sample_saver); reflexivity.
Defined.

(** ** The WHERE clause as a whole *)

Lemma count_placeholders_app (a b : string) :
  count_placeholders (a ++ b) = (count_placeholders a + count_placeholders b)%nat.
Proof.
  induction a as [| c a IH]; simpl; [reflexivity |]. rewrite IH. lia.
Qed.

Lemma count_placeholders_clause (item : string * py_value) :
  count_placeholders (clause_text item) = S (count_placeholders (fst item)).
Proof.
  unfold clause_text.
  rewrite (count_placeholders_app "json_extract(CAST(metadata AS TEXT), '$.").
  rewrite (count_placeholders_app (fst item)).
  rewrite (count_placeholders_app "') ").
  rewrite (count_placeholders_app (operator_of (snd item))).
  assert (Hop : count_placeholders (operator_of (snd item)) = 1%nat)
    by (unfold operator_of; destruct (is_none (snd item)); reflexivity).
  rewrite Hop.
  change (count_placeholders "json_extract(CAST(metadata AS TEXT), '$.") with 0%nat.
  change (count_placeholders "') ") with 0%nat.
  change (count_placeholders " ") with 0%nat. lia.
Qed.

Lemma count_placeholders_concat (texts : list string) :
  count_placeholders (String.concat "AND " texts)
  = list_sum (map count_placeholders texts).
Proof.
  induction texts as [| a [| b texts] IH].
  - reflexivity.
  - simpl. lia.
  - change (String.concat "AND " (a :: b :: texts))
      with (a ++ "AND " ++ String.concat "AND " (b :: texts)).
    rewrite count_placeholders_app, (count_placeholders_app "AND "), IH.
    change (count_placeholders "AND ") with 0%nat.
    change (map count_placeholders (a :: b :: texts))
      with (count_placeholders a :: map count_placeholders (b :: texts)).
    cbn [list_sum fold_right]. reflexivity.
Qed.

Lemma count_placeholders_clauses (items : list (string * py_value)) :
  list_sum (map count_placeholders (map clause_text items))
  = (List.length items
     + list_sum (map (fun item => count_placeholders (fst item)) items))%nat.
Proof.
  induction items as [| item items IH]; [reflexivity |].
  cbn [map list_sum fold_right List.length].
  fold (list_sum (map count_placeholders (map clause_text items))).
  fold (list_sum (map (fun item => count_placeholders (fst item)) items)).
  rewrite count_placeholders_clause, IH. lia.
Qed.

(** X13.  The clause [search_where] builds has one placeholder for
    each parameter it returns, and one more for every question mark
    inside a key of the filter: the keys are spliced into the text, the
    values never are. *)
Theorem placeholders_match_parameters :
  forall (py_str : py_value -> string) (float_repr : spec_float -> string)
         (metadata_filter : list (string * py_value)) (before : option py_value)
         (where_ : string) (param_values : list py_value),
    search_where py_str float_repr metadata_filter before = Ok (where_, param_values) ->
    count_placeholders where_
    = (List.length param_values
       + list_sum (map (fun item => count_placeholders (fst item)) metadata_filter))%nat.
Proof.
  intros py_str float_repr metadata_filter before where_ param_values H.
  assert (Hw : forall texts,
             count_placeholders ("WHERE " ++ String.concat "AND " texts)
             = list_sum (map count_placeholders texts)).
  { intros texts. rewrite count_placeholders_app, count_placeholders_concat.
    reflexivity. }
  rewrite search_where_spec in H.
  destruct (where_params py_str float_repr metadata_filter) as [ps |] eqn:Hps;
    [| discriminate].
  assert (Hlen := where_params_length py_str float_repr _ _ Hps).
  remember (where_texts metadata_filter true) as bounded eqn:Hb.
  remember (where_texts metadata_filter false) as free eqn:Hf.
  cbn [rbind] in H. destruct before as [b |].
  - destruct (bound_thread_ts b) as [bts |]; cbn [rbind] in H; [| discriminate].
    remember ("WHERE " ++ String.concat "AND " bounded) as w eqn:E.
    injection H as <- <-. rewrite E, Hw, Hb.
    unfold where_texts. rewrite map_app, list_sum_app, count_placeholders_clauses.
    rewrite length_app, Hlen. simpl. lia.
  - remember ("WHERE " ++ String.concat "AND " free) as w eqn:E.
    destruct metadata_filter as [| item rest]; injection H as <- <-; [reflexivity |].
    rewrite E, Hw, Hf.
    unfold where_texts. rewrite app_nil_r, count_placeholders_clauses, Hlen.
    reflexivity.
Qed.

Lemma placeholders_match_parameters_witness :
  count_placeholders
    "WHERE json_extract(CAST(metadata AS TEXT), '$.source') = ? AND thread_ts < ? "
  = (List.length [PyStr "a"; PyStr "b"]
     + list_sum (map (fun item => count_placeholders (fst item))
                   [("source", PyStr "a")]))%nat.
Proof.
  apply (placeholders_match_parameters scalar_str half_repr [("source", PyStr "a")]
           (Some (locator_at "1" "b"))
           "WHERE json_extract(CAST(metadata AS TEXT), '$.source') = ? AND thread_ts < ? "
           [PyStr "a"; PyStr "b"]).
  reflexivity.
Defined.

Lemma where_params_scalars (py_str : py_value -> string)
      (float_repr : spec_float -> string) (items : list (string * py_value)) :
  Forall (fun item => plain_scalar (snd item) = true) items ->
  where_params py_str float_repr items = Ok (map snd items).
Proof.
  induction 1 as [| [k v] rest Hv Hrest IH]; [reflexivity |].
  cbn [where_params map snd]. cbn [snd] in Hv.
  assert (Ev : exists op, _where_value py_str float_repr v = Ok (op, v)).
  { destruct v; try discriminate; eexists; reflexivity. }
  destruct Ev as [op Ev]. rewrite Ev. cbn [rbind]. now rewrite IH.
Qed.

(** X14.  The clause builder never raises on scalars.  For a filter
    whose values are [None], strings, integers, booleans or floats,
    [_metadata_predicate] returns, [search_where] without [before]
    returns, and the parameters are the values of the filter, unchanged
    and in its order; with a [before], [search_where] returns those
    parameters followed by the [thread_ts] of [before], or raises
    exactly what the lookup of that [thread_ts] raises. *)
Theorem builder_never_raises_on_scalars :
  forall (py_str : py_value -> string) (float_repr : spec_float -> string)
         (metadata_filter : list (string * py_value)),
    Forall (fun item => plain_scalar (snd item) = true) metadata_filter ->
    (exists predicate,
        _metadata_predicate py_str float_repr metadata_filter
        = Ok (predicate, map snd metadata_filter))
    /\ (exists where_,
          search_where py_str float_repr metadata_filter None
          = Ok (where_, map snd metadata_filter))
    /\ (forall b,
          match bound_thread_ts b with
          | Ok ts =>
              exists where_,
                search_where py_str float_repr metadata_filter (Some b)
                = Ok (where_, (map snd metadata_filter ++ [ts])%list)
          | Raise e =>
              search_where py_str float_repr metadata_filter (Some b) = Raise e
          end).
Proof.
  intros py_str float_repr metadata_filter Hs.
  assert (Hps := where_params_scalars py_str float_repr metadata_filter Hs).
  split; [| split].
  - rewrite metadata_predicate_spec, Hps. cbn [rbind]. eauto.
  - rewrite search_where_spec, Hps. cbn [rbind].
    destruct metadata_filter; eauto.
  - intros b. rewrite search_where_spec, Hps. cbn [rbind].
    destruct (bound_thread_ts b); cbn [rbind]; eauto.
Qed.

Lemma builder_never_raises_on_scalars_witness :
  exists where_,
    search_where scalar_str half_repr
      [("source", PyStr "a"); ("step", PyInt 1); ("done", PyBool true); ("writes", PyNone)]
      None
    = Ok (where_, [PyStr "a"; PyInt 1; PyBool true; PyNone]).
Proof.
  destruct (builder_never_raises_on_scalars scalar_str half_repr
              [("source", PyStr "a"); ("step", PyInt 1); ("done", PyBool true);
               ("writes", PyNone)]) as [_ [found _]].
  - repeat constructor.
  - exact found.
Defined.

(** X15.  [before] adds one clause at the end and one parameter at the
    end.  For a filter that is not empty, the clause with a [before] is
    the clause without it followed by [AND thread_ts < ? ], and the
    parameters are those of the filter followed by the [thread_ts] of
    [before], untouched; for the empty filter the clause is
    [WHERE thread_ts < ? ]. *)
Theorem before_appends_one_clause :
  forall (py_str : py_value -> string) (float_repr : spec_float -> string)
         (metadata_filter : list (string * py_value)) (b ts : py_value)
         (where_ : string) (param_values : list py_value),
    search_where py_str float_repr metadata_filter None = Ok (where_, param_values) ->
    bound_thread_ts b = Ok ts ->
    search_where py_str float_repr metadata_filter (Some b)
    = Ok (match metadata_filter with
          | [] => "WHERE thread_ts < ? "
          | _ => where_ ++ "AND thread_ts < ? "
          end,
          (param_values ++ [ts])%list).
Proof.
  intros py_str float_repr metadata_filter b ts where_ param_values H Hb.
  rewrite search_where_spec in H. rewrite search_where_spec, Hb.
  destruct (where_params py_str float_repr metadata_filter) as [ps |] eqn:Hps;
    [| discriminate].
  unfold where_texts in *.
  remember (String.concat "AND " (map clause_text metadata_filter ++ [])) as joined
    eqn:Ej.
  cbn [rbind] in *.
  destruct metadata_filter as [| item rest].
  - injection Hps as <-. injection H as <- <-. reflexivity.
  - remember ("WHERE " ++ joined) as w eqn:Ew. injection H as <- <-.
    rewrite concat_app_last by discriminate.
    rewrite app_nil_r in Ej. rewrite <- Ej, Ew.
    now rewrite <- string_app_assoc.
Qed.

Lemma before_appends_one_clause_witness :
  search_where scalar_str half_repr [("source", PyStr "a")] (Some (locator_at "1" "b"))
  = Ok ("WHERE json_extract(CAST(metadata AS TEXT), '$.source') = ? "
          ++ "AND thread_ts < ? ",
        ([PyStr "a"] ++ [PyStr "b"])%list).
Proof.
  apply (before_appends_one_clause scalar_str half_repr [("source", PyStr "a")]
           (locator_at "1" "b") (PyStr "b")
           "WHERE json_extract(CAST(metadata AS TEXT), '$.source') = ? " [PyStr "a"]);
    reflexivity.
Defined.

(** ** From a listing back to a lookup *)

Lemma yield_all_from_row (serde_loads : bytes -> result py_value)
      (rows : list row) (tup : CheckpointTuple) :
  In tup (yielded (yield_all serde_loads rows)) ->
  exists r, In r rows /\ tuple_of_row serde_loads r = Ok tup.
Proof.
  assert (H : Forall (fun tup => exists r, In r rows /\ tuple_of_row serde_loads r = Ok tup)
                (yielded (yield_all serde_loads rows))).
  { apply (yield_all_forall serde_loads (fun r => In r rows)); [eauto |].
    now apply Forall_forall. }
  intros Hin. exact (proj1 (Forall_forall _ _) H tup Hin).
Qed.

Lemma tuple_at_of_row (serde_loads : bytes -> result py_value)
      (r : row) (tup : CheckpointTuple) :
  tuple_of_row serde_loads r = Ok tup ->
  tuple_at serde_loads (config tup) (PyStr (col_thread_id r)) r = Ok tup.
Proof.
  unfold tuple_of_row, tuple_at. intros H.
  destruct (serde_loads (col_checkpoint r)) as [ck |]; cbn [rbind] in *;
    [| discriminate].
  destruct (match col_metadata r with
            | Some b => serde_loads b
            | None => Ok (PyDict [])
            end) as [md |]; cbn [rbind] in *; [| discriminate].
  injection H as <-. reflexivity.
Qed.

(** X16.  What [list] yields, [get_tuple] finds.  In a store without
    duplicate keys, every tuple that [list] yields with a checkpoint id
    that is not empty is the answer of [get_tuple] on the [config] of
    that tuple. *)
Theorem listed_tuple_is_found_by_its_config :
  forall (py_str : py_value -> string)
         (json_extract : bytes -> string -> result sql_value)
         (serde_loads : bytes -> result py_value)
         (locator tid : py_value) (before : option py_value) (bound : option string)
         (limit : option Z) (self : SqliteSaver)
         (tup : CheckpointTuple) (a i : string),
    (forall s, py_str (PyStr s) = s) ->
    pk_unique (conn self) ->
    locator_thread_id locator = Ok tid ->
    before_bound before = Some bound ->
    In tup (yielded (fst (list_ py_str json_extract serde_loads locator before limit self))) ->
    tuple_key tup = Some (a, i) ->
    i <> "" ->
    get_tuple py_str json_extract serde_loads (config tup) self
    = (Ok (Some tup), {| conn := conn self; is_setup := true |}).
Proof.
  intros py_str json_extract serde_loads locator tid before bound limit self tup a i
         Hstr Hu Htid Hb Hin Hkey Hi.
  apply before_bound_spec in Hb.
  rewrite (list_yields py_str json_extract serde_loads locator tid before bound limit self
             Htid Hb) in Hin.
  cbn [fst] in Hin. destruct (limit_fits limit); [| destruct Hin].
  apply yield_all_from_row in Hin as [r [Hr Htup]].
  apply list_rows_in in Hr as [Hr _].
  assert (Hk := tuple_of_row_key serde_loads r tup Htup).
  rewrite Hkey in Hk. injection Hk as -> ->.
  assert (Hconfig : config tup
                    = configurable_of (PyStr (col_thread_id r)) (PyStr (col_thread_ts r))).
  { unfold tuple_of_row in Htup.
    destruct (serde_loads (col_checkpoint r)); cbn [rbind] in Htup; [| discriminate].
    destruct (match col_metadata r with
              | Some b => serde_loads b
              | None => Ok (PyDict [])
              end); cbn [rbind] in Htup; [| discriminate].
    now injection Htup as <-. }
  assert (Htruthy : py_truthy (PyStr (col_thread_ts r)) = true).
  { destruct (col_thread_ts r); [now contradiction Hi | reflexivity]. }
  rewrite (get_tuple_exact py_str json_extract serde_loads (config tup)
             (PyStr (col_thread_id r)) (PyStr (col_thread_ts r)) self).
  - rewrite !Hstr, (filter_key_unique _ r Hu Hr).
    now rewrite (tuple_at_of_row serde_loads r tup Htup).
  - now rewrite Hconfig.
  - now rewrite Hconfig.
  - exact Htruthy.
Qed.

Lemma listed_tuple_is_found_by_its_config_witness :
  get_tuple scalar_str entry_extract entry_loads (locator_at "1" "b") sample_saver
  = (Ok (Some {| config := locator_at "1" "b"; checkpoint := PyStr "b";
                 metadata := PyStr "loop"; parent_config := locator_at "1" "a" |}),
     {| conn := conn sample_saver; is_setup := true |}).
Proof.
  apply (listed_tuple_is_found_by_its_config scalar_str entry_extract entry_loads
           (thread_locator (PyStr "1")) (PyStr "1") None None None sample_saver
           {| config := locator_at "1" "b"; checkpoint := PyStr "b";
              metadata := PyStr "loop"; parent_config := locator_at "1" "a" |}
           "1" "b").
  - intros s. reflexivity.
  - exact sample_table_unique.
  - reflexivity.
  - reflexivity.
  - left. reflexivity.
  - reflexivity.
  - discriminate.
Defined.

(** ** How the arguments of [search] compose *)

(** X17.  For [search], as for [list], a positive [limit] cuts and
    [before] filters.  Take a filter whose keys hold no quote and whose
    fields SQLite can extract from every row, and a store in which no two
    rows, of whatever thread, share a checkpoint id, so that the
    descending order leaves no choice between equal ids.  With a limit
    [k] below [2^63], [search] yields the first [k] tuples of what it
    yields without a limit; and when the search without [before]
    decodes, the search with a [before] that carries the string [x]
    yields, in the same order, its tuples with a checkpoint id below
    [x]. *)
Theorem search_limit_cuts_before_filters :
  forall (py_str : py_value -> string) (float_repr : spec_float -> string)
         (json_extract : bytes -> string -> result sql_value)
         (serde_loads : bytes -> result py_value)
         (metadata_filter : list (string * py_value))
         (ps : list py_value) (sps : list sql_value) (self : SqliteSaver),
    Forall (fun item => quote_free (fst item) = true) metadata_filter ->
    where_params py_str float_repr metadata_filter = Ok ps ->
    bind_params ps = Ok sps ->
    Forall (fun r => Forall (fun item => exists v,
                                extract_metadata json_extract r ("$." ++ fst item) = Ok v)
                            metadata_filter) (conn self) ->
    NoDup (map col_thread_ts (conn self)) ->
    let run := search py_str float_repr json_extract serde_loads metadata_filter in
    (forall before bound k,
        before_bound before = Some bound ->
        0 < k < 2 ^ 63 ->
        yielded (fst (run before (Some k) self))
        = firstn (Z.to_nat k) (yielded (fst (run before None self))))
    /\ (forall b x,
          bound_thread_ts b = Ok (PyStr x) ->
          raised (fst (run None None self)) = None ->
          fst (run (Some b) None self)
          = {| yielded := filter (tuple_before x) (yielded (fst (run None None self)));
               raised := None |}).
Proof.
  intros py_str float_repr json_extract serde_loads metadata_filter ps sps self
         Hk Hps Hsps Hex _ run.
  assert (Hrun : forall before bound limit,
             match before with
             | None => bound = None
             | Some b => exists x, bound_thread_ts b = Ok (PyStr x) /\ bound = Some x
             end ->
             limit_fits limit = true ->
             run before limit self =
               (yield_all serde_loads
                  (search_rows json_extract metadata_filter sps bound limit (conn self)),
                {| conn := conn self; is_setup := true |})).
  { intros before bound limit Hb Hfit. subst run.
    rewrite (search_yields py_str float_repr json_extract serde_loads metadata_filter
               before bound limit ps sps self Hk Hps Hsps Hb Hex).
    now rewrite Hfit. }
  split.
  - intros before bound k Hb Hpos. apply before_bound_spec in Hb.
    assert (Hfit : limit_fits (Some k) = true).
    { unfold limit_fits. apply andb_true_iff. rewrite Z.leb_le, Z.ltb_lt. lia. }
    rewrite (Hrun before bound (Some k) Hb Hfit), (Hrun before bound None Hb eq_refl).
    cbn [fst]. unfold search_rows, effective_limit, apply_limit.
    rewrite (proj2 (Z.ltb_lt 0 k) (proj1 Hpos)).
    assert (Hneg : (k <? 0) = false) by (apply Z.ltb_ge; lia).
    rewrite Hneg. apply yield_all_firstn.
  - intros b x Hb.
    rewrite (Hrun (Some b) (Some x) None (ex_intro _ x (conj Hb eq_refl)) eq_refl).
    rewrite (Hrun None None None eq_refl eq_refl).
    cbn [fst]. unfold search_rows, effective_limit, apply_limit. intros Hn.
    assert (Hf : filter (fun r => matches_all json_extract r metadata_filter sps
                                  && before_ts x r) (conn self)
                 = filter (before_ts x)
                     (filter (fun r => matches_all json_extract r metadata_filter sps
                                       && true) (conn self))).
    { rewrite filter_filter. apply filter_ext. intros r. now rewrite andb_true_r. }
    rewrite Hf, sort_desc_filter.
    apply yield_all_filter_eq; [apply tuple_before_row | exact Hn].
Qed.

Lemma search_limit_cuts_before_filters_witness :
  yielded (fst (search scalar_str half_repr entry_extract entry_loads
                  [("source", PyStr "input")] None (Some 1) sample_saver))
  = firstn (Z.to_nat 1)
      (yielded (fst (search scalar_str half_repr entry_extract entry_loads
                       [("source", PyStr "input")] None None sample_saver))).
Proof.
  apply (search_limit_cuts_before_filters scalar_str half_repr entry_extract entry_loads
           [("source", PyStr "input")] [PyStr "input"] [SqlText "input"] sample_saver)
    with (bound := None).
  - repeat constructor.
  - reflexivity.
  - reflexivity.
  - repeat constructor; eexists; reflexivity.
  - repeat constructor; simpl; intuition discriminate.
  - reflexivity.
  - lia.
Defined.

(** ** The fake chat model of the tests *)

Lemma str_join_cons (sep s : string) (y : py_value) (l : list py_value) :
  FakeToolCallingModel.str_join sep (PyStr s :: y :: l)
  = (tail <- FakeToolCallingModel.str_join sep (y :: l) ;; Ok (s ++ sep ++ tail)).
Proof. reflexivity. Qed.

Lemma str_join_app (sep : string) (a b : list py_value) (sa sb : string) :
  a <> [] -> b <> [] ->
  FakeToolCallingModel.str_join sep a = Ok sa ->
  FakeToolCallingModel.str_join sep b = Ok sb ->
  FakeToolCallingModel.str_join sep (a ++ b) = Ok (sa ++ sep ++ sb).
Proof.
  intros Ha Hb. revert sa. induction a as [| x a IH]; intros sa Hsa Hsb;
    [congruence |].
  destruct x; try discriminate. destruct a as [| y a'].
  - injection Hsa as <-. destruct b as [| z b']; [congruence |].
    change ([PyStr s] ++ z :: b')%list with (PyStr s :: z :: b').
    rewrite str_join_cons, Hsb. reflexivity.
  - change ((PyStr s :: y :: a') ++ b)%list with (PyStr s :: y :: (a' ++ b)%list).
    rewrite str_join_cons in Hsa. rewrite str_join_cons.
    destruct (FakeToolCallingModel.str_join sep (y :: a')) as [t |] eqn:Et;
      cbn [rbind] in Hsa; [| discriminate].
    injection Hsa as <-.
    change (y :: (a' ++ b)%list) with ((y :: a') ++ b)%list.
    rewrite (IH ltac:(discriminate) t eq_refl Hsb). cbn [rbind].
    now rewrite !string_app_assoc.
Qed.

Lemma str_join_raises (sep : string) (items : list py_value) :
  Exists (fun v => isinstance_str v = false) items ->
  FakeToolCallingModel.str_join sep items = Raise TypeError.
Proof.
  induction 1 as [x l Hx | x l Hl IH].
  - destruct x; try discriminate; reflexivity.
  - destruct x; try reflexivity. destruct l as [| y l']; [inversion Hl |].
    now rewrite str_join_cons, IH.
Qed.

(** X18.  The fake model joins contents with a dash.  The reply to two
    runs of messages put together has the content of the reply to the
    first, a dash, and the content of the reply to the second, so a
    system message in front of a conversation prefixes the reply with
    its content and a dash; and a message whose content is not a string
    makes the model raise [TypeError]. *)
Theorem fake_model_joins_contents :
  forall (a b : list FakeToolCallingModel.BaseMessage) (sa sb : string),
    a <> [] -> b <> [] ->
    FakeToolCallingModel._generate a = Ok (FakeToolCallingModel.reply sa) ->
    FakeToolCallingModel._generate b = Ok (FakeToolCallingModel.reply sb) ->
    FakeToolCallingModel._generate (a ++ b)
    = Ok (FakeToolCallingModel.reply (sa ++ "-" ++ sb))
    /\ forall front m back,
         isinstance_str (FakeToolCallingModel.content m) = false ->
         FakeToolCallingModel._generate (front ++ m :: back) = Raise TypeError.
Proof.
  intros a b sa sb Ha Hb Hsa Hsb. unfold FakeToolCallingModel._generate in *. split.
  - destruct (FakeToolCallingModel.str_join "-" (map FakeToolCallingModel.content a))
      as [ta |] eqn:Ea; cbn [rbind] in Hsa; [| discriminate].
    destruct (FakeToolCallingModel.str_join "-" (map FakeToolCallingModel.content b))
      as [tb |] eqn:Eb; cbn [rbind] in Hsb; [| discriminate].
    unfold FakeToolCallingModel.reply in Hsa, Hsb.
    injection Hsa as ->. injection Hsb as ->.
    rewrite map_app, (str_join_app "-" _ _ sa sb); try assumption; [reflexivity | |].
    + destruct a; [congruence | discriminate].
    + destruct b; [congruence | discriminate].
  - intros front m back Hm. rewrite str_join_raises; [reflexivity |].
    rewrite map_app. apply Exists_app. right. now left.
Qed.

Lemma fake_model_joins_contents_witness :
  FakeToolCallingModel._generate
    ([{| FakeToolCallingModel.class_of := FakeToolCallingModel.SystemMessage;
         FakeToolCallingModel.content := PyStr "Foo";
         FakeToolCallingModel.message_id := None |}]
     ++ [{| FakeToolCallingModel.class_of := FakeToolCallingModel.HumanMessage;
            FakeToolCallingModel.content := PyStr "hi?";
            FakeToolCallingModel.message_id := None |}])
  = Ok (FakeToolCallingModel.reply ("Foo" ++ "-" ++ "hi?")).
Proof.
  apply (fake_model_joins_contents
           [{| FakeToolCallingModel.class_of := FakeToolCallingModel.SystemMessage;
               FakeToolCallingModel.content := PyStr "Foo";
               FakeToolCallingModel.message_id := None |}]
           [{| FakeToolCallingModel.class_of := FakeToolCallingModel.HumanMessage;
               FakeToolCallingModel.content := PyStr "hi?";
               FakeToolCallingModel.message_id := None |}]
           "Foo" "hi?"); try reflexivity; discriminate.
Defined.

(** ** The listing and the order of insertion *)

Lemma strictly_sorted_unique (l l' : list row) :
  StronglySorted ts_gt l -> StronglySorted ts_gt l' ->
  (forall r, In r l <-> In r l') -> l = l'.
Proof.
  intros Hs. revert l'. induction Hs as [| x l Hs IH Hx]; intros l' Hs' Hin.
  - destruct l' as [| y l']; [reflexivity |].
    exfalso. apply (proj2 (Hin y)). now left.
  - destruct Hs' as [| y l' Hs' Hy].
    { exfalso. apply (proj1 (Hin x)). now left. }
    assert (Hgt : forall a b, ts_gt a b -> ts_gt b a -> False).
    { unfold ts_gt. intros a b H1 H2. apply ltb_asym in H1. congruence. }
    assert (Hirr : forall a, ts_gt a a -> False) by (intros a H; exact (Hgt a a H H)).
    assert (Hxy : x = y).
    { destruct (proj1 (Hin x) (or_introl eq_refl)) as [E | Hxl']; [now symmetry |].
      destruct (proj2 (Hin y) (or_introl eq_refl)) as [E | Hyl]; [exact E |].
      exfalso. apply (Hgt x y).
      - exact (proj1 (Forall_forall _ _) Hx y Hyl).
      - exact (proj1 (Forall_forall _ _) Hy x Hxl'). }
    subst y. f_equal. apply IH; [exact Hs' |]. intros r. split; intros Hr.
    + destruct (proj1 (Hin r) (or_intror Hr)) as [E | Hr']; [| exact Hr'].
      subst r. exfalso. apply (Hirr x). exact (proj1 (Forall_forall _ _) Hx x Hr).
    + destruct (proj2 (Hin r) (or_intror Hr)) as [E | Hr']; [| exact Hr'].
      subst r. exfalso. apply (Hirr x). exact (proj1 (Forall_forall _ _) Hy x Hr).
Qed.

(** X19.  The listing of a thread does not depend on the order in
    which the rows came into the table: two stores that hold the same
    rows, no key twice, give the same listing, whatever [before] and
    [limit]. *)
Theorem list_ignores_insertion_order :
  forall (py_str : py_value -> string)
         (json_extract : bytes -> string -> result sql_value)
         (serde_loads : bytes -> result py_value)
         (config tid : py_value) (before : option py_value) (bound : option string)
         (limit : option Z) (self other : SqliteSaver),
    locator_thread_id config = Ok tid ->
    before_bound before = Some bound ->
    pk_unique (conn self) ->
    Permutation (conn self) (conn other) ->
    fst (list_ py_str json_extract serde_loads config before limit self)
    = fst (list_ py_str json_extract serde_loads config before limit other).
Proof.
  intros py_str json_extract serde_loads config tid before bound limit self other
         Htid Hb Hu Hp.
  apply before_bound_spec in Hb.
  rewrite !(list_yields py_str json_extract serde_loads config tid before bound limit _
              Htid Hb).
  cbn [fst]. destruct (limit_fits limit); [| reflexivity].
  unfold list_rows. f_equal. f_equal.
  apply strictly_sorted_unique.
  - exact (list_rows_strict (py_str tid) bound None (conn self) Hu).
  - exact (list_rows_strict (py_str tid) bound None (conn other)
             (pk_unique_perm _ _ Hp Hu)).
  - intros r. rewrite !sort_desc_in, !filter_In. split; intros [Hr Hf]; split; auto.
    + exact (Permutation_in r Hp Hr).
    + exact (Permutation_in r (Permutation_sym Hp) Hr).
Qed.

Lemma list_ignores_insertion_order_witness :
  fst (list_ scalar_str entry_extract entry_loads (thread_locator (PyStr "1")) None None
         sample_saver)
  = fst (list_ scalar_str entry_extract entry_loads (thread_locator (PyStr "1")) None None
           {| conn := [sample_row_b; sample_row_a; sample_row_ab]; is_setup := false |}).
Proof.
  apply (list_ignores_insertion_order scalar_str entry_extract entry_loads
           (thread_locator (PyStr "1")) (PyStr "1") None None None sample_saver
           {| conn := [sample_row_b; sample_row_a; sample_row_ab]; is_setup := false |}).
  - reflexivity.
  - reflexivity.
  - exact sample_table_unique.
  - apply Permutation_sym. apply (Permutation_cons_app [sample_row_a; sample_row_ab] []).
    apply Permutation_refl.
Defined.

(** ** The columns that are NOT NULL *)

(** X20.  A checkpoint whose [id] is [None] is refused by the table:
    [thread_ts] is declared NOT NULL, the INSERT raises
    [IntegrityError], and the table is as it was. *)
Theorem put_null_id_refused :
  forall (py_str : py_value -> string)
         (json_extract : bytes -> string -> result sql_value)
         (serde_dumps : py_value -> result bytes)
         (config checkpoint metadata tid p : py_value) (sp : sql_value)
         (ck md : bytes) (self : SqliteSaver),
    locator_thread_id config = Ok tid ->
    locator_thread_ts config = Ok p ->
    bind_param p = Ok sp ->
    py_getitem checkpoint "id" = Ok PyNone ->
    serde_dumps checkpoint = Ok ck ->
    serde_dumps metadata = Ok md ->
    put py_str json_extract serde_dumps config checkpoint metadata self
    = (Raise IntegrityError, {| conn := conn self; is_setup := true |}).
Proof.
  intros py_str json_extract serde_dumps config checkpoint metadata tid p sp ck md self
         Htid Hp Hsp Hid Hck Hmd.
  rewrite put_effect.
  assert (Hrow : put_row py_str serde_dumps config checkpoint metadata
                 = Raise IntegrityError).
  { unfold put_row. unfold locator_thread_id in Htid. unfold locator_thread_ts in Hp.
    destruct (py_getitem config "configurable") as [c |]; cbn [rbind] in *;
      [| discriminate].
    rewrite Htid. cbn [rbind]. rewrite Hid. cbn [rbind]. rewrite Hp. cbn [rbind].
    rewrite Hck. cbn [rbind]. rewrite Hmd. cbn [rbind].
    cbn [bind_params bind_param rbind]. rewrite Hsp. reflexivity. }
  rewrite Hrow. reflexivity.
Qed.

Lemma put_null_id_refused_witness :
  put scalar_str entry_extract entry_dumps (thread_locator (PyStr "1"))
      (PyDict [("v", PyStr "x"); ("id", PyNone)]) (PyDict []) sample_saver
  = (Raise IntegrityError, {| conn := conn sample_saver; is_setup := true |}).
Proof.
  apply (put_null_id_refused scalar_str entry_extract entry_dumps
           (thread_locator (PyStr "1")) (PyDict [("v", PyStr "x"); ("id", PyNone)]) (PyDict [])
           (PyStr "1") PyNone SqlNull (list_byte_of_string "x") [] sample_saver); reflexivity.
Defined.
